(** * Artify: the image-generation request handler

    A shallow embedding of [generateImage] (the Express handler of the
    image controller) and the properties of its credit ledger, its
    response classification and its polling loop.

    Conventions of the model.
    - A JavaScript value that can come out of [JSON.parse] or of a request
      body is a [jsval]. A number is a double that holds an integer:
      [JNum n] is the double nearest to [n], and arithmetic on numbers
      rounds to the nearest double.
    - A JavaScript string is a [string] holding its UTF-8 bytes. The
      handler compares text against ASCII literals only, so a buffer
      decoded as UTF-8 is modelled by the string of its bytes; the length
      of a string counts its UTF-16 code units.
    - [JSON.parse] and [Buffer.from] on a value that is neither bytes nor a
      string belong to the runtime: they are parameters of the handler.
    - The account collection, the upstream service and the process
      environment are explicit: the handler is a function from a world
      (the persisted accounts and the trace of effects so far) to a
      response and a new world. *)

From Stdlib Require Import ZArith NArith String Ascii List Bool Lia DecimalString.
From Stdlib.Strings Require Import Byte.
From stdpp Require Import base gmap strings.

Import ListNotations.
Local Open Scope string_scope.
Local Open Scope list_scope.

(** ** JavaScript values *)

#[warnings="-register-all"]
Inductive jsval : Type :=
| JUndefined
| JNull
| JBool (b : bool)
| JNum (n : Z)
| JStr (s : string)
| JArr (items : list jsval)
| JObj (fields : list (string * jsval)).

(** [!!v] *)
Definition truthy (v : jsval) : bool :=
  match v with
  | JUndefined | JNull => false
  | JBool b => b
  | JNum n => negb (n =? 0)%Z
  | JStr s => negb (String.eqb s "")
  | JArr _ | JObj _ => true
  end.

(** [a || b] *)
Definition js_or (a b : jsval) : jsval := if truthy a then a else b.

(** [typeof v === "string"] *)
Definition is_string (v : jsval) : bool :=
  match v with JStr _ => true | _ => false end.

(** [Array.isArray(v)] *)
Definition is_array (v : jsval) : bool :=
  match v with JArr _ => true | _ => false end.

(** [v === "lit"] for a string literal *)
Definition str_is (v : jsval) (lit : string) : bool :=
  match v with JStr s => String.eqb s lit | _ => false end.

(** An own property of an object; the first binding of a key is the one
    that counts. *)
Fixpoint lookup_field (k : string) (fs : list (string * jsval)) : jsval :=
  match fs with
  | [] => JUndefined
  | (k', v) :: fs' => if String.eqb k k' then v else lookup_field k fs'
  end.

Fixpoint has_field (k : string) (fs : list (string * jsval)) : bool :=
  match fs with
  | [] => false
  | (k', _) :: fs' => String.eqb k k' || has_field k fs'
  end.

(** [obj.k = v] *)
Fixpoint set_field (k : string) (v : jsval) (fs : list (string * jsval))
  : list (string * jsval) :=
  match fs with
  | [] => [(k, v)]
  | (k', v') :: fs' =>
      if String.eqb k k' then (k, v) :: fs' else (k', v') :: set_field k v fs'
  end.

Definition set_prop (o : jsval) (k : string) (v : jsval) : jsval :=
  match o with
  | JObj fs => JObj (set_field k v fs)
  | _ => o
  end.

(** [arr[0]] on a value known to be an array *)
Definition first_item (v : jsval) : jsval :=
  match v with
  | JArr (x :: _) => x
  | _ => JUndefined
  end.

(** ** Numbers

    The double nearest to an integer, ties to the even significand: the
    integer itself while it has at most 53 significant bits, else the
    integer rounded at the [e] bits below them. Doubles overflow at
    [2 ^ 1024]; the numbers of the handler stay below. *)
Definition to_double (z : Z) : Z :=
  let a := Z.abs z in
  let e := (Z.log2 a - 52)%Z in
  if (e <=? 0)%Z then z
  else
    let q := (a / 2 ^ e)%Z in
    let r := (a mod 2 ^ e)%Z in
    let half := (2 ^ (e - 1))%Z in
    let q' := if (r <? half)%Z then q
              else if (half <? r)%Z then (q + 1)%Z
              else if Z.even q then q else (q + 1)%Z in
    (Z.sgn z * (q' * 2 ^ e))%Z.

(** [a - b] on numbers that hold integers *)
Definition number_sub (a b : Z) : Z := to_double (a - b).

(** [Math.max(a, b)] *)
Definition Math_max (a b : Z) : Z := Z.max a b.

(** ** Strings *)

Fixpoint is_prefix (p s : string) : bool :=
  match p, s with
  | EmptyString, _ => true
  | String a p', String b s' => Ascii.eqb a b && is_prefix p' s'
  | String _ _, EmptyString => false
  end.

(** [s.startsWith(prefix)] *)
Definition startsWith (s prefix : string) : bool := is_prefix prefix s.

(** [s.includes(sub)] *)
Fixpoint includes (s sub : string) : bool :=
  is_prefix sub s ||
  match s with
  | EmptyString => false
  | String _ s' => includes s' sub
  end.

(** ** UTF-8 text and its length in UTF-16 *)

Definition in_range (lo hi : N) (c : ascii) : bool :=
  ((lo <=? N_of_ascii c) && (N_of_ascii c <=? hi))%N.

(** A byte that continues a UTF-8 sequence. *)
Definition is_continuation (c : ascii) : bool := in_range 128 191 c.

(** For the first byte of a sequence of several bytes: how many bytes
    follow it, and the bounds of the second byte. The bounds exclude
    overlong forms, surrogates and characters beyond U+10FFFF. *)
Definition utf8_lead (c : ascii) : option (nat * N * N) :=
  let n := N_of_ascii c in
  if ((194 <=? n) && (n <=? 223))%N then Some (1, 128%N, 191%N)
  else if (n =? 224)%N then Some (2, 160%N, 191%N)
  else if (n =? 237)%N then Some (2, 128%N, 159%N)
  else if ((225 <=? n) && (n <=? 239))%N then Some (2, 128%N, 191%N)
  else if (n =? 240)%N then Some (3, 144%N, 191%N)
  else if (n =? 244)%N then Some (3, 128%N, 143%N)
  else if ((241 <=? n) && (n <=? 243))%N then Some (3, 128%N, 191%N)
  else None.

(** [s.length]: the UTF-16 code units of the text. A character of one,
    two or three bytes is one unit; a character of four bytes is a
    surrogate pair, two units. Bytes that are not UTF-8 count as the
    decoder of [Buffer.toString("utf-8")] replaces them: one U+FFFD, one
    unit, for a byte that starts no sequence and for each sequence that
    breaks off. *)
Fixpoint length_utf16 (s : string) : nat :=
  match s with
  | EmptyString => 0
  | String c1 r1 =>
      match utf8_lead c1, r1 with
      | Some (needed, lo, hi), String c2 r2 =>
          if in_range lo hi c2 then
            match needed, r2 with
            | 1, _ => S (length_utf16 r2)
            | _, String c3 r3 =>
                if is_continuation c3 then
                  match needed, r3 with
                  | 2, _ => S (length_utf16 r3)
                  | _, String c4 r4 =>
                      if is_continuation c4 then S (S (length_utf16 r4))
                      else S (length_utf16 r3)
                  | _, EmptyString => 1
                  end
                else S (length_utf16 r2)
            | _, EmptyString => 1
            end
          else S (length_utf16 r1)
      | _, _ => S (length_utf16 r1)
      end
  end.

(** White space and line terminators of JavaScript, as UTF-8 sequences of
    one, two and three bytes: TAB, LF, VT, FF, CR, SP; U+00A0; U+1680,
    U+2000 to U+200A, U+2028, U+2029, U+202F, U+205F, U+3000 and U+FEFF. *)
Definition is_space1 (a : ascii) : bool :=
  let n := N_of_ascii a in
  ((9 <=? n) && (n <=? 13) || (n =? 32))%N.

Definition is_space2 (a b : ascii) : bool :=
  ((N_of_ascii a =? 194) && (N_of_ascii b =? 160))%N.

Definition is_space3 (a b c : ascii) : bool :=
  let x := N_of_ascii a in
  let y := N_of_ascii b in
  let z := N_of_ascii c in
  ((x =? 225) && (y =? 154) && (z =? 128)
   || (x =? 226) && (y =? 128)
      && ((128 <=? z) && (z <=? 138) || (z =? 168) || (z =? 169) || (z =? 175))
   || (x =? 226) && (y =? 129) && (z =? 159)
   || (x =? 227) && (y =? 128) && (z =? 128)
   || (x =? 239) && (y =? 187) && (z =? 191))%N.

(** Drop the white space at the head of [s]; with [backwards], [s] is a
    reversed text and the sequences are read in reverse. *)
Fixpoint strip_spaces (backwards : bool) (s : string) : string :=
  match s with
  | EmptyString => EmptyString
  | String c1 r1 =>
      if is_space1 c1 then strip_spaces backwards r1
      else
        match r1 with
        | EmptyString => s
        | String c2 r2 =>
            if (if backwards then is_space2 c2 c1 else is_space2 c1 c2)
            then strip_spaces backwards r2
            else
              match r2 with
              | EmptyString => s
              | String c3 r3 =>
                  if (if backwards then is_space3 c3 c2 c1 else is_space3 c1 c2 c3)
                  then strip_spaces backwards r3
                  else s
              end
        end
  end.

Fixpoint reverse (acc s : string) : string :=
  match s with
  | EmptyString => acc
  | String c s' => reverse (String c acc) s'
  end.

Definition trimStart (s : string) : string := strip_spaces false s.

Definition trimEnd (s : string) : string :=
  reverse EmptyString (strip_spaces true (reverse EmptyString s)).

(** [s.trim()] *)
Definition trim (s : string) : string := trimEnd (trimStart s).

(** [s.split(",")[1]]: the text between the first and the second comma,
    [undefined] when there is no comma. *)
Fixpoint until_comma (s : string) : string :=
  match s with
  | EmptyString => EmptyString
  | String c s' => if Ascii.eqb c "," then EmptyString else String c (until_comma s')
  end.

Fixpoint split_comma_1 (s : string) : jsval :=
  match s with
  | EmptyString => JUndefined
  | String c s' => if Ascii.eqb c "," then JStr (until_comma s') else split_comma_1 s'
  end.

(** [\w] *)
Definition is_word (c : ascii) : bool :=
  let n := N_of_ascii c in
  ((48 <=? n) && (n <=? 57) || (65 <=? n) && (n <=? 90)
   || (97 <=? n) && (n <=? 122) || (n =? 95))%N.

Fixpoint skip_word (s : string) : string :=
  match s with
  | String c s' => if is_word c then skip_word s' else s
  | EmptyString => EmptyString
  end.

Fixpoint strip_prefix (p s : string) : option string :=
  match p, s with
  | EmptyString, _ => Some s
  | String a p', String b s' => if Ascii.eqb a b then strip_prefix p' s' else None
  | String _ _, EmptyString => None
  end.

(** [s.replace(/^data:image\/\w+;base64,/, "")]. [;] is not a word
    character, so the only run of [\w+] that can be followed by [;base64,]
    is the longest one. *)
Definition strip_data_uri (s : string) : string :=
  match strip_prefix "data:image/" s with
  | Some (String c r) =>
      if is_word c then
        match strip_prefix ";base64," (skip_word r) with
        | Some rest => rest
        | None => s
        end
      else s
  | _ => s
  end.

Definition string_of_Z (n : Z) : string := NilZero.string_of_int (Z.to_int n).

(** The multiple of [10 ^ (m - k)] nearest to the double [v] among those
    that round to [v], if there is one; [m] is the number of decimal digits
    of [v]. Of two that are equally near, the one with the even last digit. *)
Definition nearest_decimal (v : Z) (m k : nat) : option Z :=
  let p := (10 ^ Z.of_nat (m - k))%Z in
  let lo := (v / p * p)%Z in
  let hi := (lo + p)%Z in
  let ok_lo := (to_double lo =? v)%Z in
  let ok_hi := (to_double hi =? v)%Z in
  if ok_lo && ok_hi then
    if (v - lo <? hi - v)%Z then Some lo
    else if (hi - v <? v - lo)%Z then Some hi
    else if Z.even (lo / p) then Some lo else Some hi
  else if ok_lo then Some lo
  else if ok_hi then Some hi
  else None.

(** The decimal with the fewest significant digits, [k] or more, that
    rounds to the double [v]. Seventeen digits tell any two doubles
    apart. *)
Fixpoint shortest_decimal (fuel : nat) (v : Z) (m k : nat) : Z :=
  match fuel with
  | O => v
  | S fuel' =>
      match nearest_decimal v m k with
      | Some c => c
      | None => shortest_decimal fuel' v m (S k)
      end
  end.

Fixpoint drop_zeros (backwards : string) : string :=
  match backwards with
  | String "0" s' => drop_zeros s'
  | _ => backwards
  end.

(** [d.ddde+x] for the digits [ds] of a decimal of [n] digits. *)
Definition exponential (ds : string) (n : nat) : string :=
  match reverse EmptyString (drop_zeros (reverse EmptyString ds)) with
  | String d EmptyString => String d ("e+" +:+ string_of_Z (Z.of_nat (n - 1)))
  | String d rest => String d ("." +:+ rest +:+ "e+" +:+ string_of_Z (Z.of_nat (n - 1)))
  | EmptyString => ds
  end.

(** [String(x)] for the number that the integer [x] stands for, the double
    nearest to it: the shortest decimal that rounds to that double, written
    in full up to 21 digits and with an exponent beyond. *)
Definition Number_toString (x : Z) : string :=
  let v := Z.abs (to_double x) in
  let sign := if (x <? 0)%Z then "-" else "" in
  if (v =? 0)%Z then "0"
  else if (2 ^ 1024 <=? v)%Z then sign +:+ "Infinity"
  else
    let m := String.length (string_of_Z v) in
    let digits := string_of_Z (shortest_decimal 17 v m 1) in
    let n := String.length digits in
    sign +:+ (if (n <=? 21)%nat then digits else exponential digits n).

(** [String(v)], as [new Error(v)] and template literals apply it. An
    object that carries its own [toString] key (not callable, since it came
    from JSON) cannot be converted: [None] stands for the [TypeError]. *)
Fixpoint to_string (v : jsval) : option string :=
  match v with
  | JUndefined => Some "undefined"
  | JNull => Some "null"
  | JBool true => Some "true"
  | JBool false => Some "false"
  | JNum n => Some (Number_toString n)
  | JStr s => Some s
  | JArr items =>
      (fix join (l : list jsval) : option string :=
         match l with
         | [] => Some ""
         | x :: rest =>
             let item :=
               match x with
               | JUndefined | JNull => Some ""
               | _ => to_string x
               end in
             match item, rest with
             | None, _ => None
             | Some a, [] => Some a
             | Some a, _ :: _ =>
                 match join rest with
                 | Some b => Some (a +:+ "," +:+ b)
                 | None => None
                 end
             end
         end) items
  | JObj fs => if has_field "toString" fs then None else Some "[object Object]"
  end.

(** ** Base64, as [Buffer.toString("base64")] produces it (RFC 4648 with
    padding), and its inverse. *)

Definition b64_alphabet : string :=
  "ABCDEFGHIJKLMNOPQRSTUVWXYZabcdefghijklmnopqrstuvwxyz0123456789+/".

Definition b64_digit (n : N) : ascii :=
  match String.get (N.to_nat n) b64_alphabet with
  | Some c => c
  | None => "="%char
  end.

Definition b64_value (c : ascii) : option N :=
  let n := N_of_ascii c in
  if ((65 <=? n) && (n <=? 90))%N then Some (n - 65)%N
  else if ((97 <=? n) && (n <=? 122))%N then Some (n - 71)%N
  else if ((48 <=? n) && (n <=? 57))%N then Some (n + 4)%N
  else if (n =? 43)%N then Some 62%N
  else if (n =? 47)%N then Some 63%N
  else None.

Definition byte_of_N (n : N) : byte :=
  match Byte.of_N (n mod 256) with
  | Some b => b
  | None => x00
  end.

Fixpoint base64 (bs : list byte) : string :=
  match bs with
  | [] => ""
  | [a] =>
      let x := Byte.to_N a in
      String (b64_digit (x / 4))
        (String (b64_digit (x mod 4 * 16)) "==")
  | [a; b] =>
      let x := Byte.to_N a in
      let y := Byte.to_N b in
      String (b64_digit (x / 4))
        (String (b64_digit (x mod 4 * 16 + y / 16))
           (String (b64_digit (y mod 16 * 4)) "="))
  | a :: b :: c :: rest =>
      let x := Byte.to_N a in
      let y := Byte.to_N b in
      let z := Byte.to_N c in
      String (b64_digit (x / 4))
        (String (b64_digit (x mod 4 * 16 + y / 16))
           (String (b64_digit (y mod 16 * 4 + z / 64))
              (String (b64_digit (z mod 64)) (base64 rest))))
  end.

Fixpoint base64_decode (s : string) : option (list byte) :=
  match s with
  | EmptyString => Some []
  | String c1 (String c2 (String c3 (String c4 rest))) =>
      match b64_value c1, b64_value c2 with
      | Some v1, Some v2 =>
          let b1 := byte_of_N (v1 * 4 + v2 / 16) in
          if Ascii.eqb c3 "=" then
            if Ascii.eqb c4 "=" && String.eqb rest "" then Some [b1] else None
          else
            match b64_value c3 with
            | Some v3 =>
                let b2 := byte_of_N (v2 mod 16 * 16 + v3 / 4) in
                if Ascii.eqb c4 "=" then
                  if String.eqb rest "" then Some [b1; b2] else None
                else
                  match b64_value c4, base64_decode rest with
                  | Some v4, Some tl =>
                      Some (b1 :: b2 :: byte_of_N (v3 mod 4 * 64 + v4) :: tl)
                  | _, _ => None
                  end
            | None => None
            end
      | _, _ => None
      end
  | _ => None
  end.

(** The check that a digit of the alphabet decodes to its index and is
    neither the padding character nor a colon. *)
Definition b64_digit_ok (n : N) : bool :=
  match b64_value (b64_digit n) with
  | Some m => (m =? n)%N
  | None => false
  end
  && negb (Ascii.eqb (b64_digit n) "=")
  && negb (Ascii.eqb (b64_digit n) ":").

(** The characters of an encoding: digits of the alphabet and [=], never
    a colon. *)
Fixpoint no_colon (s : string) : bool :=
  match s with
  | EmptyString => true
  | String c s' => negb (Ascii.eqb c ":") && no_colon s'
  end.

(** ** Replies, errors and effects *)

(** What an HTTP reply can carry as [data]. *)
Inductive payload : Type :=
| Buf (bytes : list byte)      (* a Node [Buffer] *)
| ArrBuf (bytes : list byte)   (* an [ArrayBuffer] *)
| U8Arr (bytes : list byte)    (* a [Uint8Array] that is not a [Buffer] *)
| Val (v : jsval).             (* a string or any other value *)

Record http_response : Type :=
  { resp_status : Z; resp_data : payload }.

(** A thrown error: [error.message] and, for a rejected request that got
    an answer, [error.response]. *)
Record js_error : Type :=
  { err_message : string; err_response : option http_response }.

Definition Error (m : string) : js_error :=
  {| err_message := m; err_response := None |}.

Inductive result (A : Type) : Type :=
| Ok (a : A)
| Throw (e : js_error).
Arguments Ok {A} a.
Arguments Throw {A} e.

(** [new Error(v)] for a value [v]; converting [v] may itself throw. *)
Definition new_Error (v : jsval) : js_error :=
  match v with
  | JUndefined => Error ""
  | _ =>
      match to_string v with
      | Some s => Error s
      | None => Error "Cannot convert object to primitive value"
      end
  end.

(** [v.k] for the property names the handler reads ([id], [status],
    [urls], [get], [output], [error], [message], [images], [image],
    [length]). *)
Definition get (v : jsval) (k : string) : result jsval :=
  match v with
  | JUndefined =>
      Throw (Error ("Cannot read properties of undefined (reading '" +:+ k +:+ "')"))
  | JNull =>
      Throw (Error ("Cannot read properties of null (reading '" +:+ k +:+ "')"))
  | JObj fs => Ok (lookup_field k fs)
  | JArr items =>
      Ok (if String.eqb k "length" then JNum (Z.of_nat (length items)) else JUndefined)
  | JStr s =>
      Ok (if String.eqb k "length" then JNum (Z.of_nat (length_utf16 s)) else JUndefined)
  | JBool _ | JNum _ => Ok JUndefined
  end.

Inductive parse_result : Type :=
| Parsed (v : jsval)
| SyntaxError (msg : string).

Inductive outcome (A : Type) : Type :=
| Resolved (a : A)
| Rejected (e : js_error).
Arguments Resolved {A} a.
Arguments Rejected {A} e.

(** The upstream service, as the handler sees it through axios. *)
Record upstream : Type :=
  { (* axios.post(REPLICATE_ENDPOINT, {input: {prompt}}, ...): [data] of a
       2xx reply, or the rejection *)
    post : jsval -> outcome payload;
    (* the n-th axios.get(predictionUrl): [data] of the reply *)
    poll : jsval -> nat -> outcome jsval;
    (* axios.get(url, {responseType: "arraybuffer"}) *)
    fetch : string -> outcome (list byte) }.

Record process_env : Type :=
  { env_HF_TOKEN : jsval; env_HUGGING_FACE_TOKEN : jsval }.

Inductive event : Type :=
| FindById (id : jsval)
| Post (prompt : jsval)
| Poll (url : jsval) (attempt : nat)
| Fetch (url : string)
| Save (id : string) (balance : Z).

Record world : Type :=
  { accounts : gmap string Z;   (* persisted creditBalance of each account *)
    trace : list event }.

Record user : Type :=
  { user_id : string; user_creditBalance : Z }.

Record request : Type :=
  { userId : jsval; prompt : jsval }.

Record response : Type :=
  { status : Z;
    success : bool;
    message : string;
    creditBalance : option Z;
    resultImage : option string }.

(** ** The monad of the handler: state and exceptions *)

Definition M (A : Type) : Type := world -> result A * world.

Definition ret {A} (a : A) : M A := fun w => (Ok a, w).

Definition throw {A} (e : js_error) : M A := fun w => (Throw e, w).

Definition bind {A B} (m : M A) (k : A -> M B) : M B :=
  fun w =>
    match m w with
    | (Ok a, w') => k a w'
    | (Throw e, w') => (Throw e, w')
    end.

Definition lift {A} (r : result A) : M A := fun w => (r, w).

Definition emit (e : event) : M unit :=
  fun w => (Ok tt, {| accounts := accounts w; trace := trace w ++ [e] |}).

(** [try { m } catch (e) { h e }] *)
Definition try_catch {A} (m : M A) (h : js_error -> M A) : M A :=
  fun w =>
    match m w with
    | (Ok a, w') => (Ok a, w')
    | (Throw e, w') => h e w'
    end.

Declare Scope js_scope.
Delimit Scope js_scope with js.
Notation "x <- m ;; k" := (bind m (fun x => k))
  (at level 100, m at next level, right associativity) : js_scope.
Notation "m ;;; k" := (bind m (fun _ => k))
  (at level 100, right associativity) : js_scope.
Local Open Scope js_scope.

Definition REPLICATE_ENDPOINT : string :=
  "https://router.huggingface.co/replicate/v1/models/stability-ai/stable-diffusion-3.5-large/predictions".

Definition maxAttempts : nat := 30.

Definition is_http (s : string) : bool :=
  startsWith s "http://" || startsWith s "https://".

Definition transient (st : jsval) : bool :=
  str_is st "starting" || str_is st "processing".

Definition terminal (st : jsval) : bool :=
  str_is st "succeeded" || str_is st "failed".

(** Modelled from the spec: the account model (models/userModel.js) is not
    among the sources. [findById] resolves a caller id to the account or to
    nothing; ids are strings. *)
Definition findById (id : jsval) : M (option user) :=
  emit (FindById id) ;;;
  fun w =>
    (Ok match id with
        | JStr s =>
            match accounts w !! s with
            | Some b => Some {| user_id := s; user_creditBalance := b |}
            | None => None
            end
        | _ => None
        end, w).

(** Modelled from the spec: [user.save()] persists the account record. *)
Definition save (u : user) : M unit :=
  fun w =>
    (Ok tt,
     {| accounts := <[user_id u := user_creditBalance u]> (accounts w);
        trace := trace w ++ [Save (user_id u) (user_creditBalance u)] |}).

(** ** The handler *)

(** [responseText.trim().startsWith("{") || responseText.trim().startsWith("[")] *)
Definition looks_like_json (responseText : string) : bool :=
  startsWith (trim responseText) "{" || startsWith (trim responseText) "[".

Inductive branch : Type :=
| BinaryData       (* Buffer, ArrayBuffer or Uint8Array *)
| JsonString       (* "Case 2: Response is JSON string" *)
| Base64String     (* "Case 3: Response is already a base64 string" *)
| LastResort.      (* "Case 4: Last resort" *)

(** The conditions of the [if / else if] chain over [responseData], in the
    order of the source. *)
Definition select_branch (responseData : payload) : branch :=
  match responseData with
  | Buf _ | ArrBuf _ | U8Arr _ => BinaryData
  | Val v =>
      if is_string v then JsonString
      else if is_string v
              && match v with
                 | JStr s => (100 <? length_utf16 s)%nat
                 | _ => false
                 end
      then Base64String
      else LastResort
  end.

Section Handler.

(** [JSON.parse] *)
Variable JSON_parse : string -> parse_result.
(** [Buffer.from(v)] for a value that is neither bytes nor a string;
    the error message when it throws. *)
Variable Buffer_from : jsval -> list byte + string.
Variable env : process_env.
Variable net : upstream.

Definition HF_TOKEN : jsval :=
  js_or (env_HF_TOKEN env) (env_HUGGING_FACE_TOKEN env).

Definition parse (text : string) : M jsval :=
  match JSON_parse text with
  | Parsed v => ret v
  | SyntaxError msg => throw (Error msg)
  end.

(** [Buffer.from((await axios.get(url, ...)).data).toString("base64")] *)
Definition fetch_base64 (url : string) : M jsval :=
  emit (Fetch url) ;;;
  match fetch net url with
  | Resolved bytes => ret (JStr (base64 bytes))
  | Rejected e => throw e
  end.

(** [jsonData.urls?.get || `${REPLICATE_ENDPOINT}/${predictionId}`] *)
Definition predictionUrl (jsonData : jsval) : result jsval :=
  match get jsonData "id", get jsonData "urls" with
  | Ok predictionId, Ok urls =>
      match (match urls with
             | JUndefined | JNull => Ok JUndefined
             | _ => get urls "get"
             end) with
      | Ok urls_get =>
          if truthy urls_get then Ok urls_get
          else
            match to_string predictionId with
            | Some s => Ok (JStr (REPLICATE_ENDPOINT +:+ "/" +:+ s))
            | None => Throw (Error "Cannot convert object to primitive value")
            end
      | Throw e => Throw e
      end
  | Throw e, _ => Throw e
  | _, Throw e => Throw e
  end.

(** The polling loop. [remaining] is [maxAttempts - attempts]; the loop
    condition reads [finalPrediction.status] only while attempts are
    left. Inside the body the reply replaces [finalPrediction] before
    its status is read, and whatever the body throws is swallowed. *)
Fixpoint poll_loop (remaining : nat) (url : jsval) (attempts : nat)
         (finalPrediction : jsval) : M jsval :=
  match remaining with
  | O => ret finalPrediction
  | S remaining' =>
      st <- lift (get finalPrediction "status") ;;
      if transient st then
        let attempts := S attempts in
        emit (Poll url attempts) ;;;
        match poll net url attempts with
        | Resolved data =>
            match get data "status" with
            | Ok st' =>
                if terminal st' then ret data
                else poll_loop remaining' url attempts data
            | Throw _ => poll_loop remaining' url attempts data
            end
        | Rejected _ => poll_loop remaining' url attempts finalPrediction
        end
      else ret finalPrediction
  end.

(** Lines 113-164 and 301-352: poll a pending prediction and copy the
    final status, output and error into [jsonData]. *)
Definition await_prediction (jsonData : jsval) : M jsval :=
  st <- lift (get jsonData "status") ;;
  if transient st then
    url <- lift (predictionUrl jsonData) ;;
    finalPrediction <- poll_loop maxAttempts url 0 jsonData ;;
    st' <- lift (get finalPrediction "status") ;;
    out <- lift (get finalPrediction "output") ;;
    err <- lift (get finalPrediction "error") ;;
    ret (set_prop (set_prop (set_prop jsonData "status" st') "output" out) "error" err)
  else ret jsonData.

Definition prediction_failure (jsonData : jsval) (st : jsval) : M jsval :=
  if str_is st "failed" then
    err <- lift (get jsonData "error") ;;
    throw (new_Error (js_or err (JStr "Image generation failed")))
  else if str_is st "processing" || str_is st "starting" then
    match to_string st with
    | Some s =>
        throw (Error ("Image generation is still processing after polling. Status: " +:+ s))
    | None => throw (Error "Cannot convert object to primitive value")
    end
  else
    match to_string st with
    | Some s => throw (Error ("Unexpected prediction status: " +:+ s))
    | None => throw (Error "Cannot convert object to primitive value")
    end.

(** Lines 166-243: the output of a prediction, binary branch. *)
Definition prediction_image_binary (jsonData : jsval) : M jsval :=
  st <- lift (get jsonData "status") ;;
  output <- lift (get jsonData "output") ;;
  if str_is st "succeeded" && truthy output then
    if is_array output && truthy (first_item output) then
      match first_item output with
      | JStr o =>
          if is_http o then fetch_base64 o
          else if startsWith o "data:" then ret (split_comma_1 o)
          else if (100 <? length_utf16 o)%nat then ret (JStr o)
          else throw (Error "Prediction succeeded but no valid image output found")
      | _ => throw (Error "Prediction succeeded but no valid image output found")
      end
    else
      match output with
      | JStr o =>
          if is_http o then fetch_base64 o
          else ret (if startsWith o "data:" then split_comma_1 o else JStr o)
      | _ => throw (Error "Prediction succeeded but output format is unexpected")
      end
  else prediction_failure jsonData st.

(** Lines 354-396: the output of a prediction, string branch. *)
Definition prediction_image_text (jsonData : jsval) : M jsval :=
  st <- lift (get jsonData "status") ;;
  output <- lift (get jsonData "output") ;;
  if str_is st "succeeded" && truthy output then
    match (if is_array output then first_item output else output) with
    | JStr o =>
        if is_http o then fetch_base64 o
        else ret (if startsWith o "data:" then split_comma_1 o else JStr o)
    | _ => throw (Error "Prediction output format is unexpected")
    end
  else prediction_failure jsonData st.

(** What both branches do with a parsed reply that is not a prediction
    and not an error object; [otherwise] is the last [else]. *)
Definition embedded_image (jsonData : jsval) (otherwise : M jsval) : M jsval :=
  images <- lift (get jsonData "images") ;;
  if truthy images && is_array images && truthy (first_item images) then
    ret (first_item images)
  else
    image <- lift (get jsonData "image") ;;
    if truthy image then ret image else otherwise.

(** Lines 102-268, after [JSON.parse]. *)
Definition json_image_binary (raw : list byte) (jsonData : jsval) : M jsval :=
  id <- lift (get jsonData "id") ;;
  st <- lift (get jsonData "status") ;;
  if truthy id && truthy st then
    jsonData' <- await_prediction jsonData ;;
    prediction_image_binary jsonData'
  else
    err <- lift (get jsonData "error") ;;
    msg <- lift (get jsonData "message") ;;
    if truthy err || truthy msg then
      throw (new_Error (js_or err (js_or msg (JStr "Replicate API returned an error"))))
    else embedded_image jsonData (ret (JStr (base64 raw))).

(** Lines 89-287: the reply is a buffer. *)
Definition binary_image (raw : list byte) : M jsval :=
  try_catch
    (let responseText := string_of_list_byte raw in
     if looks_like_json responseText then
       jsonData <- parse responseText ;;
       json_image_binary raw jsonData
     else ret (JStr (base64 raw)))
    (fun parseError =>
       if includes (err_message parseError) "processing"
          || includes (err_message parseError) "Status:"
       then throw parseError
       else ret (JStr (base64 raw))).

(** Lines 289-421: the reply is a string. The [catch] rethrows. *)
Definition text_image (responseData : string) : M jsval :=
  jsonData <- parse responseData ;;
  id <- lift (get jsonData "id") ;;
  st <- lift (get jsonData "status") ;;
  if truthy id && truthy st then
    jsonData' <- await_prediction jsonData ;;
    prediction_image_text jsonData'
  else
    err <- lift (get jsonData "error") ;;
    msg <- lift (get jsonData "message") ;;
    if truthy err || truthy msg then
      throw (new_Error (js_or err (js_or msg (JStr "API returned an error"))))
    else
      embedded_image jsonData
        (throw (Error "No image data found in JSON response")).

(** Lines 88-431: [imageBase64] from [hfResponse.data]. *)
Definition extract_image (responseData : payload) : M jsval :=
  match select_branch responseData, responseData with
  | BinaryData, (Buf raw | ArrBuf raw | U8Arr raw) => binary_image raw
  | JsonString, Val (JStr s) => text_image s
  | Base64String, Val (JStr s) => ret (JStr (strip_data_uri s))
  | _, Val v =>
      match Buffer_from v with
      | inl bytes => ret (JStr (base64 bytes))
      | inr msg => throw (Error msg)
      end
  | _, (Buf raw | ArrBuf raw | U8Arr raw) => ret (JStr (base64 raw))
  end.

Definition failure (code : Z) (msg : string) : response :=
  {| status := code; success := false; message := msg;
     creditBalance := None; resultImage := None |}.

(** [!imageBase64 || imageBase64.length === 0] *)
Definition no_image (imageBase64 : jsval) : bool :=
  negb (truthy imageBase64)
  || match get imageBase64 "length" with
     | Ok (JNum 0) => true
     | _ => false
     end.

(** The [try] block. *)
Definition generateImage_try (req : request) : M response :=
  if negb (truthy (userId req)) || negb (truthy (prompt req)) then
    ret (failure 400 "Missing userId or prompt.")
  else
    found <- findById (userId req) ;;
    match found with
    | None => ret (failure 404 "User not found.")
    | Some u =>
        if (user_creditBalance u <=? 0)%Z then
          ret {| status := 403; success := false;
                 message := "No Credit Balance";
                 creditBalance := Some (user_creditBalance u);
                 resultImage := None |}
        else if negb (truthy HF_TOKEN) then
          ret (failure 500
                 "Hugging Face API token not configured. Please check HF_TOKEN environment variable.")
        else
          emit (Post (prompt req)) ;;;
          match post net (prompt req) with
          | Rejected e => throw e
          | Resolved responseData =>
              imageBase64 <- extract_image responseData ;;
              if no_image imageBase64 then
                ret (failure 500 "No image data returned from Hugging Face API.")
              else
                match imageBase64 with
                | JStr b64 =>
                    let cleanBase64 := strip_data_uri b64 in
                    let resultImage := "data:image/png;base64," +:+ cleanBase64 in
                    let u' := {| user_id := user_id u;
                                 user_creditBalance :=
                                   Math_max 0 (number_sub (user_creditBalance u) 1) |} in
                    save u' ;;;
                    ret {| status := 200; success := true;
                           message := "Image generated successfully";
                           creditBalance := Some (user_creditBalance u');
                           resultImage := Some resultImage |}
                | _ => throw (Error "imageBase64.replace is not a function")
                end
          end
    end.

(** [errorJson.error || errorJson.message || errorMessage]; [None] when
    reading the properties throws. *)
Definition error_of (errorJson errorMessage : jsval) : option jsval :=
  match get errorJson "error", get errorJson "message" with
  | Ok e, Ok m => Some (js_or e (js_or m errorMessage))
  | _, _ => None
  end.

(** The [catch] block. *)
Definition generateImage_catch (error : js_error) : response :=
  let errorMessage := js_or (JStr (err_message error)) (JStr "Image generation failed") in
  let errorMessage :=
    match err_response error with
    | None => errorMessage
    | Some r =>
        match resp_data r with
        | Buf b | ArrBuf b =>
            match JSON_parse (string_of_list_byte b) with
            | Parsed errorJson =>
                match error_of errorJson errorMessage with
                | Some m => m
                | None => errorMessage
                end
            | SyntaxError _ => errorMessage
            end
        | U8Arr _ => errorMessage
        | Val (JStr s) =>
            match JSON_parse s with
            | Parsed errorJson =>
                match error_of errorJson errorMessage with
                | Some m => m
                | None => js_or (JStr s) errorMessage
                end
            | SyntaxError _ => js_or (JStr s) errorMessage
            end
        | Val (JObj fs) =>
            js_or (lookup_field "error" fs) (js_or (lookup_field "message" fs) errorMessage)
        | Val (JArr _) => errorMessage
        | Val _ => errorMessage
        end
    end in
  {| status := match err_response error with
               | Some r => if (resp_status r =? 0)%Z then 500 else resp_status r
               | None => 500
               end;
     success := false;
     message := match errorMessage with
                | JStr s => s
                | _ => "Image generation failed"
                end;
     creditBalance := None;
     resultImage := None |}.

Definition generateImage (req : request) (w : world) : response * world :=
  match generateImage_try req w with
  | (Ok res, w') => (res, w')
  | (Throw error, w') => (generateImage_catch error, w')
  end.

End Handler.

(** ** A concrete runtime, for running the handler on explicit inputs

    [MiniJSON.parse] reads JSON as [JSON.parse] of V8 does, and words a
    refusal as V8 12 (Node 22) words it. A later binding of a repeated key
    replaces the earlier one. Two kinds of text have a value that is
    outside the values of the model, and are refused as [OutsideModel]: a
    number that is not an integer once rounded to a double, and an escape
    of a surrogate that has no partner. *)

Module MiniJSON.

Definition dquote : ascii := ascii_of_nat 34.
Definition backslash : ascii := ascii_of_nat 92.
Definition CR : ascii := ascii_of_nat 13.
Definition LF : ascii := ascii_of_nat 10.

(** Why parsing stops. *)
Inductive problem : Type :=
| UnexpectedToken
| ExpectedPropNameOrRBrace
| ExpectedCommaOrRBrack
| ExpectedCommaOrRBrace
| ExpectedColonAfterPropertyName
| ExpectedDoubleQuotedPropertyName
| UnterminatedString
| BadControlCharacter
| BadUnicodeEscape
| BadEscapedCharacter
| NoNumberAfterMinusSign
| ExponentPartMissingNumber
| UnterminatedFractionalNumber
| UnexpectedNonWhiteSpaceCharacter
| OutsideModel.

(** What was read and the text after it, or the problem and the text at
    the cursor. *)
Inductive scan (A : Type) : Type :=
| Scanned (a : A) (rest : string)
| Stopped (p : problem) (cursor : string).
Arguments Scanned {A} a rest.
Arguments Stopped {A} p cursor.

Definition is_ws (c : ascii) : bool :=
  let n := N_of_ascii c in
  ((n =? 32) || (n =? 9) || (n =? 10) || (n =? 13))%N.

Fixpoint skip_ws (s : string) : string :=
  match s with
  | String c s' => if is_ws c then skip_ws s' else s
  | EmptyString => EmptyString
  end.

Definition is_digit (c : ascii) : bool := in_range 48 57 c.

(** *** Strings *)

Definition unescape (c : ascii) : option ascii :=
  let n := N_of_ascii c in
  if (n =? 34)%N || (n =? 92)%N || (n =? 47)%N then Some c
  else if (n =? 98)%N then Some (ascii_of_nat 8)
  else if (n =? 102)%N then Some (ascii_of_nat 12)
  else if (n =? 110)%N then Some (ascii_of_nat 10)
  else if (n =? 114)%N then Some (ascii_of_nat 13)
  else if (n =? 116)%N then Some (ascii_of_nat 9)
  else None.

Definition hex_value (c : ascii) : option N :=
  let n := N_of_ascii c in
  if in_range 48 57 c then Some (n - 48)%N
  else if in_range 97 102 c then Some (n - 87)%N
  else if in_range 65 70 c then Some (n - 55)%N
  else None.

(** [count] hexadecimal digits. *)
Fixpoint read_hex (count : nat) (acc : N) (s : string) : scan N :=
  match count with
  | O => Scanned acc s
  | S count' =>
      match s with
      | String h r =>
          match hex_value h with
          | Some d => read_hex count' (16 * acc + d)%N r
          | None => Stopped BadUnicodeEscape s
          end
      | EmptyString => Stopped BadUnicodeEscape s
      end
  end.

(** The UTF-8 bytes of a character. *)
Definition utf8_encode (cp : N) : string :=
  let b (n : N) := String (ascii_of_N n) EmptyString in
  (if cp <? 128 then b cp
   else if cp <? 2048 then b (192 + cp / 64) +:+ b (128 + cp mod 64)
   else if cp <? 65536 then
     b (224 + cp / 4096) +:+ b (128 + cp / 64 mod 64) +:+ b (128 + cp mod 64)
   else
     b (240 + cp / 262144) +:+ b (128 + cp / 4096 mod 64)
     +:+ b (128 + cp / 64 mod 64) +:+ b (128 + cp mod 64))%N.

(** The text after [\u]: a code unit, and the second half of a surrogate
    pair when the unit is the first half. *)
Definition read_unicode (s : string) : scan string :=
  match read_hex 4 0 s with
  | Stopped p cursor => Stopped p cursor
  | Scanned u r =>
      if ((55296 <=? u) && (u <? 56320))%N then
        match r with
        | String b (String "u" r1) =>
            if Ascii.eqb b backslash then
              match read_hex 4 0 r1 with
              | Scanned lo r2 =>
                  if ((56320 <=? lo) && (lo <? 57344))%N
                  then Scanned (utf8_encode (65536 + (u - 55296) * 1024 + (lo - 56320))%N) r2
                  else Stopped OutsideModel s
              | Stopped _ _ => Stopped OutsideModel s
              end
            else Stopped OutsideModel s
        | _ => Stopped OutsideModel s
        end
      else if ((56320 <=? u) && (u <? 57344))%N then Stopped OutsideModel s
      else Scanned (utf8_encode u) r
  end.

(** The characters of a string literal after its opening quote. *)
Fixpoint read_string (fuel : nat) (s : string) : scan string :=
  match fuel with
  | O => Stopped OutsideModel s
  | S fuel' =>
      match s with
      | EmptyString => Stopped UnterminatedString s
      | String c s' =>
          if Ascii.eqb c dquote then Scanned EmptyString s'
          else if Ascii.eqb c backslash then
            match s' with
            | EmptyString => Stopped BadEscapedCharacter s'
            | String e s'' =>
                match (if Ascii.eqb e "u" then read_unicode s''
                       else match unescape e with
                            | Some c' => Scanned (String c' EmptyString) s''
                            | None => Stopped BadEscapedCharacter s'
                            end) with
                | Scanned bytes r =>
                    match read_string fuel' r with
                    | Scanned body rest => Scanned (bytes +:+ body) rest
                    | Stopped p cursor => Stopped p cursor
                    end
                | Stopped p cursor => Stopped p cursor
                end
            end
          else if (N_of_ascii c <? 32)%N then Stopped BadControlCharacter s
          else
            match read_string fuel' s' with
            | Scanned body rest => Scanned (String c body) rest
            | Stopped p cursor => Stopped p cursor
            end
      end
  end.

(** *** Numbers *)

(** Decimal digits: their value on top of [acc], how many, and the rest. *)
Fixpoint read_digits (acc : Z) (count : Z) (s : string) : Z * Z * string :=
  match s with
  | String c s' =>
      if is_digit c
      then read_digits (10 * acc + Z.of_N (N_of_ascii c) - 48)%Z (count + 1)%Z s'
      else (acc, count, s)
  | EmptyString => (acc, count, s)
  end.

(** The double nearest to [num / den], both positive, when it is an
    integer. Below [2 ^ -1022] doubles are [2 ^ -1074] apart. *)
Definition round_rational (num den : Z) : option Z :=
  let l0 := (Z.log2 num - Z.log2 den)%Z in
  let reaches :=
    if (0 <=? l0)%Z then (den * 2 ^ l0 <=? num)%Z
    else (den <=? num * 2 ^ (- l0))%Z in
  let l := if reaches then l0 else (l0 - 1)%Z in
  let e := Z.max (l - 52) (-1074) in
  let n' := if (0 <=? e)%Z then num else (num * 2 ^ (- e))%Z in
  let d' := if (0 <=? e)%Z then (den * 2 ^ e)%Z else den in
  let q := (n' / d')%Z in
  let r := (n' mod d')%Z in
  let q' := if (2 * r <? d')%Z then q
            else if (d' <? 2 * r)%Z then (q + 1)%Z
            else if Z.even q then q else (q + 1)%Z in
  if (0 <=? e)%Z then Some (q' * 2 ^ e)%Z
  else if (q' mod 2 ^ (- e) =? 0)%Z then Some (q' / 2 ^ (- e))%Z
  else None.

(** The number [mantissa * 10 ^ exponent], as a double. Beyond [10 ^ 400]
    it is infinite, below [10 ^ -330] it is zero. *)
Definition number_of (negative : bool) (mantissa digits exponent : Z) : option Z :=
  let sign := if negative then (-1)%Z else 1%Z in
  if (mantissa =? 0)%Z then Some 0%Z
  else if (0 <=? exponent)%Z
  then Some (sign * to_double (mantissa * 10 ^ Z.min exponent 400))%Z
  else if (digits + exponent <? -330)%Z then Some 0%Z
  else
    match round_rational mantissa (10 ^ (- exponent)) with
    | Some v => Some (sign * v)%Z
    | None => None
    end.

Definition finish_number (s : string) (negative : bool)
           (mantissa digits exponent : Z) (rest : string) : scan jsval :=
  match number_of negative mantissa digits exponent with
  | Some v => Scanned (JNum v) rest
  | None => Stopped OutsideModel s
  end.

(** A number, from its first character. After a leading [0] no digit may
    follow; a [.] and an [e] must be followed by a digit. *)
Definition read_number (s : string) : scan jsval :=
  let negative := match s with String "-" _ => true | _ => false end in
  let s1 := match s with String "-" r => r | _ => s end in
  let integer :=
    match s1 with
    | String c r1 =>
        if Ascii.eqb c "0" then
          match r1 with
          | String d _ =>
              if is_digit d then Stopped UnexpectedToken r1 else Scanned (0%Z, 1%Z) r1
          | EmptyString => Scanned (0%Z, 1%Z) r1
          end
        else if is_digit c then
          let '(i, n, r2) := read_digits 0 0 s1 in Scanned (i, n) r2
        else Stopped NoNumberAfterMinusSign s1
    | EmptyString => Stopped NoNumberAfterMinusSign s1
    end in
  match integer with
  | Stopped p cursor => Stopped p cursor
  | Scanned (i, n) r =>
      let fraction :=
        match r with
        | String "." r1 =>
            match r1 with
            | String d _ =>
                if is_digit d then
                  let '(m, k, r2) := read_digits i 0 r1 in Scanned (m, (n + k)%Z, k) r2
                else Stopped UnterminatedFractionalNumber r1
            | EmptyString => Stopped UnterminatedFractionalNumber r1
            end
        | _ => Scanned (i, n, 0%Z) r
        end in
      match fraction with
      | Stopped p cursor => Stopped p cursor
      | Scanned (m, digits, k) r =>
          match r with
          | String e r1 =>
              if Ascii.eqb e "e" || Ascii.eqb e "E" then
                let minus := match r1 with String "-" _ => true | _ => false end in
                let r2 := match r1 with
                          | String "-" x | String "+" x => x
                          | _ => r1
                          end in
                match r2 with
                | String d _ =>
                    if is_digit d then
                      let '(x, _, r3) := read_digits 0 0 r2 in
                      finish_number s negative m digits
                        ((if minus then - x else x) - k)%Z r3
                    else Stopped ExponentPartMissingNumber r2
                | EmptyString => Stopped ExponentPartMissingNumber r2
                end
              else finish_number s negative m digits (- k)%Z r
          | EmptyString => finish_number s negative m digits (- k)%Z r
          end
      end
  end.

(** *** Literals *)

(** Where a text stops agreeing with a literal. *)
Fixpoint literal_mismatch (lit s : string) : string :=
  match lit, s with
  | String a lit', String b s' => if Ascii.eqb a b then literal_mismatch lit' s' else s
  | _, _ => s
  end.

Definition read_literal (lit : string) (v : jsval) (s : string) : scan jsval :=
  match strip_prefix lit s with
  | Some rest => Scanned v rest
  | None => Stopped UnexpectedToken (literal_mismatch lit s)
  end.

(** *** Values *)

Fixpoint value (fuel : nat) (s : string) {struct fuel} : scan jsval :=
  match fuel with
  | O => Stopped OutsideModel s
  | S fuel' =>
      match skip_ws s with
      | EmptyString => Stopped UnexpectedToken EmptyString
      | String c r =>
          if Ascii.eqb c "{" then
            match skip_ws r with
            | String "}" r' => Scanned (JObj []) r'
            | r1 => members fuel' ExpectedPropNameOrRBrace [] r1
            end
          else if Ascii.eqb c "[" then
            match skip_ws r with
            | String "]" r' => Scanned (JArr []) r'
            | r1 => items fuel' [] r1
            end
          else if Ascii.eqb c dquote then
            match read_string fuel' r with
            | Scanned body rest => Scanned (JStr body) rest
            | Stopped p cursor => Stopped p cursor
            end
          else if Ascii.eqb c "-" || is_digit c then read_number (String c r)
          else if Ascii.eqb c "t" then read_literal "true" (JBool true) (String c r)
          else if Ascii.eqb c "f" then read_literal "false" (JBool false) (String c r)
          else if Ascii.eqb c "n" then read_literal "null" JNull (String c r)
          else Stopped UnexpectedToken (String c r)
      end
  end
with items (fuel : nat) (acc : list jsval) (s : string) {struct fuel}
     : scan jsval :=
  match fuel with
  | O => Stopped OutsideModel s
  | S fuel' =>
      match value fuel' s with
      | Scanned v r =>
          match skip_ws r with
          | String "," r' => items fuel' (acc ++ [v]) r'
          | String "]" r' => Scanned (JArr (acc ++ [v])) r'
          | cursor => Stopped ExpectedCommaOrRBrack cursor
          end
      | Stopped p cursor => Stopped p cursor
      end
  end
with members (fuel : nat) (expected : problem) (acc : list (string * jsval))
             (s : string) {struct fuel} : scan jsval :=
  match fuel with
  | O => Stopped OutsideModel s
  | S fuel' =>
      match skip_ws s with
      | String c r =>
          if Ascii.eqb c dquote then
            match read_string fuel' r with
            | Scanned key r1 =>
                match skip_ws r1 with
                | String ":" r2 =>
                    match value fuel' r2 with
                    | Scanned v r3 =>
                        match skip_ws r3 with
                        | String "," r4 =>
                            members fuel' ExpectedDoubleQuotedPropertyName
                              (set_field key v acc) r4
                        | String "}" r4 => Scanned (JObj (set_field key v acc)) r4
                        | cursor => Stopped ExpectedCommaOrRBrace cursor
                        end
                    | Stopped p cursor => Stopped p cursor
                    end
                | cursor => Stopped ExpectedColonAfterPropertyName cursor
                end
            | Stopped p cursor => Stopped p cursor
            end
          else Stopped expected (String c r)
      | EmptyString => Stopped expected EmptyString
      end
  end.

(** *** The words of a refusal *)

(** The first character of a text: its bytes and the text after it. *)
Definition first_char (s : string) : string * string :=
  match s with
  | EmptyString => (EmptyString, EmptyString)
  | String c1 r1 =>
      let one := (String c1 EmptyString, r1) in
      match utf8_lead c1, r1 with
      | Some (needed, lo, hi), String c2 r2 =>
          if in_range lo hi c2 then
            match needed, r2 with
            | 1, _ => (String c1 (String c2 EmptyString), r2)
            | _, String c3 r3 =>
                if is_continuation c3 then
                  match needed, r3 with
                  | 2, _ => (String c1 (String c2 (String c3 EmptyString)), r3)
                  | _, String c4 r4 =>
                      if is_continuation c4
                      then (String c1 (String c2 (String c3 (String c4 EmptyString))), r4)
                      else (String c1 (String c2 (String c3 EmptyString)), r3)
                  | _, EmptyString => (String c1 (String c2 (String c3 EmptyString)), r3)
                  end
                else (String c1 (String c2 EmptyString), r2)
            | _, EmptyString => (String c1 (String c2 EmptyString), r2)
            end
          else one
      | _, _ => one
      end
  end.

(** Drop or keep characters while they start within the first [units]
    UTF-16 units. *)
Fixpoint drop_units (fuel units : nat) (s : string) : string :=
  match fuel, units, s with
  | S fuel', S _, String _ _ =>
      let (c, rest) := first_char s in
      drop_units fuel' (units - length_utf16 c) rest
  | _, _, _ => s
  end.

Fixpoint take_units (fuel units : nat) (s : string) : string :=
  match fuel, units, s with
  | S fuel', S _, String _ _ =>
      let (c, rest) := first_char s in
      c +:+ take_units fuel' (units - length_utf16 c) rest
  | _, _, _ => EmptyString
  end.

(** [s.substring(from, to)] *)
Definition substring (from to : nat) (s : string) : string :=
  let n := String.length s in
  take_units n (to - from) (drop_units n from s).

Fixpoint take_bytes (n : nat) (s : string) : string :=
  match n, s with
  | S n', String c s' => String c (take_bytes n' s')
  | _, _ => EmptyString
  end.

(** The line of the end of a text and the text of that line; a line ends
    with CR LF, CR or LF. *)
Fixpoint locate (s : string) (line : nat) (start : string) : nat * string :=
  match s with
  | EmptyString => (line, start)
  | String c r =>
      if Ascii.eqb c CR then
        match r with
        | String c' r' =>
            if Ascii.eqb c' LF then locate r' (S line) r' else locate r (S line) r
        | EmptyString => (S line, r)
        end
      else if Ascii.eqb c LF then locate r (S line) r
      else locate r line start
  end.

Definition decimal (n : nat) : string := string_of_Z (Z.of_nat n).

(** [ at position p (line l column c)] for the cursor in the text. *)
Definition position (text cursor : string) : string :=
  let before := take_bytes (String.length text - String.length cursor) text in
  let (line, start) := locate before 1 before in
  " at position " +:+ decimal (length_utf16 before)
  +:+ " (line " +:+ decimal line
  +:+ " column " +:+ decimal (S (length_utf16 start)) +:+ ")".

Definition place (text cursor : string) : string :=
  " in JSON" +:+ position text cursor.

Definition quoted (s : string) : string :=
  String dquote (s +:+ String dquote EmptyString).

Definition is_special (text : string) : bool :=
  String.eqb text "[object Object]" || String.eqb text "undefined"
  || String.eqb text "Infinity" || String.eqb text "NaN".

Definition context : nat := 10.

(** The refusal of a token: the end of the text, a number, a string, or
    else the character with the text around it. *)
Definition unexpected (text cursor : string) : string :=
  match cursor with
  | EmptyString => "Unexpected end of JSON input"
  | String c _ =>
      if Ascii.eqb c "-" || is_digit c then
        "Unexpected number" +:+ place text cursor
      else if Ascii.eqb c dquote then
        "Unexpected string" +:+ place text cursor
      else if is_special text then quoted text +:+ " is not valid JSON"
      else
        let n := length_utf16 text in
        let pos := n - length_utf16 cursor in
        let token := "Unexpected token '" +:+ fst (first_char cursor) +:+ "', " in
        if (n <? 2 * context + 1)%nat then
          token +:+ quoted text +:+ " is not valid JSON"
        else if (pos <? context)%nat then
          token +:+ quoted (substring 0 (pos + context) text)
          +:+ "... is not valid JSON"
        else if (pos <? n - context)%nat then
          token +:+ "..." +:+ quoted (substring (pos - context) (pos + context) text)
          +:+ "... is not valid JSON"
        else
          token +:+ "..." +:+ quoted (substring (pos - context) n text)
          +:+ " is not valid JSON"
  end.

Definition words (text : string) (p : problem) (cursor : string) : string :=
  match p with
  | UnexpectedToken => unexpected text cursor
  | ExpectedPropNameOrRBrace =>
      "Expected property name or '}'" +:+ place text cursor
  | ExpectedCommaOrRBrack =>
      "Expected ',' or ']' after array element" +:+ place text cursor
  | ExpectedCommaOrRBrace =>
      "Expected ',' or '}' after property value" +:+ place text cursor
  | ExpectedColonAfterPropertyName =>
      "Expected ':' after property name" +:+ place text cursor
  | ExpectedDoubleQuotedPropertyName =>
      "Expected double-quoted property name" +:+ place text cursor
  | UnterminatedString => "Unterminated string" +:+ place text cursor
  | BadControlCharacter =>
      "Bad control character in string literal" +:+ place text cursor
  | BadUnicodeEscape => "Bad Unicode escape" +:+ place text cursor
  | BadEscapedCharacter => "Bad escaped character" +:+ place text cursor
  | NoNumberAfterMinusSign => "No number after minus sign" +:+ place text cursor
  | ExponentPartMissingNumber =>
      "Exponent part is missing a number" +:+ place text cursor
  | UnterminatedFractionalNumber =>
      "Unterminated fractional number" +:+ place text cursor
  | UnexpectedNonWhiteSpaceCharacter =>
      "Unexpected non-whitespace character after JSON" +:+ position text cursor
  | OutsideModel => "A value outside the model" +:+ place text cursor
  end.

Definition parse (text : string) : parse_result :=
  match value (2 * String.length text + 2) text with
  | Scanned v rest =>
      match skip_ws rest with
      | EmptyString => Parsed v
      | cursor => SyntaxError (words text UnexpectedNonWhiteSpaceCharacter cursor)
      end
  | Stopped p cursor => SyntaxError (words text p cursor)
  end.

(** JSON text written with ['] for the double quote. *)
Fixpoint text (s : string) : string :=
  match s with
  | EmptyString => EmptyString
  | String c s' => String (if Ascii.eqb c "'" then dquote else c) (text s')
  end.

End MiniJSON.

(** The part of [Buffer.from] that the examples below need, for a value
    that is neither bytes nor a string: an array of numbers gives their low
    eight bits, anything else is refused. *)
Definition buffer_from_value (v : jsval) : list byte + string :=
  match v with
  | JArr l =>
      inl (map (fun x => match x with
                         | JNum n =>
                             if (2 ^ 1024 <=? Z.abs (to_double n))%Z then x00
                             else byte_of_N (Z.to_N (to_double n mod 256))
                         | _ => x00
                         end) l)
  | _ => inr "The first argument must be of type string or an instance of Buffer, ArrayBuffer, or Array or an Array-like Object."
  end.

(** ** Effects of the handler's parts *)

Definition is_save (e : event) : bool :=
  match e with Save _ _ => true | _ => false end.

Definition is_poll (e : event) : bool :=
  match e with Poll _ _ => true | _ => false end.

Definition is_upstream (e : event) : bool :=
  match e with Post _ | Poll _ _ | Fetch _ => true | _ => false end.

Definition is_fetch (e : event) : bool :=
  match e with Fetch _ => true | _ => false end.

(** Polls and secondary fetches: what extraction may do. *)
Definition is_retrieval (e : event) : bool :=
  match e with Poll _ _ | Fetch _ => true | _ => false end.

Definition count (P : event -> bool) (t : list event) : nat :=
  length (filter (fun e => P e = true) t).

(** [m] leaves the accounts as they are and extends the trace by events
    that satisfy [P]. *)
Definition extends_with {A} (P : event -> bool) (m : M A) : Prop :=
  forall w,
    accounts (snd (m w)) = accounts w
    /\ exists evs, trace (snd (m w)) = trace w ++ evs /\ forallb P evs = true.


(** [m] extends the trace by at most [n] polls. *)
Definition polls_within {A} (n : nat) (m : M A) : Prop :=
  forall w,
  exists evs, trace (snd (m w)) = trace w ++ evs /\ count is_poll evs <= n.

(** ** Vocabulary of the statements *)

(** The events a run added to the trace. *)
Definition added (w w' : world) (evs : list event) : Prop :=
  trace w' = trace w ++ evs.

(** The request passes validation and the credit check: the caller id
    resolves to an account whose balance is positive. *)
Definition admitted (req : request) (w : world) (uid : string) (balance : Z) : Prop :=
  userId req = JStr uid
  /\ truthy (userId req) = true
  /\ truthy (prompt req) = true
  /\ accounts w !! uid = Some balance
  /\ (0 < balance)%Z.

(** The world once the account was looked up and the request posted. *)
Definition posted (req : request) (w : world) : world :=
  {| accounts := accounts w;
     trace := (trace w ++ [FindById (userId req)]) ++ [Post (prompt req)] |}.

Definition looked_up (req : request) (w : world) : world :=
  {| accounts := accounts w; trace := trace w ++ [FindById (userId req)] |}.

(** The world after the debit of account [uid] to [balance] was saved. *)
Definition debited (uid : string) (balance : Z) (w : world) : world :=
  {| accounts := <[uid := balance]> (accounts w);
     trace := trace w ++ [Save uid balance] |}.

Definition succeeded (balance : Z) (image : string) : response :=
  {| status := 200; success := true;
     message := "Image generated successfully";
     creditBalance := Some balance;
     resultImage := Some image |}.

(** The balance that line 455 stores for an account of balance [b]:
    [Math.max(0, b - 1)]. *)
Definition debit (b : Z) : Z := Math_max 0 (number_sub b 1).

(** The largest balance from which the subtraction of line 455 is exact. *)
Definition MAX_SAFE_BALANCE : Z := 2 ^ 53.

(** What the handler does with the image that extraction returned, for the
    account [uid] of balance [b]. *)
Definition settle (JSON_parse : string -> parse_result) (uid : string) (b : Z)
           (imageBase64 : jsval) (w : world) : response * world :=
  if no_image imageBase64 then
    (failure 500 "No image data returned from Hugging Face API.", w)
  else
    match imageBase64 with
    | JStr b64 =>
        (succeeded (debit b)
           ("data:image/png;base64," +:+ strip_data_uri b64),
         debited uid (debit b) w)
    | _ =>
        (generateImage_catch JSON_parse
           (Error "imageBase64.replace is not a function"), w)
    end.

(** The base64 payload of the image of a response: what follows the
    [data:image/png;base64,] prefix of [resultImage]. *)
Definition payload_of (res : response) : option string :=
  match resultImage res with
  | Some image => strip_prefix "data:image/png;base64," image
  | None => None
  end.

(** The bytes of a reply that is a buffer. *)
Definition bytes_of (d : payload) : option (list byte) :=
  match d with
  | Buf raw | ArrBuf raw | U8Arr raw => Some raw
  | Val _ => None
  end.


(** The reply [d] is the JSON text of [j], delivered as bytes or as a
    string. *)
Definition json_reply (JSON_parse : string -> parse_result) (d : payload) (j : jsval) : Prop :=
  match d with
  | Buf raw | ArrBuf raw | U8Arr raw =>
      looks_like_json (string_of_list_byte raw) = true
      /\ JSON_parse (string_of_list_byte raw) = Parsed j
  | Val (JStr s) => JSON_parse s = Parsed j
  | Val _ => False
  end.

(** A poll attempt that leaves the prediction pending: the request failed,
    or the reply carries the status [starting] or [processing]. *)
Definition stays_pending (o : outcome jsval) : Prop :=
  match o with
  | Rejected _ => True
  | Resolved data => exists st, get data "status" = Ok st /\ transient st = true
  end.

(** A poll attempt whose reply carries the status [succeeded] or [failed]. *)
Definition reaches_terminal (o : outcome jsval) : Prop :=
  match o with
  | Rejected _ => False
  | Resolved data => exists st, get data "status" = Ok st /\ terminal st = true
  end.

(** The poll attempts [1 .. k] on [url]. *)
Definition polls (url : jsval) (k : nat) : list event :=
  map (Poll url) (seq 1 k).

(** The world after the poll attempts [a+1 .. a+n] on [url]. *)
Definition polled (url : jsval) (a n : nat) (w : world) : world :=
  {| accounts := accounts w;
     trace := trace w ++ map (Poll url) (seq (S a) n) |}.

Definition still_processing : string :=
  "Image generation is still processing after polling. Status: ".

(** ** Concrete inputs *)

Module Sample.

(** One account, [u1], with the given balance; nothing has happened yet. *)
Definition ledger (balance : Z) : world :=
  {| accounts := {[ "u1" := balance ]}; trace := [] |}.

Definition configured : process_env :=
  {| env_HF_TOKEN := JStr "hf_secret"; env_HUGGING_FACE_TOKEN := JUndefined |}.

Definition unconfigured : process_env :=
  {| env_HF_TOKEN := JUndefined; env_HUGGING_FACE_TOKEN := JUndefined |}.

Definition ask (p : string) : request :=
  {| userId := JStr "u1"; prompt := JStr p |}.

(** An upstream that answers the POST with [d], the n-th poll with
    [polls n], and refuses secondary fetches. *)
Definition upstream_of (d : payload) (polls : nat -> outcome jsval) : upstream :=
  {| post := fun _ => Resolved d;
     poll := fun _ n => polls n;
     fetch := fun _ => Rejected (Error "Network Error") |}.

Definition offline : nat -> outcome jsval :=
  fun _ => Rejected (Error "Network Error").

Definition replying (d : payload) : upstream := upstream_of d offline.

(** The eight bytes of the PNG signature. *)
Definition png : list byte := [x89; x50; x4e; x47; x0d; x0a; x1a; x0a].

Definition bytes (text : string) : list byte := list_byte_of_string text.

Definition run (e : process_env) (n : upstream) (req : request) (w : world)
  : response * world :=
  generateImage MiniJSON.parse buffer_from_value e n req w.

(** A prediction that is created [starting]; the first poll fails, the
    second finds it [processing], the third finds it [succeeded]. *)
Definition pending_text : string :=
  MiniJSON.text "{'id':'p1','status':'starting'}".

Definition pending_url : jsval := JStr (REPLICATE_ENDPOINT +:+ "/p1").

Definition third_time (n : nat) : outcome jsval :=
  match n with
  | 1 => Rejected (Error "timeout of 10000ms exceeded")
  | 2 => Resolved (JObj [("id", JStr "p1"); ("status", JStr "processing")])
  | _ => Resolved (JObj [("id", JStr "p1"); ("status", JStr "succeeded");
                         ("output", JArr [JStr "data:image/png;base64,QUJD"])])
  end.

(** A prediction that has succeeded, and the same object without its id. *)
Definition succeeded_text : string :=
  MiniJSON.text
    "{'id':'p1','status':'succeeded','output':['data:image/png;base64,QUJD']}".

Definition succeeded_text_no_id : string :=
  MiniJSON.text "{'status':'succeeded','output':['data:image/png;base64,QUJD']}".

Definition error_text : string := MiniJSON.text "{'error':'model overloaded'}".

(** A prediction that the upstream reports as failed. *)
Definition failed_text : string :=
  MiniJSON.text "{'id':'p1','status':'failed','error':'NSFW content detected'}".

(** A prediction that has succeeded and whose image is to be fetched. *)
Definition remote_text : string :=
  MiniJSON.text "{'id':'p1','status':'succeeded','output':['https://cdn.example/out.png']}".

(** A text of more than a hundred base64 characters that is not JSON. *)
Definition long_base64 : string :=
  "iVBORw0KGgoAAAANSUhEUgAAAAEAAAABCAYAAAAfFcSJAAAADUlEQVR42mNkYPhfDwAChwGA60e6kgAAAABJRU5ErkJgggAAAAAAAAAAAAA=".

End Sample.

(** ** Vocabulary of the further properties *)

(** The response of a denied request. *)
Definition denied (balance : Z) : response :=
  {| status := 403; success := false; message := "No Credit Balance";
     creditBalance := Some balance; resultImage := None |}.

Definition token_missing : response :=
  failure 500
    "Hugging Face API token not configured. Please check HF_TOKEN environment variable.".

(** [m] has no effect at all. *)
Definition silent {A} (m : M A) : Prop := forall w, snd (m w) = w.

(** [m] issues at most one secondary fetch and nothing else. *)
Definition fetches_once {A} (m : M A) : Prop :=
  forall w,
    accounts (snd (m w)) = accounts w
    /\ exists fs, trace (snd (m w)) = trace w ++ fs
                  /\ (fs = [] \/ exists u, fs = [Fetch u]).

(** [m] polls, attempts [1 .. k] of one URL with [k <= maxAttempts], then
    fetches at most once, and does nothing else. *)
Definition polls_then_fetches {A} (m : M A) : Prop :=
  forall w,
    accounts (snd (m w)) = accounts w
    /\ exists url k fs,
         k <= maxAttempts
         /\ trace (snd (m w)) = trace w ++ polls url k ++ fs
         /\ (fs = [] \/ exists u, fs = [Fetch u]).

(** The effects of a whole run: nothing; the account lookup; or the lookup,
    the POST, the polls of one URL numbered from 1, at most one fetch and
    at most one save, in this order. *)
Definition pipeline (req : request) (evs : list event) : Prop :=
  evs = []
  \/ evs = [FindById (userId req)]
  \/ exists url k fs saves,
       evs = [FindById (userId req); Post (prompt req)]
             ++ polls url k ++ fs ++ saves
       /\ k <= maxAttempts
       /\ (fs = [] \/ exists u, fs = [Fetch u])
       /\ (saves = [] \/ exists uid b, saves = [Save uid b]).

(** The reply [d] is the JSON text of an object that is neither a
    prediction nor an error object. *)
Definition plain_json_reply (JSON_parse : string -> parse_result) (d : payload)
           (fs : list (string * jsval)) : Prop :=
  json_reply JSON_parse d (JObj fs)
  /\ truthy (lookup_field "id" fs) && truthy (lookup_field "status" fs) = false
  /\ truthy (lookup_field "error" fs) = false
  /\ truthy (lookup_field "message" fs) = false.

(** The reply [d] is the JSON text of a prediction whose status [st] is
    not pending. *)
Definition settled_prediction (JSON_parse : string -> parse_result) (d : payload)
           (fs : list (string * jsval)) (st : jsval) : Prop :=
  json_reply JSON_parse d (JObj fs)
  /\ truthy (lookup_field "id" fs) = true
  /\ lookup_field "status" fs = st
  /\ truthy st = true
  /\ transient st = false.

(** Word characters only, and at least one. *)
Fixpoint is_word_run (s : string) : bool :=
  match s with
  | EmptyString => false
  | String c EmptyString => is_word c
  | String c s' => is_word c && is_word_run s'
  end.

(** The image a parsed reply embeds: the first element of [images] when
    that is an array with a truthy first element, else a truthy [image]. *)
Definition embedded (fs : list (string * jsval)) : option jsval :=
  let images := lookup_field "images" fs in
  if truthy images && is_array images && truthy (first_item images)
  then Some (first_item images)
  else if truthy (lookup_field "image" fs) then Some (lookup_field "image" fs)
  else None.

(** The world after one secondary fetch. *)
Definition fetched (url : string) (w : world) : world :=
  {| accounts := accounts w; trace := trace w ++ [Fetch url] |}.

(** The URL under which a prediction is polled: the [get] entry of the
    [urls] of the reply when there is a truthy one, else
    [REPLICATE_ENDPOINT/<id>] with the id written as text. There is none
    when the id cannot be written as text. *)
Definition status_url (fs : list (string * jsval)) : option jsval :=
  let supplied :=
    match lookup_field "urls" fs with
    | JObj urls => lookup_field "get" urls
    | _ => JUndefined
    end in
  if truthy supplied then Some supplied
  else
    match to_string (lookup_field "id" fs) with
    | Some id => Some (JStr (REPLICATE_ENDPOINT +:+ "/" +:+ id))
    | None => None
    end.

(** ** The client: the application context (AppContext.jsx)

    The provider keeps [user], [showLogin], [token] and [credit] as state
    and the token in local storage as well. The backend is what axios
    returns for the two requests the context makes. A state setter takes
    effect after the function that calls it; [generateImage] starts the
    reload of the credits without awaiting it, so the state it is given
    here is the one reached once that reload has settled. *)

Module Client.

Record state : Type :=
  { user : jsval;
    showLogin : bool;
    token : jsval;
    credit : jsval;
    stored_token : jsval }.   (* localStorage.getItem("token") *)

Inductive sent : Type :=
| GetCredits (token : jsval)                 (* GET /api/user/credits *)
| PostGenerate (prompt : jsval) (token : jsval). (* POST /api/image/generate-image *)

Record backend : Type :=
  { credits : jsval -> outcome jsval;
    generate : jsval -> jsval -> outcome jsval }.

Definition is_get_credits (e : sent) : bool :=
  match e with GetCredits _ => true | PostGenerate _ _ => false end.

Section Context.

Variable api : backend.

(** The state change of [loadCreditsData], once its request has settled. *)
Definition loadCreditsData (st : state) : state :=
  match credits api (token st) with
  | Resolved data =>
      match get data "success", get data "credits", get data "user" with
      | Ok ok, Ok c, Ok u =>
          if truthy ok
          then {| user := u; showLogin := showLogin st; token := token st;
                  credit := c; stored_token := stored_token st |}
          else st
      | _, _, _ => st
      end
  | Rejected _ => st
  end.

(** [prompt.trim() === ""]; [None] when [prompt] has no [trim]. *)
Definition is_blank (prompt : jsval) : option bool :=
  match prompt with
  | JStr s => Some (String.eqb (trim s) "")
  | _ => None
  end.

(** The value [generateImage] resolves to, the requests it makes, and the
    state afterwards. *)
Definition generateImage (st : state) (prompt : jsval)
  : jsval * list sent * state :=
  if negb (truthy (token st)) then (JNull, [], st)
  else if negb (truthy prompt) then (JNull, [], st)
  else
    match is_blank prompt with
    | None => (JNull, [], st)          (* TypeError, caught *)
    | Some true => (JNull, [], st)
    | Some false =>
        match generate api prompt (token st) with
        | Resolved data =>
            match get data "success" with
            | Ok ok =>
                if truthy ok then
                  match get data "resultImage" with
                  | Ok image =>
                      if truthy image then
                        (image,
                         [PostGenerate prompt (token st); GetCredits (token st)],
                         loadCreditsData st)
                      else (JNull, [PostGenerate prompt (token st)], st)
                  | Throw _ => (JNull, [PostGenerate prompt (token st)], st)
                  end
                else (JNull, [PostGenerate prompt (token st)], st)
            | Throw _ => (JNull, [PostGenerate prompt (token st)], st)
            end
        | Rejected _ => (JNull, [PostGenerate prompt (token st)], st)
        end
    end.

End Context.

Definition logout (st : state) : state :=
  {| user := JNull; showLogin := showLogin st; token := JStr "";
     credit := credit st; stored_token := JNull |}.

(** A signed-in user with five credits on display. *)
Definition signed_in : state :=
  {| user := JObj [("name", JStr "Ada")]; showLogin := false;
     token := JStr "jwt"; credit := JNum 5; stored_token := JStr "jwt" |}.

(** A backend that answers every generation with the given body and every
    credits request with four credits. *)
Definition answering (body : jsval) : backend :=
  {| credits := fun _ =>
       Resolved (JObj [("success", JBool true); ("credits", JNum 4);
                       ("user", JObj [("name", JStr "Ada")])]);
     generate := fun _ _ => Resolved body |}.

End Client.
(** * Properties *)

(** ** Sanity checks of the runtime model *)

Example base64_ABC : base64 [x41; x42; x43] = "QUJD".
Proof. reflexivity. Qed.

Example base64_pad : base64 [x4d; x61] = "TWE=" /\ base64 [x4d] = "TQ==".
Proof. split; reflexivity. Qed.

Example strip_png : strip_data_uri "data:image/png;base64,QUJD" = "QUJD".
Proof. reflexivity. Qed.

Example strip_plain : strip_data_uri "QUJD" = "QUJD".
Proof. reflexivity. Qed.

Example trim_both : trim "  { x }  " = "{ x }" /\ trim "   " = "".
Proof. split; reflexivity. Qed.

(** A no-break space (C2 A0) and a byte order mark (EF BB BF) are trimmed. *)
Example trim_unicode :
  trim (String (ascii_of_nat 194) (String (ascii_of_nat 160)
          (String (ascii_of_nat 239) (String (ascii_of_nat 187)
             (String (ascii_of_nat 191) "[1]")))))
  = "[1]".
Proof. reflexivity. Qed.

Example parse_error_object :
  MiniJSON.parse (MiniJSON.text "{'error':'model overloaded'}")
  = Parsed (JObj [("error", JStr "model overloaded")]).
Proof. reflexivity. Qed.

Example parse_nested :
  MiniJSON.parse (MiniJSON.text " {'id': 'p1', 'n': [1, -20, true, null], 'urls': {'get': 'u'}} ")
  = Parsed (JObj [("id", JStr "p1");
                  ("n", JArr [JNum 1; JNum (-20); JBool true; JNull]);
                  ("urls", JObj [("get", JStr "u")])]).
Proof. reflexivity. Qed.

Example parse_numbers :
  MiniJSON.parse "[1.0, 12.5e1, -0, 9007199254740993, 3.0000000000000001]"
  = Parsed (JArr [JNum 1; JNum 125; JNum 0; JNum 9007199254740992; JNum 3]).
Proof. vm_compute. reflexivity. Qed.

(** A refusal quotes the text around the unexpected character. *)
Example parse_rejects :
  MiniJSON.parse "iVBORw0KGgo"
  = SyntaxError ("Unexpected token 'i', " +:+ MiniJSON.quoted "iVBORw0KGgo"
                 +:+ " is not valid JSON")
  /\ MiniJSON.parse "[processing]"
     = SyntaxError ("Unexpected token 'p', " +:+ MiniJSON.quoted "[processing]"
                    +:+ " is not valid JSON")
  /\ MiniJSON.parse "<html>Bad Gateway</html>"
     = SyntaxError ("Unexpected token '<', " +:+ MiniJSON.quoted "<html>Bad "
                    +:+ "... is not valid JSON")
  /\ MiniJSON.parse "{"
     = SyntaxError "Expected property name or '}' in JSON at position 1 (line 1 column 2)".
Proof. vm_compute. repeat split. Qed.

Example number_text :
  Number_toString 7 = "7"
  /\ Number_toString (2 ^ 60) = "1152921504606847000"
  /\ Number_toString (10 ^ 21) = "1e+21"
  /\ Number_toString (- 2 ^ 70) = "-1.1805916207174113e+21".
Proof. vm_compute. repeat split. Qed.

(** Two bytes, three bytes and four bytes: one, one and two units. *)
Example length_of_text :
  length_utf16 "abc" = 3
  /\ length_utf16 (MiniJSON.utf8_encode 233) = 1
  /\ length_utf16 (MiniJSON.utf8_encode 8364) = 1
  /\ length_utf16 (MiniJSON.utf8_encode 128512) = 2.
Proof. vm_compute. repeat split. Qed.

(** ** Frame lemmas *)

Section Frame.

Context {A B : Type} (P : event -> bool).

Lemma extends_ret (a : A) : extends_with P (ret a).
Proof. intros w; split; [reflexivity|]. exists []. now rewrite app_nil_r. Qed.

Lemma extends_throw (e : js_error) : extends_with P (@throw A e).
Proof. intros w; split; [reflexivity|]. exists []. now rewrite app_nil_r. Qed.

Lemma extends_lift (r : result A) : extends_with P (lift r).
Proof. intros w; split; [reflexivity|]. exists []. now rewrite app_nil_r. Qed.

Lemma extends_emit (e : event) : P e = true -> extends_with P (emit e).
Proof.
  intros He w; split; [reflexivity|]. exists [e]; split; [reflexivity|].
  simpl. now rewrite He.
Qed.

Lemma extends_bind (m : M A) (k : A -> M B) :
  extends_with P m -> (forall a, extends_with P (k a)) ->
  extends_with P (bind m k).
Proof.
  intros Hm Hk w. unfold bind.
  destruct (Hm w) as [Ha [evs [Ht Hp]]].
  destruct (m w) as [[a|e] w1]; simpl in *.
  - destruct (Hk a w1) as [Ha' [evs' [Ht' Hp']]].
    split; [congruence|]. exists (evs ++ evs'). split.
    + rewrite Ht', Ht. now rewrite <- app_assoc.
    + rewrite forallb_app, Hp, Hp'. reflexivity.
  - split; [assumption|]. now exists evs.
Qed.

Lemma extends_try (m : M A) (h : js_error -> M A) :
  extends_with P m -> (forall e, extends_with P (h e)) ->
  extends_with P (try_catch m h).
Proof.
  intros Hm Hh w. unfold try_catch.
  destruct (Hm w) as [Ha [evs [Ht Hp]]].
  destruct (m w) as [[a|e] w1]; simpl in *.
  - split; [assumption|]. now exists evs.
  - destruct (Hh e w1) as [Ha' [evs' [Ht' Hp']]].
    split; [congruence|]. exists (evs ++ evs'). split.
    + rewrite Ht', Ht. now rewrite <- app_assoc.
    + rewrite forallb_app, Hp, Hp'. reflexivity.
Qed.

End Frame.

Ltac frame_step :=
  match goal with
  | |- extends_with _ (ret _) => apply extends_ret
  | |- extends_with _ (throw _) => apply extends_throw
  | |- extends_with _ (lift _) => apply extends_lift
  | |- extends_with _ (emit _) => apply extends_emit; reflexivity
  | |- extends_with _ (bind _ _) => apply extends_bind; [| intros ?]
  | |- extends_with _ (try_catch _ _) => apply extends_try; [| intros ?]
  | |- extends_with _ (if ?b then _ else _) => destruct b
  | |- extends_with _ (match ?x with _ => _ end) => destruct x
  | |- extends_with _ (let _ := _ in _) => cbv zeta
  end.

Ltac frame := repeat frame_step.

Section HandlerEffects.

Variable JSON_parse : string -> parse_result.
Variable Buffer_from : jsval -> list byte + string.
Variable env : process_env.
Variable net : upstream.

Lemma parse_extends text : extends_with is_retrieval (parse JSON_parse text).
Proof. unfold parse. frame. Qed.

Lemma fetch_base64_extends url :
  extends_with is_retrieval (fetch_base64 net url).
Proof. unfold fetch_base64. frame. Qed.

Lemma poll_loop_extends remaining url attempts fp :
  extends_with is_retrieval (poll_loop net remaining url attempts fp).
Proof.
  revert attempts fp.
  induction remaining as [|r IH]; intros attempts fp; simpl.
  - frame.
  - frame; apply IH.
Qed.

Lemma await_prediction_extends j :
  extends_with is_retrieval (await_prediction net j).
Proof.
  unfold await_prediction.
  frame; auto using poll_loop_extends.
Qed.

Lemma prediction_failure_extends j st :
  extends_with is_retrieval (prediction_failure j st).
Proof. unfold prediction_failure. frame. Qed.

Lemma prediction_image_binary_extends j :
  extends_with is_retrieval (prediction_image_binary net j).
Proof.
  unfold prediction_image_binary.
  frame; auto using fetch_base64_extends, prediction_failure_extends.
Qed.

Lemma prediction_image_text_extends j :
  extends_with is_retrieval (prediction_image_text net j).
Proof.
  unfold prediction_image_text.
  frame; auto using fetch_base64_extends, prediction_failure_extends.
Qed.

Lemma embedded_image_extends j other :
  extends_with is_retrieval other ->
  extends_with is_retrieval (embedded_image j other).
Proof. intros H. unfold embedded_image. frame; assumption. Qed.

Lemma json_image_binary_extends raw j :
  extends_with is_retrieval (json_image_binary net raw j).
Proof.
  unfold json_image_binary.
  frame; auto using await_prediction_extends, prediction_image_binary_extends.
  all: apply embedded_image_extends; frame.
Qed.

Lemma binary_image_extends raw :
  extends_with is_retrieval (binary_image JSON_parse net raw).
Proof.
  unfold binary_image.
  frame; auto using parse_extends, json_image_binary_extends.
Qed.

Lemma text_image_extends s :
  extends_with is_retrieval (text_image JSON_parse net s).
Proof.
  unfold text_image.
  frame; auto using parse_extends, await_prediction_extends,
           prediction_image_text_extends.
  all: apply embedded_image_extends; frame.
Qed.

Lemma extract_image_extends d :
  extends_with is_retrieval (extract_image JSON_parse Buffer_from net d).
Proof.
  unfold extract_image.
  frame; auto using binary_image_extends, text_image_extends.
Qed.

End HandlerEffects.

(** ** Numbers and lengths *)

Section Numbers.

Local Open Scope Z_scope.

Lemma to_double_exact z : (Z.abs z < 2 ^ 53) -> to_double z = z.
Proof.
  intros H. unfold to_double.
  assert (He : (Z.log2 (Z.abs z) - 52 <= 0)).
  { destruct (Z.eq_dec (Z.abs z) 0) as [->|Hne]; [cbn; lia|].
    assert (Z.log2 (Z.abs z) < 53) by (apply Z.log2_lt_pow2; lia). lia. }
  apply Z.leb_le in He. now rewrite He.
Qed.

(** A number that needs more than 53 bits is a double only if its low
    bits are zero. *)
Lemma to_double_fixed_multiple b :
  (0 < b) -> (0 < Z.log2 b - 52) -> to_double b = b ->
  (b mod 2 ^ (Z.log2 b - 52) = 0).
Proof.
  intros Hb He Hfix. unfold to_double in Hfix.
  rewrite Z.abs_eq in Hfix by lia.
  apply Z.leb_gt in He. rewrite He in Hfix.
  rewrite Z.sgn_pos, Z.mul_1_l in Hfix by assumption.
  rewrite <- Hfix at 1. apply Z.mod_mul.
  apply Z.leb_gt in He. apply Z.pow_nonzero; lia.
Qed.

Lemma to_double_pred_le b :
  (0 < b) -> to_double b = b -> (to_double (b - 1) <= b).
Proof.
  intros Hb Hfix.
  destruct (Z.le_gt_cases (Z.log2 (Z.abs (b - 1)) - 52) 0) as [He|He].
  { unfold to_double. apply Z.leb_le in He. rewrite He. lia. }
  assert (Hz : (0 < b - 1)).
  { destruct (Z.eq_dec b 1) as [->|]; [|lia].
    change (Z.log2 (Z.abs (1 - 1))) with 0 in He. lia. }
  rewrite Z.abs_eq in He by lia.
  set (L := Z.log2 (b - 1)) in *.
  set (e := (L - 52)) in *.
  assert (HL : (2 ^ L <= b - 1 < 2 ^ (L + 1))).
  { unfold L. replace (Z.log2 (b - 1) + 1) with (Z.succ (Z.log2 (b - 1))) by lia.
    now apply Z.log2_spec. }
  assert (HP : (0 < 2 ^ e)) by (apply Z.pow_pos_nonneg; lia).
  assert (Hmod : (b mod 2 ^ e = 0)).
  { destruct (Z.eq_dec b (2 ^ (L + 1))) as [Heq|Hne].
    - rewrite Heq. replace (L + 1) with (53 + e) by (unfold e; lia).
      rewrite Z.pow_add_r by lia. apply Z.mod_mul. lia.
    - assert (Hlog : Z.log2 b = L).
      { apply Z.log2_unique; lia. }
      pose proof (to_double_fixed_multiple b Hb) as H.
      rewrite Hlog in H. apply H; [exact He|exact Hfix]. }
  apply Z.mod_divide in Hmod; [|lia]. destruct Hmod as [k Hk].
  assert (Hq : ((b - 1) / 2 ^ e = k - 1)).
  { symmetry. apply (Z.div_unique_pos _ _ _ (2 ^ e - 1)); nia. }
  unfold to_double. rewrite Z.abs_eq by lia. fold L. fold e.
  apply Z.leb_gt in He. rewrite He.
  rewrite Z.sgn_pos, Z.mul_1_l by assumption. rewrite Hq, Hk.
  apply Z.mul_le_mono_nonneg_r; [lia|].
  destruct (_ <? _); [lia|]. destruct (_ <? _); [lia|].
  destruct (Z.even (k - 1)); lia.
Qed.

Lemma to_double_nonneg z : (0 <= z) -> (0 <= to_double z).
Proof.
  intros Hz. unfold to_double. rewrite Z.abs_eq by assumption.
  destruct (_ <=? _) eqn:He; [assumption|].
  apply Z.leb_gt in He.
  assert (0 < 2 ^ (Z.log2 z - 52)) by (apply Z.pow_pos_nonneg; lia).
  assert (0 <= z / 2 ^ (Z.log2 z - 52)) by (apply Z.div_pos; lia).
  assert (0 <= Z.sgn z) by (apply Z.sgn_nonneg; lia).
  apply Z.mul_nonneg_nonneg; [assumption|].
  apply Z.mul_nonneg_nonneg; [|lia].
  destruct (_ <? _); [lia|]. destruct (_ <? _); [lia|].
  destruct (Z.even _); lia.
Qed.

(** Up to [2 ^ 53] the debit is the exact predecessor. *)
Lemma debit_exact b :
  (0 < b <= MAX_SAFE_BALANCE) -> debit b = (b - 1).
Proof.
  unfold MAX_SAFE_BALANCE. intros Hb.
  unfold debit, Math_max, number_sub.
  rewrite to_double_exact by lia. lia.
Qed.

(** From [2 ^ 53] on every double is even. *)
Lemma to_double_even z : 2 ^ 53 <= z -> Z.even (to_double z) = true.
Proof.
  intros Hz. unfold to_double. rewrite Z.abs_eq by lia.
  assert (Hlog : 53 <= Z.log2 z).
  { change 53 with (Z.log2 (2 ^ 53)). now apply Z.log2_le_mono. }
  destruct (_ <=? _) eqn:He; [apply Z.leb_le in He; lia|].
  rewrite Z.sgn_pos, Z.mul_1_l by lia.
  replace (Z.log2 z - 52) with (Z.succ (Z.log2 z - 53)) by lia.
  rewrite Z.pow_succ_r by lia.
  rewrite Z.mul_assoc, (Z.mul_comm _ 2), <- Z.mul_assoc.
  now rewrite Z.even_mul.
Qed.

(** Beyond [2 ^ 53] the debit of a double is never its predecessor. *)
Lemma debit_inexact b :
  MAX_SAFE_BALANCE < b -> to_double b = b -> debit b <> b - 1.
Proof.
  unfold MAX_SAFE_BALANCE. intros Hb Hfix Heq.
  assert (Hbe : Z.even b = true) by (rewrite <- Hfix; apply to_double_even; lia).
  assert (Hde : Z.even (to_double (b - 1)) = true) by (apply to_double_even; lia).
  pose proof (to_double_nonneg (b - 1)) as Hnn.
  unfold debit, Math_max, number_sub in Heq.
  rewrite Z.max_r in Heq by lia. rewrite Heq in Hde.
  replace b with (Z.succ (b - 1)) in Hbe by lia.
  rewrite Z.even_succ, <- Z.negb_even, Hde in Hbe. discriminate.
Qed.

Lemma debit_nonneg b : (0 <= debit b).
Proof. unfold debit, Math_max. lia. Qed.

(** The debit never raises a balance that is a double. *)
Lemma debit_le b : (0 < b) -> to_double b = b -> (debit b <= b).
Proof.
  intros Hb Hfix. unfold debit, Math_max, number_sub.
  pose proof (to_double_pred_le b Hb Hfix). lia.
Qed.

Example debit_small : debit 5 = 4 /\ debit 1 = 0.
Proof. split; reflexivity. Qed.

(** Beyond [2 ^ 53] the predecessor of a double need not be a double:
    [2 ^ 53 + 1] rounds to [2 ^ 53], and [2 ^ 54 - 1] back to [2 ^ 54]. *)
Example debit_rounds :
  debit (2 ^ 53 + 2) = (2 ^ 53) /\ debit (2 ^ 54) = (2 ^ 54).
Proof. split; reflexivity. Qed.

End Numbers.

Lemma length_utf16_cons c s : exists n, length_utf16 (String c s) = S n.
Proof.
  cbn [length_utf16].
  repeat match goal with
         | |- context [match ?x with _ => _ end] => destruct x
         end; eauto.
Qed.

(** A string is empty exactly when its length is zero. *)
Lemma no_image_text c s : no_image (JStr (String c s)) = false.
Proof.
  unfold no_image. cbn [truthy String.eqb negb orb get].
  destruct (length_utf16_cons c s) as [n ->]. reflexivity.
Qed.

(** ** Base64 *)

Lemma b64_digits_ok :
  forallb b64_digit_ok (map N.of_nat (seq 0 64)) = true.
Proof. vm_compute. reflexivity. Qed.

Lemma b64_digit_spec (n : N) :
  (n < 64)%N ->
  b64_value (b64_digit n) = Some n
  /\ Ascii.eqb (b64_digit n) "=" = false
  /\ Ascii.eqb (b64_digit n) ":" = false.
Proof.
  intros Hn.
  pose proof b64_digits_ok as H.
  rewrite forallb_forall in H.
  specialize (H n).
  assert (Hin : In n (map N.of_nat (seq 0 64))).
  { apply in_map_iff. exists (N.to_nat n). split; [apply N2Nat.id|].
    apply in_seq. lia. }
  specialize (H Hin). unfold b64_digit_ok in H.
  apply andb_prop in H as [H H3]. apply andb_prop in H as [H1 H2].
  destruct (b64_value (b64_digit n)) as [m|]; [|discriminate].
  apply N.eqb_eq in H1. subst m.
  repeat split; [now apply negb_true_iff in H2 | now apply negb_true_iff in H3].
Qed.

Lemma byte_of_to_N (a : byte) : byte_of_N (Byte.to_N a) = a.
Proof.
  unfold byte_of_N. pose proof (Byte.to_N_bounded a).
  rewrite N.mod_small by lia. now rewrite Byte.of_to_N.
Qed.

Ltac div_mod_lia := zify; Z.to_euclidean_division_equations; lia.

Lemma sextet1_lt (x : N) : (x <= 255 -> x / 4 < 64)%N.
Proof. intros. div_mod_lia. Qed.

Lemma sextet2_lt (x y : N) : (x <= 255 -> y <= 255 -> x mod 4 * 16 + y / 16 < 64)%N.
Proof. intros. div_mod_lia. Qed.

Lemma sextet2_pad_lt (x : N) : (x mod 4 * 16 < 64)%N.
Proof. div_mod_lia. Qed.

Lemma sextet3_lt (y z : N) : (y <= 255 -> z <= 255 -> y mod 16 * 4 + z / 64 < 64)%N.
Proof. intros. div_mod_lia. Qed.

Lemma sextet3_pad_lt (y : N) : (y mod 16 * 4 < 64)%N.
Proof. div_mod_lia. Qed.

Lemma sextet4_lt (z : N) : (z mod 64 < 64)%N.
Proof. div_mod_lia. Qed.

Lemma octet1 (x y : N) :
  (y <= 255 -> x / 4 * 4 + (x mod 4 * 16 + y / 16) / 16 = x)%N.
Proof. intros. div_mod_lia. Qed.

Lemma octet1_pad (x : N) : (x / 4 * 4 + (x mod 4 * 16) / 16 = x)%N.
Proof. div_mod_lia. Qed.

Lemma octet2 (x y z : N) :
  (y <= 255 -> z <= 255 ->
   (x mod 4 * 16 + y / 16) mod 16 * 16 + (y mod 16 * 4 + z / 64) / 4 = y)%N.
Proof. intros. div_mod_lia. Qed.

Lemma octet2_pad (x y : N) :
  (y <= 255 -> (x mod 4 * 16 + y / 16) mod 16 * 16 + (y mod 16 * 4) / 4 = y)%N.
Proof. intros. div_mod_lia. Qed.

Lemma octet3 (y z : N) :
  (z <= 255 -> (y mod 16 * 4 + z / 64) mod 4 * 64 + z mod 64 = z)%N.
Proof. intros. div_mod_lia. Qed.

(** Induction three bytes at a time, as [base64] recurses. *)
Lemma triples_ind (P : list byte -> Prop) :
  P [] -> (forall a, P [a]) -> (forall a b, P [a; b]) ->
  (forall a b c rest, P rest -> P (a :: b :: c :: rest)) ->
  forall bs, P bs.
Proof.
  intros H0 H1 H2 H3.
  fix IH 1.
  intros [|a [|b [|c rest]]]; [exact H0 | apply H1 | apply H2 | apply H3, IH].
Qed.

Lemma base64_decode_encode (bs : list byte) : base64_decode (base64 bs) = Some bs.
Proof.
  induction bs as [|a|a b|a b c rest IH] using triples_ind.
  - reflexivity.
  - pose proof (Byte.to_N_bounded a) as Ha.
    destruct (b64_digit_spec _ (sextet1_lt _ Ha)) as (V1 & _ & _).
    destruct (b64_digit_spec _ (sextet2_pad_lt (Byte.to_N a))) as (V2 & _ & _).
    cbn [base64 base64_decode]. rewrite V1, V2. cbn.
    now rewrite octet1_pad, byte_of_to_N.
  - pose proof (Byte.to_N_bounded a) as Ha.
    pose proof (Byte.to_N_bounded b) as Hb.
    destruct (b64_digit_spec _ (sextet1_lt _ Ha)) as (V1 & _ & _).
    destruct (b64_digit_spec _ (sextet2_lt _ _ Ha Hb)) as (V2 & _ & _).
    destruct (b64_digit_spec _ (sextet3_pad_lt (Byte.to_N b))) as (V3 & E3 & _).
    cbn [base64 base64_decode]. rewrite V1, V2, E3, V3. cbn.
    now rewrite (octet1 _ _ Hb), (octet2_pad _ _ Hb), !byte_of_to_N.
  - pose proof (Byte.to_N_bounded a) as Ha.
    pose proof (Byte.to_N_bounded b) as Hb.
    pose proof (Byte.to_N_bounded c) as Hc.
    destruct (b64_digit_spec _ (sextet1_lt _ Ha)) as (V1 & _ & _).
    destruct (b64_digit_spec _ (sextet2_lt _ _ Ha Hb)) as (V2 & _ & _).
    destruct (b64_digit_spec _ (sextet3_lt _ _ Hb Hc)) as (V3 & E3 & _).
    destruct (b64_digit_spec _ (sextet4_lt (Byte.to_N c))) as (V4 & E4 & _).
    cbn [base64 base64_decode]. rewrite V1, V2, E3, V3, E4, V4, IH.
    now rewrite (octet1 _ _ Hb), (octet2 _ _ _ Hb Hc), (octet3 _ _ Hc),
      !byte_of_to_N.
Qed.

Lemma base64_no_colon (bs : list byte) : no_colon (base64 bs) = true.
Proof.
  induction bs as [|a|a b|a b c rest IH] using triples_ind.
  - reflexivity.
  - pose proof (Byte.to_N_bounded a) as Ha.
    destruct (b64_digit_spec _ (sextet1_lt _ Ha)) as (_ & _ & C1).
    destruct (b64_digit_spec _ (sextet2_pad_lt (Byte.to_N a))) as (_ & _ & C2).
    cbn [base64 no_colon]. now rewrite C1, C2.
  - pose proof (Byte.to_N_bounded a) as Ha.
    pose proof (Byte.to_N_bounded b) as Hb.
    destruct (b64_digit_spec _ (sextet1_lt _ Ha)) as (_ & _ & C1).
    destruct (b64_digit_spec _ (sextet2_lt _ _ Ha Hb)) as (_ & _ & C2).
    destruct (b64_digit_spec _ (sextet3_pad_lt (Byte.to_N b))) as (_ & _ & C3).
    cbn [base64 no_colon]. now rewrite C1, C2, C3.
  - pose proof (Byte.to_N_bounded a) as Ha.
    pose proof (Byte.to_N_bounded b) as Hb.
    pose proof (Byte.to_N_bounded c) as Hc.
    destruct (b64_digit_spec _ (sextet1_lt _ Ha)) as (_ & _ & C1).
    destruct (b64_digit_spec _ (sextet2_lt _ _ Ha Hb)) as (_ & _ & C2).
    destruct (b64_digit_spec _ (sextet3_lt _ _ Hb Hc)) as (_ & _ & C3).
    destruct (b64_digit_spec _ (sextet4_lt (Byte.to_N c))) as (_ & _ & C4).
    cbn [base64 no_colon]. now rewrite C1, C2, C3, C4, IH.
Qed.

Lemma strip_data_uri_no_colon (s : string) :
  no_colon s = true -> strip_data_uri s = s.
Proof.
  intros H. unfold strip_data_uri.
  destruct s as [|c1 [|c2 [|c3 [|c4 [|c5 s]]]]]; try reflexivity;
    cbn [strip_prefix];
    repeat match goal with
           | |- context [if Ascii.eqb ?a ?b then _ else _] =>
               destruct (Ascii.eqb a b) eqn:?; try reflexivity
           end.
  cbn [no_colon] in H.
  repeat (apply andb_prop in H as [? H]).
  match goal with
  | E : Ascii.eqb ":" c5 = true |- _ =>
      apply Ascii.eqb_eq in E; subst c5
  end.
  discriminate.
Qed.

Lemma strip_data_uri_base64 (bs : list byte) :
  strip_data_uri (base64 bs) = base64 bs.
Proof. apply strip_data_uri_no_colon, base64_no_colon. Qed.

Lemma base64_nonempty (bs : list byte) :
  bs <> [] -> exists c s, base64 bs = String c s.
Proof.
  destruct bs as [|a [|b [|c rest]]]; [congruence | | |]; intros _;
    cbn [base64]; eauto.
Qed.

(** ** The paths through the handler *)

Section Paths.

Variable JSON_parse : string -> parse_result.
Variable Buffer_from : jsval -> list byte + string.
Variable env : process_env.
Variable net : upstream.

Local Abbreviation run := (generateImage JSON_parse Buffer_from env net).

Lemma run_invalid req w :
  negb (truthy (userId req)) || negb (truthy (prompt req)) = true ->
  run req w = (failure 400 "Missing userId or prompt.", w).
Proof.
  intros H. unfold generateImage, generateImage_try. now rewrite H.
Qed.

Lemma run_unknown req w :
  truthy (userId req) = true -> truthy (prompt req) = true ->
  (forall uid, userId req = JStr uid -> accounts w !! uid = None) ->
  run req w = (failure 404 "User not found.", looked_up req w).
Proof.
  intros Hu Hp Hnone. unfold generateImage, generateImage_try.
  rewrite Hu, Hp. cbn.
  unfold looked_up.
  destruct (userId req) as [| |?|?|uid|?|?] eqn:E; try reflexivity.
  now rewrite (Hnone uid eq_refl).
Qed.

Lemma run_no_credit req w uid b :
  userId req = JStr uid -> truthy (userId req) = true ->
  truthy (prompt req) = true ->
  accounts w !! uid = Some b -> (b <= 0)%Z ->
  run req w =
    ({| status := 403; success := false; message := "No Credit Balance";
        creditBalance := Some b; resultImage := None |}, looked_up req w).
Proof.
  intros Hid Hu Hp Hb Hle. unfold generateImage, generateImage_try, looked_up.
  rewrite Hu, Hp. cbn. rewrite Hid in *. rewrite Hb. cbn.
  apply Z.leb_le in Hle. now rewrite Hle.
Qed.

Lemma run_no_token req w uid b :
  admitted req w uid b -> truthy (HF_TOKEN env) = false ->
  run req w =
    (failure 500
       "Hugging Face API token not configured. Please check HF_TOKEN environment variable.",
     looked_up req w).
Proof.
  intros (Hid & Hu & Hp & Hb & Hpos) Htok.
  unfold generateImage, generateImage_try, looked_up.
  rewrite Hu, Hp. cbn. rewrite Hid in *. rewrite Hb. cbn.
  apply Z.leb_gt in Hpos. now rewrite Hpos, Htok.
Qed.

Lemma run_rejected req w uid b e :
  admitted req w uid b -> truthy (HF_TOKEN env) = true ->
  post net (prompt req) = Rejected e ->
  run req w = (generateImage_catch JSON_parse e, posted req w).
Proof.
  intros (Hid & Hu & Hp & Hb & Hpos) Htok Hpost.
  unfold generateImage, generateImage_try, posted.
  rewrite Hu, Hp. cbn. rewrite Hid in *. rewrite Hb. cbn.
  apply Z.leb_gt in Hpos. rewrite Hpos, Htok. cbn.
  unfold bind, emit. cbn. now rewrite Hpost.
Qed.

Lemma run_resolved req w uid b d :
  admitted req w uid b -> truthy (HF_TOKEN env) = true ->
  post net (prompt req) = Resolved d ->
  run req w =
    match extract_image JSON_parse Buffer_from net d (posted req w) with
    | (Ok imageBase64, w') => settle JSON_parse uid b imageBase64 w'
    | (Throw e, w') => (generateImage_catch JSON_parse e, w')
    end.
Proof.
  intros (Hid & Hu & Hp & Hb & Hpos) Htok Hpost.
  unfold generateImage, generateImage_try, posted.
  rewrite Hu, Hp. cbn. rewrite Hid in *. rewrite Hb. cbn.
  apply Z.leb_gt in Hpos. rewrite Hpos, Htok. cbn.
  unfold bind at 1. unfold emit. cbn -[extract_image]. rewrite Hpost.
  unfold bind at 1.
  destruct (extract_image _ _ _ d _) as [[img|e] w'] eqn:E; [|reflexivity].
  unfold settle.
  destruct (no_image img); [reflexivity|].
  destruct img; reflexivity.
Qed.

End Paths.

(** ** Every run either fails and leaves the ledger alone, or debits once *)

Lemma count_app (P : event -> bool) (t1 t2 : list event) :
  count P (t1 ++ t2) = count P t1 + count P t2.
Proof. unfold count. now rewrite filter_app, length_app. Qed.

Lemma count_none (P Q : event -> bool) (evs : list event) :
  (forall e, Q e = true -> P e = false) ->
  forallb Q evs = true -> count P evs = 0.
Proof.
  intros HQP H. unfold count.
  induction evs as [|e evs IH]; [reflexivity|].
  cbn in H. apply andb_prop in H as [He H].
  rewrite filter_cons. destruct (decide (P e = true)) as [HP|HP].
  - rewrite (HQP e He) in HP. discriminate.
  - auto.
Qed.

Lemma retrieval_not_save e : is_retrieval e = true -> is_save e = false.
Proof. now destruct e. Qed.

Section Ledger.

Variable JSON_parse : string -> parse_result.
Variable Buffer_from : jsval -> list byte + string.
Variable env : process_env.
Variable net : upstream.

Local Abbreviation run := (generateImage JSON_parse Buffer_from env net).

Lemma settle_inv uid b img w :
  (0 < b)%Z ->
  (success (fst (settle JSON_parse uid b img w)) = false
   /\ snd (settle JSON_parse uid b img w) = w)
  \/ (exists b64,
         settle JSON_parse uid b img w
         = (succeeded (debit b) ("data:image/png;base64," +:+ strip_data_uri b64),
            debited uid (debit b) w)).
Proof.
  intros Hb. unfold settle.
  destruct (no_image img); [now left|].
  destruct img; try now left.
  right. now exists s.
Qed.

(** The two shapes of a run. *)
Lemma run_inv req w :
  (success (fst (run req w)) = false
   /\ accounts (snd (run req w)) = accounts w
   /\ exists evs, added w (snd (run req w)) evs /\ count is_save evs = 0)
  \/ (exists uid b b64 w1 evs,
         admitted req w uid b
         /\ run req w
            = (succeeded (debit b) ("data:image/png;base64," +:+ strip_data_uri b64),
               debited uid (debit b) w1)
         /\ accounts w1 = accounts w
         /\ added w w1 evs /\ count is_save evs = 0).
Proof.
  destruct (negb (truthy (userId req)) || negb (truthy (prompt req))) eqn:Hv.
  { left. rewrite (run_invalid _ _ _ _ _ _ Hv). cbn.
    repeat split. exists []. split; [unfold added; now rewrite app_nil_r | reflexivity]. }
  apply orb_false_elim in Hv as [Hu Hp].
  apply negb_false_iff in Hu. apply negb_false_iff in Hp.
  assert (Hlook : exists evs, added w (looked_up req w) evs /\ count is_save evs = 0).
  { exists [FindById (userId req)]. split; reflexivity. }
  assert (Hcase : (exists uid, userId req = JStr uid)
                  \/ (forall uid, userId req <> JStr uid)).
  { destruct (userId req); eauto; right; discriminate. }
  destruct Hcase as [[uid Hid]|Hother].
  2:{ left.
      rewrite run_unknown
        by (auto; intros uid Hid; now destruct (Hother uid)).
      cbn; now repeat split. }
  destruct (accounts w !! uid) as [b|] eqn:Hacc.
  2:{ left.
      rewrite run_unknown
        by (auto; intros uid' Hid'; rewrite Hid in Hid'; now injection Hid' as <-).
      cbn; now repeat split. }
  destruct (Z_le_gt_dec b 0) as [Hle|Hgt].
  { left. rewrite (run_no_credit _ _ _ _ req w uid b) by auto.
    cbn; now repeat split. }
  assert (Hadm : admitted req w uid b).
  { unfold admitted. repeat split; auto. lia. }
  destruct (truthy (HF_TOKEN env)) eqn:Htok.
  2:{ left. rewrite (run_no_token _ _ _ _ req w uid b) by assumption.
      cbn; now repeat split. }
  assert (Hpost : exists evs, added w (posted req w) evs /\ count is_save evs = 0).
  { exists [FindById (userId req); Post (prompt req)]. split; [|reflexivity].
    unfold added, posted. cbn. now rewrite <- app_assoc. }
  destruct (post net (prompt req)) as [d|e] eqn:Hnet.
  2:{ left. rewrite (run_rejected _ _ _ _ req w uid b e) by assumption.
      cbn; now repeat split. }
  rewrite (run_resolved _ _ _ _ req w uid b d) by assumption.
  destruct (extract_image_extends JSON_parse Buffer_from net d (posted req w))
    as [Hacc' [evs' [Htr Hevs]]].
  destruct Hpost as [evs0 [Hadd0 Hc0]].
  assert (Hcount : count is_save (evs0 ++ evs') = 0).
  { rewrite count_app, Hc0.
    now rewrite (count_none is_save is_retrieval evs' retrieval_not_save Hevs). }
  destruct (extract_image JSON_parse Buffer_from net d (posted req w))
    as [[img|e] w'] eqn:E; cbn [snd] in *.
  - destruct (settle_inv uid b img w') as [[Hfail Hw]|[b64 Hok]]; [lia| |].
    + left. rewrite Hw. split; [exact Hfail|]. split; [exact Hacc'|].
      exists (evs0 ++ evs'). split; [|exact Hcount].
      unfold added in *. rewrite Htr, Hadd0. now rewrite <- app_assoc.
    + right. exists uid, b, b64, w', (evs0 ++ evs').
      split; [exact Hadm|]. split; [exact Hok|]. split; [exact Hacc'|].
      split; [|exact Hcount].
      unfold added in *. rewrite Htr, Hadd0. now rewrite <- app_assoc.
  - left. cbn [fst snd]. split; [reflexivity|]. split; [exact Hacc'|].
    exists (evs0 ++ evs'). split; [|exact Hcount].
    unfold added in *. rewrite Htr, Hadd0. now rewrite <- app_assoc.
Qed.

End Ledger.

(** ** The credit ledger *)

(** C2, as the handler has it. A run that answers with success, for a
    request with a non-empty prompt and an account whose balance is
    positive and at most [2 ^ 53], lowers that balance by exactly one,
    persists it with one save, the last effect of the run, and reports the
    new balance. *)
Theorem success_debits_exactly_one
    JSON_parse Buffer_from env net req w uid b :
  admitted req w uid b ->
  (b <= MAX_SAFE_BALANCE)%Z ->
  success (fst (generateImage JSON_parse Buffer_from env net req w)) = true ->
  let res := fst (generateImage JSON_parse Buffer_from env net req w) in
  let w' := snd (generateImage JSON_parse Buffer_from env net req w) in
  accounts w' = <[uid := (b - 1)%Z]> (accounts w)
  /\ accounts w' !! uid = Some (b - 1)%Z
  /\ creditBalance res = Some (b - 1)%Z
  /\ exists evs,
       added w w' (evs ++ [Save uid (b - 1)%Z])
       /\ count is_save evs = 0
       /\ count is_save (evs ++ [Save uid (b - 1)%Z]) = 1.
Proof.
  intros Hadm Hsafe Hok res w'. subst res w'.
  destruct (run_inv JSON_parse Buffer_from env net req w)
    as [(Hfail & _)|(uid' & b' & b64 & w1 & evs & Hadm' & Hrun & Hacc & Hadd & Hcnt)].
  { rewrite Hfail in Hok. discriminate. }
  destruct Hadm as (Hid & _ & _ & Hb & Hpos).
  destruct Hadm' as (Hid' & _ & _ & Hb' & _).
  rewrite Hid in Hid'. injection Hid' as <-.
  rewrite Hb in Hb'. injection Hb' as <-.
  rewrite Hrun. rewrite (debit_exact b) by (split; assumption).
  cbn [fst snd debited accounts succeeded creditBalance].
  rewrite Hacc. split; [reflexivity|]. split; [apply lookup_insert_eq|].
  split; [reflexivity|].
  exists evs. split.
  - unfold added, debited in *. cbn [trace]. rewrite Hadd. now rewrite <- app_assoc.
  - split; [assumption|]. rewrite count_app, Hcnt. reflexivity.
Qed.

Lemma success_debits_exactly_one_witness :
  admitted (Sample.ask "a red fox") (Sample.ledger 5) "u1" 5
  /\ (5 <= MAX_SAFE_BALANCE)%Z
  /\ success (fst (Sample.run Sample.configured (Sample.replying (Buf Sample.png))
                     (Sample.ask "a red fox") (Sample.ledger 5))) = true
  /\ accounts (snd (Sample.run Sample.configured (Sample.replying (Buf Sample.png))
                      (Sample.ask "a red fox") (Sample.ledger 5))) !! "u1"
     = Some 4%Z.
Proof.
  assert (Hadm : admitted (Sample.ask "a red fox") (Sample.ledger 5) "u1" 5).
  { unfold admitted. repeat split; vm_compute; reflexivity. }
  assert (Hsafe : (5 <= MAX_SAFE_BALANCE)%Z).
  { vm_compute. discriminate. }
  assert (Hok : success (fst (Sample.run Sample.configured
                                (Sample.replying (Buf Sample.png))
                                (Sample.ask "a red fox") (Sample.ledger 5))) = true).
  { vm_compute. reflexivity. }
  split; [exact Hadm|]. split; [exact Hsafe|]. split; [exact Hok|].
  exact (proj1 (proj2 (success_debits_exactly_one
                         MiniJSON.parse buffer_from_value Sample.configured
                         (Sample.replying (Buf Sample.png))
                         (Sample.ask "a red fox") (Sample.ledger 5) "u1" 5
                         Hadm Hsafe Hok))).
Defined.

(** C2 fails beyond [2 ^ 53]. The balance [2 ^ 53 + 2] is a double, its
    predecessor is not: [Math.max(0, b - 1)] is [2 ^ 53], and a successful
    run stores and reports a balance that is lower by two. *)
Lemma huge_balance_drops_by_two :
  let b := (2 ^ 53 + 2)%Z in
  let run := Sample.run Sample.configured (Sample.replying (Buf Sample.png))
               (Sample.ask "a red fox") (Sample.ledger b) in
  admitted (Sample.ask "a red fox") (Sample.ledger b) "u1" b
  /\ to_double b = b
  /\ success (fst run) = true
  /\ accounts (snd run) !! "u1" = Some (b - 2)%Z
  /\ creditBalance (fst run) = Some (b - 2)%Z
  /\ accounts (snd run) !! "u1" <> Some (b - 1)%Z.
Proof.
  vm_compute. repeat split; try discriminate.
Qed.

(** Every run that the handler itself answers with a failure leaves every
    account balance as it was and saves nothing. *)
Lemma failure_leaves_ledger JSON_parse Buffer_from env net req w :
  success (fst (generateImage JSON_parse Buffer_from env net req w)) = false ->
  accounts (snd (generateImage JSON_parse Buffer_from env net req w)) = accounts w
  /\ exists evs,
       added w (snd (generateImage JSON_parse Buffer_from env net req w)) evs
       /\ count is_save evs = 0.
Proof.
  intros Hfail.
  destruct (run_inv JSON_parse Buffer_from env net req w)
    as [(_ & Hacc & Hevs)|(uid & b & b64 & w1 & evs & _ & Hrun & _)].
  - split; assumption.
  - rewrite Hrun in Hfail. discriminate.
Qed.

(** C6. A valid request on an account whose balance is zero is denied with
    status 403 and the current balance; the only effect is the account
    lookup, so nothing is sent upstream and no balance changes, whatever
    the upstream would have answered. *)
Theorem zero_balance_denied JSON_parse Buffer_from env net req w uid :
  userId req = JStr uid ->
  truthy (userId req) = true ->
  truthy (prompt req) = true ->
  accounts w !! uid = Some 0%Z ->
  let res := fst (generateImage JSON_parse Buffer_from env net req w) in
  let w' := snd (generateImage JSON_parse Buffer_from env net req w) in
  res = {| status := 403; success := false; message := "No Credit Balance";
           creditBalance := Some 0%Z; resultImage := None |}
  /\ accounts w' = accounts w
  /\ added w w' [FindById (userId req)]
  /\ count is_upstream [FindById (userId req)] = 0.
Proof.
  intros Hid Hu Hp Hb res w'. subst res w'.
  rewrite (run_no_credit JSON_parse Buffer_from env net req w uid 0)
    by (auto; lia).
  cbn. repeat split.
Qed.

Lemma zero_balance_denied_witness :
  status (fst (Sample.run Sample.configured (Sample.replying (Buf Sample.png))
                 (Sample.ask "a red fox") (Sample.ledger 0))) = 403%Z.
Proof.
  assert (H := zero_balance_denied MiniJSON.parse buffer_from_value
                 Sample.configured (Sample.replying (Buf Sample.png))
                 (Sample.ask "a red fox") (Sample.ledger 0) "u1"
                 eq_refl eq_refl eq_refl eq_refl).
  exact (f_equal status (proj1 H)).
Defined.

(** C9. A request that passes validation and the credit check while no
    bearer token is configured is answered with status 500 and a
    configuration message; the only effect is the account lookup. *)
Theorem missing_token_reported JSON_parse Buffer_from env net req w uid b :
  admitted req w uid b ->
  truthy (HF_TOKEN env) = false ->
  let res := fst (generateImage JSON_parse Buffer_from env net req w) in
  let w' := snd (generateImage JSON_parse Buffer_from env net req w) in
  res = failure 500
          "Hugging Face API token not configured. Please check HF_TOKEN environment variable."
  /\ accounts w' = accounts w
  /\ added w w' [FindById (userId req)]
  /\ count is_upstream [FindById (userId req)] = 0.
Proof.
  intros Hadm Htok res w'. subst res w'.
  rewrite (run_no_token JSON_parse Buffer_from env net req w uid b) by assumption.
  cbn. repeat split.
Qed.

Lemma missing_token_reported_witness :
  HF_TOKEN Sample.unconfigured = JUndefined
  /\ status (fst (Sample.run Sample.unconfigured (Sample.replying (Buf Sample.png))
                    (Sample.ask "a red fox") (Sample.ledger 5))) = 500%Z.
Proof.
  assert (Hadm : admitted (Sample.ask "a red fox") (Sample.ledger 5) "u1" 5).
  { unfold admitted. repeat split; vm_compute; reflexivity. }
  split; [reflexivity|].
  exact (f_equal status
           (proj1 (missing_token_reported MiniJSON.parse buffer_from_value
                     Sample.unconfigured (Sample.replying (Buf Sample.png))
                     (Sample.ask "a red fox") (Sample.ledger 5) "u1" 5
                     Hadm eq_refl))).
Defined.

(** ** Validation *)

(** C5, as the handler has it: a request whose prompt is missing or empty
    is answered with status 400 and has no effect at all. The prompt is not
    trimmed. *)
Theorem missing_prompt_rejected JSON_parse Buffer_from env net req w :
  truthy (prompt req) = false ->
  generateImage JSON_parse Buffer_from env net req w
  = (failure 400 "Missing userId or prompt.", w).
Proof.
  intros Hp. apply run_invalid. rewrite Hp. cbn. apply orb_true_r.
Qed.

Lemma missing_prompt_rejected_witness :
  Sample.run Sample.configured (Sample.replying (Buf Sample.png))
    (Sample.ask "") (Sample.ledger 5)
  = (failure 400 "Missing userId or prompt.", Sample.ledger 5).
Proof.
  exact (missing_prompt_rejected MiniJSON.parse buffer_from_value
           Sample.configured (Sample.replying (Buf Sample.png))
           (Sample.ask "") (Sample.ledger 5) eq_refl).
Defined.

(** C5 fails for a prompt of three spaces: the request is posted upstream,
    answered with status 200, and the account pays for it. *)
Lemma whitespace_prompt_accepted :
  trim "   " = ""
  /\ status (fst (Sample.run Sample.configured (Sample.replying (Buf Sample.png))
                    (Sample.ask "   ") (Sample.ledger 5))) = 200%Z
  /\ trace (snd (Sample.run Sample.configured (Sample.replying (Buf Sample.png))
                   (Sample.ask "   ") (Sample.ledger 5)))
     = [FindById (JStr "u1"); Post (JStr "   "); Save "u1" 4]
  /\ accounts (snd (Sample.run Sample.configured (Sample.replying (Buf Sample.png))
                      (Sample.ask "   ") (Sample.ledger 5))) !! "u1"
     = Some 4%Z.
Proof. vm_compute. repeat split. Qed.

(** ** Binary replies *)

Section Binary.

Variable JSON_parse : string -> parse_result.
Variable Buffer_from : jsval -> list byte + string.
Variable env : process_env.
Variable net : upstream.

Lemma extract_image_bytes d raw :
  bytes_of d = Some raw ->
  extract_image JSON_parse Buffer_from net d = binary_image JSON_parse net raw.
Proof.
  destruct d; cbn; intros H; congruence.
Qed.

Lemma binary_image_blob raw w :
  looks_like_json (string_of_list_byte raw) = false ->
  binary_image JSON_parse net raw w = (Ok (JStr (base64 raw)), w).
Proof. intros H. unfold binary_image, try_catch. cbn zeta. now rewrite H. Qed.


Lemma settle_text uid b c s w :
  settle JSON_parse uid b (JStr (String c s)) w
  = (succeeded (debit b) ("data:image/png;base64," +:+ strip_data_uri (String c s)),
     debited uid (debit b) w).
Proof.
  unfold settle. now rewrite no_image_text.
Qed.

Lemma settle_base64 uid b raw w :
  raw <> [] ->
  settle JSON_parse uid b (JStr (base64 raw)) w
  = (succeeded (debit b) ("data:image/png;base64," +:+ base64 raw),
     debited uid (debit b) w).
Proof.
  intros Hraw.
  destruct (base64_nonempty raw Hraw) as (c & s & E).
  rewrite <- (strip_data_uri_base64 raw) at 2.
  rewrite E. apply settle_text.
Qed.



End Binary.



(** ** JSON replies *)

Section Json.

Variable JSON_parse : string -> parse_result.
Variable Buffer_from : jsval -> list byte + string.
Variable env : process_env.
Variable net : upstream.

Lemma extract_image_text s :
  extract_image JSON_parse Buffer_from net (Val (JStr s))
  = text_image JSON_parse net s.
Proof. reflexivity. Qed.

(** An error object inside a buffer: the [Error] thrown for it is caught
    by the handler of the binary branch, which keeps the raw bytes. *)
Lemma error_object_in_buffer raw fs m w :
  looks_like_json (string_of_list_byte raw) = true ->
  JSON_parse (string_of_list_byte raw) = Parsed (JObj fs) ->
  truthy (lookup_field "id" fs) = false ->
  lookup_field "error" fs = JStr m ->
  m <> "" ->
  includes m "processing" || includes m "Status:" = false ->
  binary_image JSON_parse net raw w = (Ok (JStr (base64 raw)), w).
Proof.
  intros Hlook Hparse Hid Herr Hm Hinc.
  unfold binary_image, try_catch, parse. cbn zeta.
  rewrite Hlook, Hparse.
  unfold json_image_binary, bind, lift, ret, throw. cbn [get].
  rewrite Hid, Herr. cbn [andb].
  destruct m as [|c m]; [congruence|].
  cbn [truthy String.eqb negb orb js_or new_Error to_string err_message Error].
  now rewrite Hinc.
Qed.

(** The same object inside a string: the error reaches the caller. *)
Lemma error_object_in_text s fs m w :
  JSON_parse s = Parsed (JObj fs) ->
  truthy (lookup_field "id" fs) = false ->
  lookup_field "error" fs = JStr m ->
  m <> "" ->
  text_image JSON_parse net s w = (Throw (Error m), w).
Proof.
  intros Hparse Hid Herr Hm.
  unfold text_image, parse. rewrite Hparse.
  unfold bind, lift, ret, throw. cbn [get].
  rewrite Hid, Herr. cbn [andb].
  destruct m as [|c m]; [congruence|]. reflexivity.
Qed.

Lemma text_image_unparsed s msg w :
  JSON_parse s = SyntaxError msg ->
  text_image JSON_parse net s w = (Throw (Error msg), w).
Proof.
  intros Hparse. unfold text_image, parse, bind. now rewrite Hparse.
Qed.

(** A prediction that has already succeeded with a data URI as its first
    output. *)
Lemma await_prediction_settled fs w :
  transient (lookup_field "status" fs) = false ->
  await_prediction net (JObj fs) w = (Ok (JObj fs), w).
Proof.
  intros H. unfold await_prediction, bind, lift. cbn [get]. now rewrite H.
Qed.

Lemma succeeded_data_uri_in_buffer raw fs rest w :
  looks_like_json (string_of_list_byte raw) = true ->
  JSON_parse (string_of_list_byte raw) = Parsed (JObj fs) ->
  truthy (lookup_field "id" fs) = true ->
  lookup_field "status" fs = JStr "succeeded" ->
  lookup_field "output" fs = JArr (JStr "data:image/png;base64,QUJD" :: rest) ->
  binary_image JSON_parse net raw w = (Ok (JStr "QUJD"), w).
Proof.
  intros Hlook Hparse Hid Hst Hout.
  unfold binary_image, try_catch, parse. cbn zeta.
  rewrite Hlook, Hparse.
  unfold bind at 1. unfold ret at 1.
  unfold json_image_binary.
  unfold bind at 1. unfold lift at 1. unfold bind at 1. unfold lift at 1.
  cbn [get]. rewrite Hid, Hst. cbn [truthy String.eqb Ascii.eqb Bool.eqb negb andb].
  unfold bind at 1.
  rewrite await_prediction_settled by now rewrite Hst.
  unfold prediction_image_binary, bind, lift. cbn [get].
  rewrite Hst, Hout. reflexivity.
Qed.

Lemma succeeded_data_uri_in_text s fs rest w :
  JSON_parse s = Parsed (JObj fs) ->
  truthy (lookup_field "id" fs) = true ->
  lookup_field "status" fs = JStr "succeeded" ->
  lookup_field "output" fs = JArr (JStr "data:image/png;base64,QUJD" :: rest) ->
  text_image JSON_parse net s w = (Ok (JStr "QUJD"), w).
Proof.
  intros Hparse Hid Hst Hout.
  unfold text_image, parse. rewrite Hparse.
  unfold bind at 1. unfold ret at 1.
  unfold bind at 1. unfold lift at 1. unfold bind at 1. unfold lift at 1.
  cbn [get]. rewrite Hid, Hst. cbn [truthy String.eqb Ascii.eqb Bool.eqb negb andb].
  unfold bind at 1.
  rewrite await_prediction_settled by now rewrite Hst.
  unfold prediction_image_text, bind, lift. cbn [get].
  rewrite Hst, Hout. reflexivity.
Qed.

End Json.

(** C1, at the failing input. The upstream answers with a buffer holding
    the text [{"error":"model overloaded"}]: the handler answers with
    status 200 and an image made of the base64 of that text, and the
    account is debited from 5 to 4. *)
Theorem error_object_in_buffer_becomes_image :
  let raw := Sample.bytes Sample.error_text in
  let run := Sample.run Sample.configured (Sample.replying (Buf raw))
               (Sample.ask "a red fox") (Sample.ledger 5) in
  MiniJSON.parse (string_of_list_byte raw)
  = Parsed (JObj [("error", JStr "model overloaded")])
  /\ fst run = succeeded 4 "data:image/png;base64,eyJlcnJvciI6Im1vZGVsIG92ZXJsb2FkZWQifQ=="
  /\ accounts (snd run) !! "u1" = Some 4%Z
  /\ trace (snd run)
     = [FindById (JStr "u1"); Post (JStr "a red fox"); Save "u1" 4].
Proof. vm_compute. repeat split. Qed.

(** The same reply delivered as a string is reported: status 500, the
    upstream's message, no debit. *)
Lemma error_object_in_text_is_reported :
  let run := Sample.run Sample.configured
               (Sample.replying (Val (JStr Sample.error_text)))
               (Sample.ask "a red fox") (Sample.ledger 5) in
  fst run = failure 500 "model overloaded"
  /\ accounts (snd run) !! "u1" = Some 5%Z
  /\ trace (snd run) = [FindById (JStr "u1"); Post (JStr "a red fox")].
Proof. vm_compute. repeat split. Qed.

(** The binary branch swallows every error object whose message mentions
    neither [processing] nor [Status:], whatever the parser. *)
Lemma error_object_in_buffer_is_swallowed
    JSON_parse Buffer_from env net req w uid b d raw fs m :
  admitted req w uid b ->
  truthy (HF_TOKEN env) = true ->
  post net (prompt req) = Resolved d ->
  bytes_of d = Some raw ->
  looks_like_json (string_of_list_byte raw) = true ->
  JSON_parse (string_of_list_byte raw) = Parsed (JObj fs) ->
  truthy (lookup_field "id" fs) = false ->
  lookup_field "error" fs = JStr m ->
  m <> "" ->
  includes m "processing" || includes m "Status:" = false ->
  generateImage JSON_parse Buffer_from env net req w
  = (succeeded (debit b) ("data:image/png;base64," +:+ base64 raw),
     debited uid (debit b) (posted req w)).
Proof.
  intros Hadm Htok Hpost Hbytes Hlook Hparse Hid Herr Hm Hinc.
  rewrite (run_resolved _ _ _ _ req w uid b d Hadm Htok Hpost).
  rewrite (extract_image_bytes _ _ _ d raw Hbytes).
  rewrite (error_object_in_buffer _ _ raw fs m _ Hlook Hparse Hid Herr Hm Hinc).
  apply settle_base64.
  intros ->. cbn in Hlook. discriminate.
Qed.

(** A buffer that begins like JSON and does not parse is taken for an
    image, unless the parser's message quotes the words [processing] or
    [Status:] from the text: then the filter of line 277 rethrows it. *)
Lemma unparsable_buffer :
  let run text := Sample.run Sample.configured
                    (Sample.replying (Buf (Sample.bytes text)))
                    (Sample.ask "a red fox") (Sample.ledger 5) in
  run "[processing]"
  = (failure 500 ("Unexpected token 'p', " +:+ MiniJSON.quoted "[processing]"
                  +:+ " is not valid JSON"),
     posted (Sample.ask "a red fox") (Sample.ledger 5))
  /\ run "[pending]"
     = (succeeded 4 "data:image/png;base64,W3BlbmRpbmdd",
        debited "u1" 4 (posted (Sample.ask "a red fox") (Sample.ledger 5))).
Proof. vm_compute. repeat split. Qed.

(** C3, at failing inputs. The upstream reports a failed prediction, or
    refuses the secondary fetch of the image, and the reply came as a
    buffer: the error thrown at line 230, or by the fetch of line 178, is
    caught at line 274 and the text of the reply becomes the image. The
    handler answers with status 200, and the account is debited from 5
    to 4. *)
Theorem swallowed_failure_is_debited :
  let run text := Sample.run Sample.configured
                    (Sample.replying (Buf (Sample.bytes text)))
                    (Sample.ask "a red fox") (Sample.ledger 5) in
  MiniJSON.parse Sample.failed_text
  = Parsed (JObj [("id", JStr "p1"); ("status", JStr "failed");
                  ("error", JStr "NSFW content detected")])
  /\ fst (run Sample.failed_text)
     = succeeded 4 ("data:image/png;base64,"
                    +:+ base64 (Sample.bytes Sample.failed_text))
  /\ trace (snd (run Sample.failed_text))
     = [FindById (JStr "u1"); Post (JStr "a red fox"); Save "u1" 4]
  /\ accounts (snd (run Sample.failed_text)) !! "u1" = Some 4%Z
  /\ fetch (Sample.replying (Buf (Sample.bytes Sample.remote_text)))
           "https://cdn.example/out.png"
     = Rejected (Error "Network Error")
  /\ fst (run Sample.remote_text)
     = succeeded 4 ("data:image/png;base64,"
                    +:+ base64 (Sample.bytes Sample.remote_text))
  /\ trace (snd (run Sample.remote_text))
     = [FindById (JStr "u1"); Post (JStr "a red fox");
        Fetch "https://cdn.example/out.png"; Save "u1" 4]
  /\ accounts (snd (run Sample.remote_text)) !! "u1" = Some 4%Z.
Proof. vm_compute. repeat split. Qed.

(** The same replies delivered as strings are reported: status 500 with
    the error's message, and no debit. *)
Lemma failure_in_text_is_reported :
  let run text := Sample.run Sample.configured
                    (Sample.replying (Val (JStr text)))
                    (Sample.ask "a red fox") (Sample.ledger 5) in
  run Sample.failed_text
  = (failure 500 "NSFW content detected",
     posted (Sample.ask "a red fox") (Sample.ledger 5))
  /\ run Sample.remote_text
     = (failure 500 "Network Error",
        fetched "https://cdn.example/out.png"
          (posted (Sample.ask "a red fox") (Sample.ledger 5))).
Proof. vm_compute. repeat split. Qed.

(** C8, as the handler has it: the reply is a prediction object, that is,
    it also carries a truthy [id]. Delivered as bytes or as a string, it
    yields the image whose payload is [QUJD], and the account is debited. *)
Theorem succeeded_prediction_data_uri
    JSON_parse Buffer_from env net req w uid b d fs rest :
  admitted req w uid b ->
  truthy (HF_TOKEN env) = true ->
  post net (prompt req) = Resolved d ->
  json_reply JSON_parse d (JObj fs) ->
  truthy (lookup_field "id" fs) = true ->
  lookup_field "status" fs = JStr "succeeded" ->
  lookup_field "output" fs = JArr (JStr "data:image/png;base64,QUJD" :: rest) ->
  generateImage JSON_parse Buffer_from env net req w
  = (succeeded (debit b) "data:image/png;base64,QUJD",
     debited uid (debit b) (posted req w))
  /\ payload_of (fst (generateImage JSON_parse Buffer_from env net req w))
     = Some "QUJD".
Proof.
  intros Hadm Htok Hpost Hreply Hid Hst Hout.
  assert (Hrun : generateImage JSON_parse Buffer_from env net req w
                 = (succeeded (debit b) "data:image/png;base64,QUJD",
                    debited uid (debit b) (posted req w))).
  { rewrite (run_resolved _ _ _ _ req w uid b d Hadm Htok Hpost).
    destruct d as [raw|raw|raw|v]; cbn in Hreply.
    1-3: destruct Hreply as [Hlook Hparse];
      rewrite extract_image_bytes with (raw := raw) by reflexivity;
      rewrite (succeeded_data_uri_in_buffer _ _ raw fs rest _ Hlook Hparse Hid Hst Hout);
      now rewrite settle_text.
    destruct v; try contradiction.
    rewrite extract_image_text.
    rewrite (succeeded_data_uri_in_text _ _ s fs rest _ Hreply Hid Hst Hout).
    now rewrite settle_text. }
  split; [exact Hrun|]. rewrite Hrun. reflexivity.
Qed.

Lemma succeeded_prediction_data_uri_witness :
  payload_of
    (fst (Sample.run Sample.configured
            (Sample.replying (Buf (Sample.bytes Sample.succeeded_text)))
            (Sample.ask "a red fox") (Sample.ledger 5)))
  = Some "QUJD".
Proof.
  assert (Hadm : admitted (Sample.ask "a red fox") (Sample.ledger 5) "u1" 5).
  { unfold admitted. repeat split; vm_compute; reflexivity. }
  assert (Hreply :
            json_reply MiniJSON.parse (Buf (Sample.bytes Sample.succeeded_text))
              (JObj [("id", JStr "p1"); ("status", JStr "succeeded");
                     ("output", JArr [JStr "data:image/png;base64,QUJD"])])).
  { split; vm_compute; reflexivity. }
  exact (proj2 (succeeded_prediction_data_uri MiniJSON.parse buffer_from_value
                  Sample.configured
                  (Sample.replying (Buf (Sample.bytes Sample.succeeded_text)))
                  (Sample.ask "a red fox") (Sample.ledger 5) "u1" 5
                  (Buf (Sample.bytes Sample.succeeded_text))
                  [("id", JStr "p1"); ("status", JStr "succeeded");
                   ("output", JArr [JStr "data:image/png;base64,QUJD"])]
                  [] Hadm eq_refl eq_refl Hreply eq_refl eq_refl eq_refl)).
Defined.

(** C8 fails on the reply as the specification writes it, without an [id]: the
    handler does not take it for a prediction. Inside a buffer the whole
    JSON text is encoded as the image; as a string it is refused. *)
Lemma succeeded_without_id_is_not_a_prediction :
  let text := Sample.succeeded_text_no_id in
  let as_bytes := Sample.run Sample.configured (Sample.replying (Buf (Sample.bytes text)))
                    (Sample.ask "a red fox") (Sample.ledger 5) in
  let as_text := Sample.run Sample.configured (Sample.replying (Val (JStr text)))
                   (Sample.ask "a red fox") (Sample.ledger 5) in
  MiniJSON.parse text
  = Parsed (JObj [("status", JStr "succeeded");
                  ("output", JArr [JStr "data:image/png;base64,QUJD"])])
  /\ payload_of (fst as_bytes) = Some (base64 (Sample.bytes text))
  /\ payload_of (fst as_bytes) <> Some "QUJD"
  /\ fst as_text = failure 500 "No image data found in JSON response"
  /\ payload_of (fst as_text) <> Some "QUJD".
Proof. vm_compute. repeat split; discriminate. Qed.

(** C10. No reply selects the third case of the chain: a string is always
    taken by the second one, which parses it as JSON. A string that is not
    JSON therefore ends in a failure response with status 500, without an
    image and without a debit, however long it is. *)
Theorem base64_string_case_unreachable
    JSON_parse Buffer_from env net req w uid b s msg :
  admitted req w uid b ->
  truthy (HF_TOKEN env) = true ->
  post net (prompt req) = Resolved (Val (JStr s)) ->
  JSON_parse s = SyntaxError msg ->
  let res := fst (generateImage JSON_parse Buffer_from env net req w) in
  let w' := snd (generateImage JSON_parse Buffer_from env net req w) in
  (forall d, select_branch d <> Base64String)
  /\ select_branch (Val (JStr s)) = JsonString
  /\ extract_image JSON_parse Buffer_from net (Val (JStr s))
     = text_image JSON_parse net s
  /\ res = failure 500 (if String.eqb msg "" then "Image generation failed" else msg)
  /\ w' = posted req w.
Proof.
  intros Hadm Htok Hpost Hparse res w'. subst res w'.
  split; [|split; [reflexivity|split; [reflexivity|]]].
  - intros [raw|raw|raw|v]; cbn; try discriminate.
    destruct v; cbn; discriminate.
  - rewrite (run_resolved _ _ _ _ req w uid b _ Hadm Htok Hpost).
    rewrite extract_image_text, (text_image_unparsed _ _ s msg _ Hparse).
    cbn. unfold generateImage_catch, js_or. cbn.
    destruct (String.eqb msg ""); split; reflexivity.
Qed.

Lemma base64_string_case_unreachable_witness :
  (100 <? length_utf16 Sample.long_base64)%nat = true
  /\ success
       (fst (Sample.run Sample.configured
               (Sample.replying (Val (JStr Sample.long_base64)))
               (Sample.ask "a red fox") (Sample.ledger 5)))
     = false.
Proof.
  assert (Hadm : admitted (Sample.ask "a red fox") (Sample.ledger 5) "u1" 5).
  { unfold admitted. repeat split; vm_compute; reflexivity. }
  split; [reflexivity|].
  exact (f_equal success
           (proj1 (proj2 (proj2 (proj2
              (base64_string_case_unreachable MiniJSON.parse buffer_from_value
                 Sample.configured
                 (Sample.replying (Val (JStr Sample.long_base64)))
                 (Sample.ask "a red fox") (Sample.ledger 5)
                 "u1" 5 Sample.long_base64
                 (MiniJSON.words Sample.long_base64 MiniJSON.UnexpectedToken
                    Sample.long_base64)
                 Hadm eq_refl eq_refl eq_refl)))))).
Defined.

(** ** The polling loop *)

Lemma transient_inv st :
  transient st = true -> st = JStr "starting" \/ st = JStr "processing".
Proof.
  unfold transient, str_is. destruct st; try discriminate.
  intros H. apply orb_prop in H as [H|H]; apply String.eqb_eq in H; subst; auto.
Qed.

Lemma transient_not_terminal st : transient st = true -> terminal st = false.
Proof. intros H. destruct (transient_inv st H) as [-> | ->]; reflexivity. Qed.

Lemma terminal_not_transient st : terminal st = true -> transient st = false.
Proof.
  intros H. destruct (transient st) eqn:E; [|reflexivity].
  rewrite (transient_not_terminal st E) in H. discriminate.
Qed.

Lemma transient_truthy st : transient st = true -> truthy st = true.
Proof. intros H. destruct (transient_inv st H) as [-> | ->]; reflexivity. Qed.

(** A value whose property could be read is neither [null] nor
    [undefined]: every other property can be read as well. *)
Lemma get_total v k x k' : get v k = Ok x -> exists y, get v k' = Ok y.
Proof. destruct v; cbn; intros H; try discriminate; eauto. Qed.

Lemma lookup_set_field_eq k v fs : lookup_field k (set_field k v fs) = v.
Proof.
  induction fs as [|[k' v'] fs IH]; cbn.
  - now rewrite String.eqb_refl.
  - destruct (String.eqb k k') eqn:E; cbn; rewrite ?String.eqb_refl, ?E; auto.
Qed.

Lemma lookup_set_field_ne k k' v fs :
  String.eqb k k' = false ->
  lookup_field k (set_field k' v fs) = lookup_field k fs.
Proof.
  intros Hne. induction fs as [|[k1 v1] fs IH]; cbn.
  - now rewrite Hne.
  - destruct (String.eqb k' k1) eqn:E; cbn.
    + apply String.eqb_eq in E. subst k1. now rewrite Hne.
    + now rewrite IH.
Qed.

Lemma polled_zero url a w : polled url a 0 w = w.
Proof. destruct w. unfold polled. cbn. now rewrite app_nil_r. Qed.

Lemma polled_step url a n w :
  polled url (S a) n
    {| accounts := accounts w; trace := trace w ++ [Poll url (S a)] |}
  = polled url a (S n) w.
Proof. unfold polled. cbn. now rewrite <- app_assoc. Qed.

Section Polling.

Variable net : upstream.
Variable url : jsval.

(** A rejected attempt is swallowed; the loop goes on with the same
    prediction and one attempt less. *)
Lemma poll_loop_rejected remaining attempts fp st e w :
  get fp "status" = Ok st -> transient st = true ->
  poll net url (S attempts) = Rejected e ->
  poll_loop net (S remaining) url attempts fp w
  = poll_loop net remaining url (S attempts) fp
      {| accounts := accounts w; trace := trace w ++ [Poll url (S attempts)] |}.
Proof.
  intros Hst Htr Hrej. cbn [poll_loop]. unfold bind, lift, emit.
  now rewrite Hst, Htr, Hrej.
Qed.

(** While every attempt leaves the prediction pending, the loop uses up
    all the attempts it has left and returns a pending prediction. *)
Lemma poll_loop_pending remaining :
  forall attempts fp st w,
    get fp "status" = Ok st -> transient st = true ->
    (forall i, attempts < i <= attempts + remaining ->
               stays_pending (poll net url i)) ->
    exists fp' st',
      poll_loop net remaining url attempts fp w
      = (Ok fp', polled url attempts remaining w)
      /\ get fp' "status" = Ok st' /\ transient st' = true.
Proof.
  induction remaining as [|r IH]; intros attempts fp st w Hst Htr Hpend.
  - exists fp, st. cbn. now rewrite polled_zero.
  - cbn [poll_loop]. unfold bind at 1. unfold lift. rewrite Hst, Htr.
    unfold bind at 1. unfold emit.
    assert (Hnext : forall i, S attempts < i <= S attempts + r ->
                              stays_pending (poll net url i)).
    { intros i Hi. apply Hpend. lia. }
    pose proof (Hpend (S attempts) ltac:(lia)) as Hnow.
    destruct (poll net url (S attempts)) as [data|e]; cbn in Hnow.
    + destruct Hnow as (st2 & Hst2 & Htr2).
      rewrite Hst2, (transient_not_terminal st2 Htr2).
      destruct (IH (S attempts) data st2
                  {| accounts := accounts w;
                     trace := trace w ++ [Poll url (S attempts)] |}
                  Hst2 Htr2 Hnext) as (fp' & st' & Hrun & Hst' & Htr').
      exists fp', st'. now rewrite Hrun, polled_step.
    + destruct (IH (S attempts) fp st
                  {| accounts := accounts w;
                     trace := trace w ++ [Poll url (S attempts)] |}
                  Hst Htr Hnext) as (fp' & st' & Hrun & Hst' & Htr').
      exists fp', st'. now rewrite Hrun, polled_step.
Qed.

(** When attempt [attempts + n + 1] brings a terminal status after [n]
    attempts that left the prediction pending, the loop stops there. *)
Lemma poll_loop_terminal n :
  forall remaining attempts fp st w data,
    get fp "status" = Ok st -> transient st = true ->
    n < remaining ->
    (forall i, attempts < i <= attempts + n -> stays_pending (poll net url i)) ->
    poll net url (S (attempts + n)) = Resolved data ->
    (exists st', get data "status" = Ok st' /\ terminal st' = true) ->
    poll_loop net remaining url attempts fp w
    = (Ok data, polled url attempts (S n) w).
Proof.
  induction n as [|n IH];
    intros remaining attempts fp st w data Hst Htr Hlt Hpend Hk Hterm;
    (destruct remaining as [|r]; [lia|]);
    cbn [poll_loop]; unfold bind at 1; unfold lift; rewrite Hst, Htr;
    unfold bind at 1; unfold emit.
  - rewrite Nat.add_0_r in Hk. rewrite Hk.
    destruct Hterm as (st' & Hst' & Hterm). rewrite Hst', Hterm.
    unfold ret, polled. reflexivity.
  - assert (Hnext : forall i, S attempts < i <= S attempts + n ->
                              stays_pending (poll net url i)).
    { intros i Hi. apply Hpend. lia. }
    assert (Hk' : poll net url (S (S attempts + n)) = Resolved data).
    { rewrite <- Hk. f_equal. lia. }
    pose proof (Hpend (S attempts) ltac:(lia)) as Hnow.
    destruct (poll net url (S attempts)) as [data2|e]; cbn in Hnow.
    + destruct Hnow as (st2 & Hst2 & Htr2).
      rewrite Hst2, (transient_not_terminal st2 Htr2).
      rewrite (IH r (S attempts) data2 st2 _ data Hst2 Htr2 ltac:(lia) Hnext Hk' Hterm).
      now rewrite polled_step.
    + rewrite (IH r (S attempts) fp st _ data Hst Htr ltac:(lia) Hnext Hk' Hterm).
      now rewrite polled_step.
Qed.

End Polling.

Section AwaitPrediction.

Variable JSON_parse : string -> parse_result.
Variable Buffer_from : jsval -> list byte + string.
Variable net : upstream.

Lemma prediction_image_binary_fetches j :
  extends_with is_fetch (prediction_image_binary net j).
Proof.
  unfold prediction_image_binary, prediction_failure, fetch_base64. frame.
Qed.

Lemma prediction_image_text_fetches j :
  extends_with is_fetch (prediction_image_text net j).
Proof.
  unfold prediction_image_text, prediction_failure, fetch_base64. frame.
Qed.

(** What [await_prediction] returns once the loop has returned. *)
Lemma await_prediction_polled fs url fp st' w w1 :
  transient (lookup_field "status" fs) = true ->
  predictionUrl (JObj fs) = Ok url ->
  poll_loop net maxAttempts url 0 (JObj fs) w = (Ok fp, w1) ->
  get fp "status" = Ok st' ->
  exists fs',
    await_prediction net (JObj fs) w = (Ok (JObj fs'), w1)
    /\ lookup_field "status" fs' = st'.
Proof.
  intros Htr Hurl Hloop Hst.
  destruct (get_total fp "status" st' "output" Hst) as [out Hout].
  destruct (get_total fp "status" st' "error" Hst) as [err Herr].
  exists (set_field "error" err (set_field "output" out (set_field "status" st' fs))).
  split.
  - unfold await_prediction, bind, lift. cbn [get]. rewrite Htr, Hurl, Hloop.
    now rewrite Hst, Hout, Herr.
  - rewrite !lookup_set_field_ne by reflexivity. apply lookup_set_field_eq.
Qed.

Lemma prediction_binary_pending fs st w :
  lookup_field "status" fs = st -> transient st = true ->
  exists s,
    st = JStr s
    /\ includes (still_processing +:+ s) "processing" = true
    /\ prediction_image_binary net (JObj fs) w
       = (Throw (Error (still_processing +:+ s)), w).
Proof.
  intros Hst Htr.
  destruct (transient_inv st Htr) as [E|E]; rewrite E in Hst;
    [exists "starting" | exists "processing"];
    (split; [assumption|]; split; [reflexivity|]);
    unfold prediction_image_binary, bind, lift; cbn [get]; now rewrite Hst.
Qed.

Lemma prediction_text_pending fs st w :
  lookup_field "status" fs = st -> transient st = true ->
  exists s,
    st = JStr s
    /\ prediction_image_text net (JObj fs) w
       = (Throw (Error (still_processing +:+ s)), w).
Proof.
  intros Hst Htr.
  destruct (transient_inv st Htr) as [E|E]; rewrite E in Hst;
    [exists "starting" | exists "processing"];
    (split; [assumption|]);
    unfold prediction_image_text, bind, lift; cbn [get]; now rewrite Hst.
Qed.

(** Extraction from a reply that is a pending prediction, in terms of what
    [await_prediction] returns. *)
Lemma binary_image_prediction raw fs w :
  looks_like_json (string_of_list_byte raw) = true ->
  JSON_parse (string_of_list_byte raw) = Parsed (JObj fs) ->
  truthy (lookup_field "id" fs) = true ->
  transient (lookup_field "status" fs) = true ->
  binary_image JSON_parse net raw w
  = match await_prediction net (JObj fs) w with
    | (Ok j, w1) =>
        match prediction_image_binary net j w1 with
        | (Ok img, w2) => (Ok img, w2)
        | (Throw e, w2) =>
            if includes (err_message e) "processing"
               || includes (err_message e) "Status:"
            then (Throw e, w2)
            else (Ok (JStr (base64 raw)), w2)
        end
    | (Throw e, w1) =>
        if includes (err_message e) "processing"
           || includes (err_message e) "Status:"
        then (Throw e, w1)
        else (Ok (JStr (base64 raw)), w1)
    end.
Proof.
  intros Hlook Hparse Hid Htr.
  unfold binary_image, try_catch, parse. cbn zeta. rewrite Hlook, Hparse.
  unfold bind at 1. unfold ret at 1.
  unfold json_image_binary, bind, lift. cbn [get].
  rewrite Hid, (transient_truthy _ Htr). cbn [andb].
  destruct (await_prediction net (JObj fs) w) as [[j|e] w1].
  - destruct (prediction_image_binary net j w1) as [[img|e] w2]; [reflexivity|].
    unfold throw, ret.
    now destruct (includes (err_message e) "processing"
                  || includes (err_message e) "Status:").
  - unfold throw, ret.
    now destruct (includes (err_message e) "processing"
                  || includes (err_message e) "Status:").
Qed.

Lemma text_image_prediction s fs w :
  JSON_parse s = Parsed (JObj fs) ->
  truthy (lookup_field "id" fs) = true ->
  transient (lookup_field "status" fs) = true ->
  text_image JSON_parse net s w
  = match await_prediction net (JObj fs) w with
    | (Ok j, w1) => prediction_image_text net j w1
    | (Throw e, w1) => (Throw e, w1)
    end.
Proof.
  intros Hparse Hid Htr.
  unfold text_image, parse. rewrite Hparse.
  unfold bind, lift, ret. cbn [get].
  rewrite Hid, (transient_truthy _ Htr). cbn [andb].
  now destruct (await_prediction net (JObj fs) w) as [[j|e] w1].
Qed.

(** After the polling, extraction only fetches. *)
Lemma extract_image_after_await d fs j w w1 :
  json_reply JSON_parse d (JObj fs) ->
  truthy (lookup_field "id" fs) = true ->
  transient (lookup_field "status" fs) = true ->
  await_prediction net (JObj fs) w = (Ok j, w1) ->
  exists evs,
    accounts (snd (extract_image JSON_parse Buffer_from net d w)) = accounts w1
    /\ trace (snd (extract_image JSON_parse Buffer_from net d w)) = trace w1 ++ evs
    /\ forallb is_fetch evs = true.
Proof.
  intros Hreply Hid Htr Hawait.
  assert (Hbin : forall raw,
             looks_like_json (string_of_list_byte raw) = true
             /\ JSON_parse (string_of_list_byte raw) = Parsed (JObj fs) ->
             exists evs,
               accounts (snd (binary_image JSON_parse net raw w)) = accounts w1
               /\ trace (snd (binary_image JSON_parse net raw w)) = trace w1 ++ evs
               /\ forallb is_fetch evs = true).
  { intros raw [Hlook Hparse].
    rewrite (binary_image_prediction raw fs w Hlook Hparse Hid Htr), Hawait.
    destruct (prediction_image_binary_fetches j w1) as [Ha [evs [Ht Hf]]].
    exists evs.
    destruct (prediction_image_binary net j w1) as [[img|e] w2]; cbn [snd] in *.
    - auto.
    - destruct (includes (err_message e) "processing"
                || includes (err_message e) "Status:"); cbn [snd]; auto. }
  destruct d as [raw|raw|raw|v]; cbn [json_reply] in Hreply.
  1-3: rewrite extract_image_bytes with (raw := raw) by reflexivity; now apply Hbin.
  destruct v; try contradiction.
  rewrite extract_image_text.
  rewrite (text_image_prediction s fs w Hreply Hid Htr), Hawait.
  destruct (prediction_image_text_fetches j w1) as [Ha [evs [Ht Hf]]].
  exists evs. auto.
Qed.

(** A prediction still pending after the polling is reported. *)
Lemma extract_image_timeout d fs fs' st w w1 :
  json_reply JSON_parse d (JObj fs) ->
  truthy (lookup_field "id" fs) = true ->
  transient (lookup_field "status" fs) = true ->
  await_prediction net (JObj fs) w = (Ok (JObj fs'), w1) ->
  lookup_field "status" fs' = st -> transient st = true ->
  exists s,
    st = JStr s
    /\ extract_image JSON_parse Buffer_from net d w
       = (Throw (Error (still_processing +:+ s)), w1).
Proof.
  intros Hreply Hid Htr Hawait Hst Hpend.
  destruct d as [raw|raw|raw|v]; cbn [json_reply] in Hreply.
  1-3: destruct Hreply as [Hlook Hparse];
    destruct (prediction_binary_pending fs' st w1 Hst Hpend) as (s & Es & Hinc & Hrun);
    exists s; split; [assumption|];
    rewrite extract_image_bytes with (raw := raw) by reflexivity;
    rewrite (binary_image_prediction raw fs w Hlook Hparse Hid Htr), Hawait, Hrun;
    cbn [err_message Error]; now rewrite Hinc.
  destruct v; try contradiction.
  destruct (prediction_text_pending fs' st w1 Hst Hpend) as (s' & Es & Hrun).
  exists s'. split; [assumption|].
  rewrite extract_image_text.
  now rewrite (text_image_prediction s fs w Hreply Hid Htr), Hawait, Hrun.
Qed.

End AwaitPrediction.

Lemma terminal_or_pending o : reaches_terminal o -> stays_pending o -> False.
Proof.
  destruct o as [data|e]; cbn; [|contradiction].
  intros (st & Hst & Hterm) (st' & Hst' & Htr).
  rewrite Hst in Hst'. injection Hst' as <-.
  rewrite (terminal_not_transient st Hterm) in Htr. discriminate.
Qed.

(** Settling adds at most the save. *)
Lemma settle_world JSON_parse uid b img w :
  exists evs,
    trace (snd (settle JSON_parse uid b img w)) = trace w ++ evs
    /\ count is_poll evs = 0.
Proof.
  unfold settle. destruct (no_image img).
  - exists []. cbn. now rewrite app_nil_r.
  - destruct img;
      try (exists []; cbn; now rewrite app_nil_r).
    exists [Save uid (debit b)]. cbn. split; reflexivity.
Qed.

Lemma fetch_not_poll e : is_fetch e = true -> is_poll e = false.
Proof. now destruct e. Qed.

(** C4. The reply to the POST is a pending prediction whose status URL is
    [url]. If the attempts before the [k]-th leave it pending (the poll
    failed, or its reply was [starting] or [processing]) and the [k]-th
    brings [succeeded] or [failed], or is the last of the
    [maxAttempts] = 30 and leaves it pending too, then the run polls
    exactly [k] times, attempts [1] to [k] in order, and never after. A
    failed poll is followed by the next attempt and counts among the [k].
    When the last attempt leaves the prediction pending, the caller gets
    status 500 with the still-processing message, and no balance
    changes. *)
Theorem polling_is_bounded
    JSON_parse Buffer_from env net req w uid b d fs url k :
  admitted req w uid b ->
  truthy (HF_TOKEN env) = true ->
  post net (prompt req) = Resolved d ->
  json_reply JSON_parse d (JObj fs) ->
  truthy (lookup_field "id" fs) = true ->
  transient (lookup_field "status" fs) = true ->
  predictionUrl (JObj fs) = Ok url ->
  1 <= k <= maxAttempts ->
  (forall i, 1 <= i < k -> stays_pending (poll net url i)) ->
  reaches_terminal (poll net url k)
  \/ (k = maxAttempts /\ stays_pending (poll net url k)) ->
  let res := fst (generateImage JSON_parse Buffer_from env net req w) in
  let w' := snd (generateImage JSON_parse Buffer_from env net req w) in
  (exists evs,
      added w w' ([FindById (userId req); Post (prompt req)] ++ polls url k ++ evs)
      /\ count is_poll evs = 0)
  /\ (stays_pending (poll net url k) ->
      k = maxAttempts
      /\ (exists st, res = failure 500 (still_processing +:+ st))
      /\ accounts w' = accounts w
      /\ added w w'
           ([FindById (userId req); Post (prompt req)] ++ polls url maxAttempts)).
Proof.
  intros Hadm Htok Hpost Hreply Hid Htr Hurl Hk Hbefore Hlast res w'.
  subst res w'.
  rewrite (run_resolved _ _ _ _ req w uid b d Hadm Htok Hpost).
  assert (Hst0 : get (JObj fs) "status" = Ok (lookup_field "status" fs))
    by reflexivity.
  assert (Htimeout :
            k = maxAttempts -> stays_pending (poll net url k) ->
            exists s,
              extract_image JSON_parse Buffer_from net d (posted req w)
              = (Throw (Error (still_processing +:+ s)),
                 polled url 0 maxAttempts (posted req w))).
  { intros -> Hpend.
    destruct (poll_loop_pending net url maxAttempts 0 (JObj fs) _ (posted req w)
                Hst0 Htr) as (fp' & st' & Hloop & Hst' & Htr').
    { intros i Hi. destruct (Nat.eq_dec i maxAttempts) as [->|Hne];
        [assumption | apply Hbefore; lia]. }
    destruct (await_prediction_polled net fs url fp' st' _ _ Htr Hurl Hloop Hst')
      as (fs' & Hawait & Hfs').
    destruct (extract_image_timeout JSON_parse Buffer_from net d fs fs' st' _ _
                Hreply Hid Htr Hawait Hfs' Htr') as (s & _ & Hext).
    now exists s. }
  split.
  - destruct Hlast as [Hterm|[Hmax Hpend]].
    + destruct (poll net url k) as [data|e] eqn:Hpoll; [|contradiction].
      destruct k as [|n]; [lia|].
      assert (Hloop := poll_loop_terminal net url n maxAttempts 0 (JObj fs)
                         _ (posted req w) data Hst0 Htr ltac:(lia)).
      cbn [Nat.add] in Hloop.
      specialize (Hloop ltac:(intros i Hi; apply Hbefore; lia) Hpoll Hterm).
      destruct Hterm as (st' & Hst' & _).
      destruct (await_prediction_polled net fs url data st' _ _ Htr Hurl Hloop Hst')
        as (fs' & Hawait & _).
      destruct (extract_image_after_await JSON_parse Buffer_from net d fs _ _ _
                  Hreply Hid Htr Hawait) as (evs & Hacc & Htrace & Hfetch).
      assert (Hc : count is_poll evs = 0)
        by exact (count_none is_poll is_fetch evs fetch_not_poll Hfetch).
      destruct (extract_image JSON_parse Buffer_from net d (posted req w))
        as [[img|e] w2]; cbn [snd] in *.
      * destruct (settle_world JSON_parse uid b img w2) as [evs' [Hs1 Hs2]].
        exists (evs ++ evs'). split; [|now rewrite count_app, Hc, Hs2].
        unfold added, polls, polled, posted in *. cbn [trace] in *.
        rewrite Hs1, Htrace. now rewrite <- !app_assoc.
      * exists evs. split; [|assumption].
        unfold added, polls, polled, posted in *. cbn [trace] in *.
        rewrite Htrace. now rewrite <- !app_assoc.
    + destruct (Htimeout Hmax Hpend) as [s Hext]. rewrite Hext. cbn [snd].
      exists []. split; [|reflexivity]. subst k.
      unfold added, polls, polled, posted. cbn [trace].
      now rewrite app_nil_r, <- !app_assoc.
  - intros Hpend.
    assert (Hmax : k = maxAttempts).
    { destruct Hlast as [Hterm|[Hmax _]]; [|assumption].
      destruct (terminal_or_pending _ Hterm Hpend). }
    destruct (Htimeout Hmax Hpend) as [s Hext]. rewrite Hext. cbn [fst snd].
    split; [assumption|]. split; [now exists s|]. split; [reflexivity|].
    unfold added, polls, polled, posted. cbn [trace].
    now rewrite <- !app_assoc.
Qed.

Lemma polling_is_bounded_witness :
  exists evs,
    added (Sample.ledger 5)
      (snd (Sample.run Sample.configured
              (Sample.upstream_of (Buf (Sample.bytes Sample.pending_text))
                 Sample.third_time)
              (Sample.ask "a red fox") (Sample.ledger 5)))
      ([FindById (JStr "u1"); Post (JStr "a red fox")]
       ++ polls Sample.pending_url 3 ++ evs)
    /\ count is_poll evs = 0.
Proof.
  assert (Hadm : admitted (Sample.ask "a red fox") (Sample.ledger 5) "u1" 5).
  { unfold admitted. repeat split; vm_compute; reflexivity. }
  assert (Hreply :
            json_reply MiniJSON.parse (Buf (Sample.bytes Sample.pending_text))
              (JObj [("id", JStr "p1"); ("status", JStr "starting")])).
  { split; vm_compute; reflexivity. }
  assert (Hbefore : forall i, 1 <= i < 3 ->
                              stays_pending (Sample.third_time i)).
  { intros [|[|[|i]]] Hi; try lia.
    - exact I.
    - exists (JStr "processing"). split; reflexivity. }
  assert (Hlast : reaches_terminal (Sample.third_time 3)
                  \/ (3 = maxAttempts /\ stays_pending (Sample.third_time 3))).
  { left. exists (JStr "succeeded"). split; reflexivity. }
  exact (proj1 (polling_is_bounded MiniJSON.parse buffer_from_value
                  Sample.configured
                  (Sample.upstream_of (Buf (Sample.bytes Sample.pending_text))
                     Sample.third_time)
                  (Sample.ask "a red fox") (Sample.ledger 5) "u1" 5
                  (Buf (Sample.bytes Sample.pending_text))
                  [("id", JStr "p1"); ("status", JStr "starting")]
                  Sample.pending_url 3
                  Hadm eq_refl eq_refl Hreply eq_refl eq_refl eq_refl
                  ltac:(unfold maxAttempts; lia) Hbefore Hlast)).
Defined.

(** A run whose third poll succeeds, and a run in which every poll fails. *)
Example third_poll_succeeds :
  let run := Sample.run Sample.configured
               (Sample.upstream_of (Buf (Sample.bytes Sample.pending_text))
                  Sample.third_time)
               (Sample.ask "a red fox") (Sample.ledger 5) in
  fst run = succeeded 4 "data:image/png;base64,QUJD"
  /\ trace (snd run)
     = [FindById (JStr "u1"); Post (JStr "a red fox");
        Poll Sample.pending_url 1; Poll Sample.pending_url 2;
        Poll Sample.pending_url 3; Save "u1" 4].
Proof. vm_compute. split; reflexivity. Qed.

Example polling_times_out :
  let run := Sample.run Sample.configured
               (Sample.replying (Buf (Sample.bytes Sample.pending_text)))
               (Sample.ask "a red fox") (Sample.ledger 5) in
  fst run = failure 500 (still_processing +:+ "starting")
  /\ count is_poll (trace (snd run)) = 30
  /\ count is_save (trace (snd run)) = 0
  /\ accounts (snd run) !! "u1" = Some 5%Z.
Proof. vm_compute. repeat split. Qed.

(** ** No run polls more than [maxAttempts] times *)

Section PollBound.

Context {A B : Type}.

Lemma polls_within_quiet (m : M A) :
  extends_with is_fetch m -> polls_within 0 m.
Proof.
  intros H w. destruct (H w) as [_ [evs [Ht Hf]]].
  exists evs. split; [assumption|].
  now rewrite (count_none is_poll is_fetch evs fetch_not_poll Hf).
Qed.

Lemma polls_within_weaken n n' (m : M A) :
  n <= n' -> polls_within n m -> polls_within n' m.
Proof.
  intros Hle H w. destruct (H w) as [evs [Ht Hc]].
  exists evs. split; [assumption|lia].
Qed.

Lemma polls_within_bind n1 n2 (m : M A) (k : A -> M B) :
  polls_within n1 m -> (forall a, polls_within n2 (k a)) ->
  polls_within (n1 + n2) (bind m k).
Proof.
  intros Hm Hk w. unfold bind.
  destruct (Hm w) as [evs [Ht Hc]].
  destruct (m w) as [[a|e] w1]; cbn [snd] in *.
  - destruct (Hk a w1) as [evs' [Ht' Hc']].
    exists (evs ++ evs'). split.
    + rewrite Ht', Ht. now rewrite <- app_assoc.
    + rewrite count_app. lia.
  - exists evs. split; [assumption|lia].
Qed.

Lemma polls_within_try n1 n2 (m : M A) (h : js_error -> M A) :
  polls_within n1 m -> (forall e, polls_within n2 (h e)) ->
  polls_within (n1 + n2) (try_catch m h).
Proof.
  intros Hm Hh w. unfold try_catch.
  destruct (Hm w) as [evs [Ht Hc]].
  destruct (m w) as [[a|e] w1]; cbn [snd] in *.
  - exists evs. split; [assumption|lia].
  - destruct (Hh e w1) as [evs' [Ht' Hc']].
    exists (evs ++ evs'). split.
    + rewrite Ht', Ht. now rewrite <- app_assoc.
    + rewrite count_app. lia.
Qed.

End PollBound.

Ltac quiet := apply polls_within_quiet; frame.

Section HandlerPolls.

Variable JSON_parse : string -> parse_result.
Variable Buffer_from : jsval -> list byte + string.
Variable env : process_env.
Variable net : upstream.

Lemma poll_loop_polls remaining url attempts fp :
  polls_within remaining (poll_loop net remaining url attempts fp).
Proof.
  revert attempts fp.
  induction remaining as [|r IH]; intros attempts fp; cbn [poll_loop].
  - quiet.
  - apply (polls_within_bind 0 (S r)); [quiet|]. intros st.
    destruct (transient st); [|apply (polls_within_weaken 0); [lia|quiet]].
    apply (polls_within_bind 1 r).
    + intros w. exists [Poll url (S attempts)]. split; reflexivity.
    + intros _.
      destruct (poll net url (S attempts)) as [data|e]; [|apply IH].
      destruct (get data "status") as [st'|e]; [|apply IH].
      destruct (terminal st'); [|apply IH].
      apply (polls_within_weaken 0); [lia|quiet].
Qed.

Lemma await_prediction_polls j :
  polls_within maxAttempts (await_prediction net j).
Proof.
  unfold await_prediction.
  apply (polls_within_bind 0 maxAttempts); [quiet|]. intros st.
  destruct (transient st); [|apply (polls_within_weaken 0); [lia|quiet]].
  apply (polls_within_bind 0 maxAttempts); [quiet|]. intros url.
  replace maxAttempts with (maxAttempts + 0) at 1 by lia.
  apply polls_within_bind; [apply poll_loop_polls|]. intros fp. quiet.
Qed.

Lemma embedded_image_fetches j other :
  extends_with is_fetch other -> extends_with is_fetch (embedded_image j other).
Proof. intros H. unfold embedded_image. frame; assumption. Qed.

Lemma json_image_binary_polls raw j :
  polls_within maxAttempts (json_image_binary net raw j).
Proof.
  unfold json_image_binary.
  apply (polls_within_bind 0 maxAttempts); [quiet|]. intros id.
  apply (polls_within_bind 0 maxAttempts); [quiet|]. intros st.
  destruct (truthy id && truthy st).
  - replace maxAttempts with (maxAttempts + 0) at 1 by lia.
    apply polls_within_bind; [apply await_prediction_polls|]. intros j'.
    apply polls_within_quiet, prediction_image_binary_fetches.
  - apply (polls_within_weaken 0); [lia|]. apply polls_within_quiet.
    frame. all: apply embedded_image_fetches; frame.
Qed.

Lemma binary_image_polls raw :
  polls_within maxAttempts (binary_image JSON_parse net raw).
Proof.
  unfold binary_image.
  replace maxAttempts with (maxAttempts + 0) at 1 by lia.
  apply polls_within_try; [|intros e; quiet]. cbn zeta.
  destruct (looks_like_json (string_of_list_byte raw));
    [|apply (polls_within_weaken 0); [lia|quiet]].
  apply (polls_within_bind 0 maxAttempts).
  - unfold parse. quiet.
  - intros j. apply json_image_binary_polls.
Qed.

Lemma text_image_polls s :
  polls_within maxAttempts (text_image JSON_parse net s).
Proof.
  unfold text_image.
  apply (polls_within_bind 0 maxAttempts); [unfold parse; quiet|]. intros j.
  apply (polls_within_bind 0 maxAttempts); [quiet|]. intros id.
  apply (polls_within_bind 0 maxAttempts); [quiet|]. intros st.
  destruct (truthy id && truthy st).
  - replace maxAttempts with (maxAttempts + 0) at 1 by lia.
    apply polls_within_bind; [apply await_prediction_polls|]. intros j'.
    apply polls_within_quiet, prediction_image_text_fetches.
  - apply (polls_within_weaken 0); [lia|]. apply polls_within_quiet.
    frame. all: apply embedded_image_fetches; frame.
Qed.

Lemma extract_image_polls d :
  polls_within maxAttempts (extract_image JSON_parse Buffer_from net d).
Proof.
  unfold extract_image, select_branch.
  destruct d as [raw|raw|raw|v]; try apply binary_image_polls.
  destruct v; cbn [is_string andb]; try apply text_image_polls;
    apply (polls_within_weaken 0); try (unfold maxAttempts; lia); quiet.
Qed.

Lemma count_prelude (P : event -> bool) a p :
  P (FindById a) = false -> P (Post p) = false ->
  count P [FindById a; Post p] = 0.
Proof.
  intros Ha Hp. unfold count. rewrite !filter_cons, filter_nil.
  rewrite Ha, Hp. reflexivity.
Qed.

(** Whatever the request, the accounts and the upstream, a run issues at
    most [maxAttempts] polls. *)
Lemma polls_never_exceed_maxAttempts req w :
  exists evs,
    added w (snd (generateImage JSON_parse Buffer_from env net req w)) evs
    /\ count is_poll evs <= maxAttempts.
Proof.
  assert (Hnone : forall w' evs,
             w' = w \/ w' = looked_up req w \/ w' = posted req w ->
             evs = [] \/ evs = [FindById (userId req)]
             \/ evs = [FindById (userId req); Post (prompt req)] ->
             trace w' = trace w ++ evs ->
             exists evs, added w w' evs /\ count is_poll evs <= maxAttempts).
  { intros w' evs _ Hevs Ht. exists evs. split; [assumption|].
    destruct Hevs as [-> | [-> | ->]]; vm_compute; lia. }
  destruct (negb (truthy (userId req)) || negb (truthy (prompt req))) eqn:Hv.
  { rewrite (run_invalid _ _ _ _ _ _ Hv). cbn [snd].
    apply (Hnone w []); auto. now rewrite app_nil_r. }
  apply orb_false_elim in Hv as [Hu Hp].
  apply negb_false_iff in Hu. apply negb_false_iff in Hp.
  assert (Hcase : (exists uid, userId req = JStr uid)
                  \/ (forall uid, userId req <> JStr uid)).
  { destruct (userId req); eauto; right; discriminate. }
  destruct Hcase as [[uid Hid]|Hother].
  2:{ rewrite run_unknown
        by (auto; intros uid Hid; now destruct (Hother uid)).
      cbn [snd]. apply (Hnone _ [FindById (userId req)]); auto. }
  destruct (accounts w !! uid) as [b|] eqn:Hacc.
  2:{ rewrite run_unknown
        by (auto; intros uid' Hid'; rewrite Hid in Hid'; now injection Hid' as <-).
      cbn [snd]. apply (Hnone _ [FindById (userId req)]); auto. }
  destruct (Z_le_gt_dec b 0) as [Hle|Hgt].
  { rewrite (run_no_credit _ _ _ _ req w uid b) by auto.
    cbn [snd]. apply (Hnone _ [FindById (userId req)]); auto. }
  assert (Hadm : admitted req w uid b).
  { unfold admitted. repeat split; auto. lia. }
  destruct (truthy (HF_TOKEN env)) eqn:Htok.
  2:{ rewrite (run_no_token _ _ _ _ req w uid b) by assumption.
      cbn [snd]. apply (Hnone _ [FindById (userId req)]); auto. }
  assert (Hposted : trace (posted req w)
                    = trace w ++ [FindById (userId req); Post (prompt req)]).
  { unfold posted. cbn. now rewrite <- app_assoc. }
  destruct (post net (prompt req)) as [d|e] eqn:Hnet.
  2:{ rewrite (run_rejected _ _ _ _ req w uid b e) by assumption.
      cbn [snd]. apply (Hnone _ [FindById (userId req); Post (prompt req)]); auto. }
  rewrite (run_resolved _ _ _ _ req w uid b d) by assumption.
  destruct (extract_image_polls d (posted req w)) as [evs [Ht Hc]].
  destruct (extract_image JSON_parse Buffer_from net d (posted req w))
    as [[img|e] w2]; cbn [snd] in *.
  - destruct (settle_world JSON_parse uid b img w2) as [evs' [Hs1 Hs2]].
    exists ([FindById (userId req); Post (prompt req)] ++ evs ++ evs').
    split.
    + unfold added. rewrite Hs1, Ht, Hposted. now rewrite <- !app_assoc.
    + rewrite !count_app, Hs2, count_prelude by reflexivity. lia.
  - exists ([FindById (userId req); Post (prompt req)] ++ evs). split.
    + unfold added. rewrite Ht, Hposted. now rewrite <- !app_assoc.
    + rewrite count_app, count_prelude by reflexivity. lia.
Qed.

End HandlerPolls.

(** * Further properties of the handler *)

(** ** The paths of a run, all at once *)

Lemma run_cases JSON_parse Buffer_from env net req w :
  (negb (truthy (userId req)) || negb (truthy (prompt req)) = true
   /\ generateImage JSON_parse Buffer_from env net req w
      = (failure 400 "Missing userId or prompt.", w))
  \/ (truthy (userId req) = true /\ truthy (prompt req) = true
      /\ (((forall uid, userId req = JStr uid -> accounts w !! uid = None)
           /\ generateImage JSON_parse Buffer_from env net req w
              = (failure 404 "User not found.", looked_up req w))
          \/ (exists uid b,
                 userId req = JStr uid /\ accounts w !! uid = Some b
                 /\ (b <= 0)%Z
                 /\ generateImage JSON_parse Buffer_from env net req w
                    = (denied b, looked_up req w))
          \/ (exists uid b,
                 admitted req w uid b /\ truthy (HF_TOKEN env) = false
                 /\ generateImage JSON_parse Buffer_from env net req w
                    = (token_missing, looked_up req w))
          \/ (exists uid b e,
                 admitted req w uid b /\ truthy (HF_TOKEN env) = true
                 /\ post net (prompt req) = Rejected e
                 /\ generateImage JSON_parse Buffer_from env net req w
                    = (generateImage_catch JSON_parse e, posted req w))
          \/ (exists uid b d,
                 admitted req w uid b /\ truthy (HF_TOKEN env) = true
                 /\ post net (prompt req) = Resolved d
                 /\ generateImage JSON_parse Buffer_from env net req w
                    = match extract_image JSON_parse Buffer_from net d (posted req w) with
                      | (Ok imageBase64, w') => settle JSON_parse uid b imageBase64 w'
                      | (Throw e, w') => (generateImage_catch JSON_parse e, w')
                      end))).
Proof.
  destruct (negb (truthy (userId req)) || negb (truthy (prompt req))) eqn:Hv.
  { left. split; [reflexivity|]. now apply run_invalid. }
  right.
  apply orb_false_elim in Hv as [Hu Hp].
  apply negb_false_iff in Hu. apply negb_false_iff in Hp.
  split; [assumption|]. split; [assumption|].
  assert (Hcase : (exists uid, userId req = JStr uid)
                  \/ (forall uid, userId req <> JStr uid)).
  { destruct (userId req); eauto; right; discriminate. }
  destruct Hcase as [[uid Hid]|Hother].
  2:{ left. assert (Hnone : forall uid, userId req = JStr uid -> accounts w !! uid = None)
        by (intros uid Hid; now destruct (Hother uid)).
      split; [assumption|]. now apply run_unknown. }
  destruct (accounts w !! uid) as [b|] eqn:Hacc.
  2:{ left. assert (Hnone : forall uid, userId req = JStr uid -> accounts w !! uid = None)
        by (intros uid' Hid'; rewrite Hid in Hid'; now injection Hid' as <-).
      split; [assumption|]. now apply run_unknown. }
  right.
  destruct (Z_le_gt_dec b 0) as [Hle|Hgt].
  { left. exists uid, b. split; [assumption|]. split; [assumption|].
    split; [assumption|]. now apply (run_no_credit _ _ _ _ req w uid b). }
  right.
  assert (Hadm : admitted req w uid b).
  { unfold admitted. repeat split; auto. lia. }
  destruct (truthy (HF_TOKEN env)) eqn:Htok.
  2:{ left. exists uid, b. split; [assumption|]. split; [reflexivity|].
      now apply (run_no_token _ _ _ _ req w uid b). }
  right.
  destruct (post net (prompt req)) as [d|e] eqn:Hnet.
  - right. exists uid, b, d. split; [assumption|]. split; [reflexivity|].
    split; [reflexivity|]. now apply (run_resolved _ _ _ _ req w uid b d).
  - left. exists uid, b, e. split; [assumption|]. split; [reflexivity|].
    split; [reflexivity|]. now apply (run_rejected _ _ _ _ req w uid b e).
Qed.

Lemma app_cons_not_nil {A} (l l' : list A) (x : A) : l <> l ++ x :: l'.
Proof.
  intros H. apply (f_equal (@length A)) in H.
  rewrite length_app in H. cbn in H. lia.
Qed.

Lemma world_changed w w' e evs : trace w' = trace w ++ e :: evs -> w' <> w.
Proof. intros Ht ->. exact (app_cons_not_nil _ _ _ Ht). Qed.

(** ** The order of the effects *)

Section Shape.

Context {A B : Type}.

Lemma silent_ret (a : A) : silent (ret a).
Proof. intros w. reflexivity. Qed.

Lemma silent_throw (e : js_error) : silent (@throw A e).
Proof. intros w. reflexivity. Qed.

Lemma silent_lift (r : result A) : silent (lift r).
Proof. intros w. reflexivity. Qed.

Lemma silent_bind (m : M A) (k : A -> M B) :
  silent m -> (forall a, silent (k a)) -> silent (bind m k).
Proof.
  intros Hm Hk w. unfold bind. specialize (Hm w).
  destruct (m w) as [[a|e] w1]; cbn [snd] in *; subst w1; [apply Hk|reflexivity].
Qed.

Lemma fetches_once_silent (m : M A) : silent m -> fetches_once m.
Proof.
  intros H w. split; [now rewrite H|].
  exists []. rewrite H. split; [now rewrite app_nil_r | now left].
Qed.

Lemma fetches_once_bind (m : M A) (k : A -> M B) :
  silent m -> (forall a, fetches_once (k a)) -> fetches_once (bind m k).
Proof.
  intros Hm Hk w. unfold bind. specialize (Hm w).
  destruct (m w) as [[a|e] w1]; cbn [snd] in *; subst w1.
  - apply Hk.
  - apply (fetches_once_silent (throw e)). apply silent_throw.
Qed.

Lemma polls_then_fetches_once (m : M A) :
  fetches_once m -> polls_then_fetches m.
Proof.
  intros H w. destruct (H w) as [Ha [fs [Ht Hfs]]].
  split; [assumption|]. exists JNull, 0, fs.
  split; [unfold maxAttempts; lia|]. split; assumption.
Qed.

Lemma polls_then_fetches_bind (m : M A) (k : A -> M B) :
  silent m -> (forall a, polls_then_fetches (k a)) ->
  polls_then_fetches (bind m k).
Proof.
  intros Hm Hk w. unfold bind. specialize (Hm w).
  destruct (m w) as [[a|e] w1]; cbn [snd] in *; subst w1.
  - apply Hk.
  - apply (polls_then_fetches_once (throw e)), fetches_once_silent, silent_throw.
Qed.

Lemma polls_then_fetches_try (m : M A) (h : js_error -> M A) :
  polls_then_fetches m -> (forall e, silent (h e)) ->
  polls_then_fetches (try_catch m h).
Proof.
  intros Hm Hh w. unfold try_catch.
  destruct (Hm w) as [Ha (url & k & fs & Hk & Ht & Hfs)].
  destruct (m w) as [[a|e] w1]; cbn [snd] in *.
  - split; [assumption|]. now exists url, k, fs.
  - split; [now rewrite Hh|]. exists url, k, fs. now rewrite Hh.
Qed.

End Shape.

Ltac hush :=
  repeat match goal with
    | |- silent (ret _) => apply silent_ret
    | |- silent (throw _) => apply silent_throw
    | |- silent (lift _) => apply silent_lift
    | |- silent (bind _ _) => apply silent_bind; [| intros ?]
    | |- silent (if ?b then _ else _) => destruct b
    | |- silent (match ?x with _ => _ end) => destruct x
    end.

Ltac one_fetch :=
  repeat match goal with
    | |- fetches_once (ret _) => apply fetches_once_silent, silent_ret
    | |- fetches_once (throw _) => apply fetches_once_silent, silent_throw
    | |- fetches_once (bind (lift _) _) =>
        apply fetches_once_bind; [apply silent_lift | intros ?]
    | |- fetches_once (if ?b then _ else _) => destruct b
    | |- fetches_once (match ?x with _ => _ end) => destruct x
    end.

Section HandlerShape.

Variable JSON_parse : string -> parse_result.
Variable Buffer_from : jsval -> list byte + string.
Variable env : process_env.
Variable net : upstream.

Lemma fetch_base64_once url : fetches_once (fetch_base64 net url).
Proof.
  intros w. unfold fetch_base64, bind, emit.
  destruct (fetch net url); cbn; (split; [reflexivity|]);
    exists [Fetch url]; (split; [reflexivity|]); right; now exists url.
Qed.

Lemma prediction_image_binary_once j :
  fetches_once (prediction_image_binary net j).
Proof.
  unfold prediction_image_binary, prediction_failure.
  one_fetch; apply fetch_base64_once.
Qed.

Lemma prediction_image_text_once j :
  fetches_once (prediction_image_text net j).
Proof.
  unfold prediction_image_text, prediction_failure.
  one_fetch; apply fetch_base64_once.
Qed.

Lemma embedded_image_silent j other :
  silent other -> silent (embedded_image j other).
Proof. intros H. unfold embedded_image. hush; assumption. Qed.

(** The attempts of the loop are numbered one after the other. *)
Lemma poll_loop_consecutive remaining url :
  forall attempts fp w,
  exists k,
    k <= remaining
    /\ accounts (snd (poll_loop net remaining url attempts fp w)) = accounts w
    /\ trace (snd (poll_loop net remaining url attempts fp w))
       = trace w ++ map (Poll url) (seq (S attempts) k).
Proof.
  induction remaining as [|r IH]; intros attempts fp w.
  - exists 0. cbn. split; [lia|]. split; [reflexivity|]. now rewrite app_nil_r.
  - cbn [poll_loop]. unfold bind, lift, emit.
    destruct (get fp "status") as [st|e].
    2:{ exists 0. cbn. split; [lia|]. split; [reflexivity|]. now rewrite app_nil_r. }
    destruct (transient st).
    2:{ exists 0. cbn. split; [lia|]. split; [reflexivity|]. now rewrite app_nil_r. }
    set (w1 := {| accounts := accounts w;
                  trace := trace w ++ [Poll url (S attempts)] |}).
    assert (Hstep : forall fp',
               exists k,
                 k <= S r
                 /\ accounts (snd (poll_loop net r url (S attempts) fp' w1)) = accounts w
                 /\ trace (snd (poll_loop net r url (S attempts) fp' w1))
                    = trace w ++ map (Poll url) (seq (S attempts) k)).
    { intros fp'. destruct (IH (S attempts) fp' w1) as (k & Hk & Ha & Ht).
      exists (S k). split; [lia|]. split; [exact Ha|].
      rewrite Ht. unfold w1. cbn. now rewrite <- app_assoc. }
    destruct (poll net url (S attempts)) as [data|e]; [|apply Hstep].
    destruct (get data "status") as [st'|e]; [|apply Hstep].
    destruct (terminal st'); [|apply Hstep].
    exists 1. cbn. split; [lia|]. split; reflexivity.
Qed.

Lemma await_prediction_consecutive j w :
  accounts (snd (await_prediction net j w)) = accounts w
  /\ exists url k,
       k <= maxAttempts
       /\ trace (snd (await_prediction net j w)) = trace w ++ polls url k.
Proof.
  assert (Hnone : forall (r : result jsval),
             accounts (snd (r, w)) = accounts w
             /\ exists url k, k <= maxAttempts
                              /\ trace (snd (r, w)) = trace w ++ polls url k).
  { intros r. split; [reflexivity|]. exists JNull, 0.
    split; [unfold maxAttempts; lia|]. cbn. now rewrite app_nil_r. }
  unfold await_prediction, bind, lift.
  destruct (get j "status") as [st|e]; [|apply Hnone].
  destruct (transient st); [|apply Hnone].
  destruct (predictionUrl j) as [url|e]; [|apply Hnone].
  destruct (poll_loop_consecutive maxAttempts url 0 j w) as (k & Hk & Ha & Ht).
  destruct (poll_loop net maxAttempts url 0 j w) as [[fp|e] w1];
    cbn [snd] in Ha, Ht.
  - assert (Hrest : forall r : result jsval,
               accounts (snd (r, w1)) = accounts w
               /\ exists url k, k <= maxAttempts
                                /\ trace (snd (r, w1)) = trace w ++ polls url k).
    { intros r. split; [assumption|]. now exists url, k. }
    destruct (get fp "status"); [|apply Hrest].
    destruct (get fp "output"); [|apply Hrest].
    destruct (get fp "error"); apply Hrest.
  - cbn [snd]. split; [assumption|]. now exists url, k.
Qed.

(** A prediction is polled, then its image is fetched. *)
Lemma await_then_image (image : jsval -> M jsval) j :
  (forall j', fetches_once (image j')) ->
  polls_then_fetches (bind (await_prediction net j) image).
Proof.
  intros Himage w. unfold bind.
  destruct (await_prediction_consecutive j w) as [Ha (url & k & Hk & Ht)].
  destruct (await_prediction net j w) as [[j'|e] w1]; cbn [snd] in *.
  - destruct (Himage j' w1) as [Ha' [fs [Ht' Hfs]]].
    split; [congruence|]. exists url, k, fs.
    split; [assumption|]. split; [|assumption].
    rewrite Ht', Ht. now rewrite <- app_assoc.
  - split; [assumption|]. exists url, k, [].
    split; [assumption|]. split; [now rewrite app_nil_r | now left].
Qed.

Lemma json_image_binary_shape raw j :
  polls_then_fetches (json_image_binary net raw j).
Proof.
  unfold json_image_binary.
  apply polls_then_fetches_bind; [apply silent_lift|]. intros id.
  apply polls_then_fetches_bind; [apply silent_lift|]. intros st.
  destruct (truthy id && truthy st).
  - apply await_then_image, prediction_image_binary_once.
  - apply polls_then_fetches_once, fetches_once_silent.
    hush. all: apply embedded_image_silent; hush.
Qed.

Lemma binary_image_shape raw :
  polls_then_fetches (binary_image JSON_parse net raw).
Proof.
  unfold binary_image.
  apply polls_then_fetches_try; [|intros e; hush]. cbn zeta.
  destruct (looks_like_json (string_of_list_byte raw)).
  - apply polls_then_fetches_bind; [unfold parse; hush|]. intros j.
    apply json_image_binary_shape.
  - apply polls_then_fetches_once, fetches_once_silent. hush.
Qed.

Lemma text_image_shape s :
  polls_then_fetches (text_image JSON_parse net s).
Proof.
  unfold text_image.
  apply polls_then_fetches_bind; [unfold parse; hush|]. intros j.
  apply polls_then_fetches_bind; [apply silent_lift|]. intros id.
  apply polls_then_fetches_bind; [apply silent_lift|]. intros st.
  destruct (truthy id && truthy st).
  - apply await_then_image, prediction_image_text_once.
  - apply polls_then_fetches_once, fetches_once_silent.
    hush. all: apply embedded_image_silent; hush.
Qed.

Lemma extract_image_shape d :
  polls_then_fetches (extract_image JSON_parse Buffer_from net d).
Proof.
  unfold extract_image, select_branch.
  destruct d as [raw|raw|raw|v]; try apply binary_image_shape.
  destruct v; cbn [is_string andb]; try apply text_image_shape;
    apply polls_then_fetches_once, fetches_once_silent; hush.
Qed.

Lemma settle_saves uid b img w :
  accounts (snd (settle JSON_parse uid b img w)) = accounts w
  /\ trace (snd (settle JSON_parse uid b img w)) = trace w
  \/ trace (snd (settle JSON_parse uid b img w))
     = trace w ++ [Save uid (debit b)].
Proof.
  unfold settle. destruct (no_image img); [now left|].
  destruct img; try now left. now right.
Qed.

End HandlerShape.

(** X1. The effects of every run follow the pipeline: nothing at all; or
    the account lookup alone; or the lookup, one POST, the polls of a
    single URL numbered 1 to k with k at most 30, at most one secondary
    fetch, and at most one save, in this order. *)
Theorem effects_follow_the_pipeline JSON_parse Buffer_from env net req w :
  exists evs,
    added w (snd (generateImage JSON_parse Buffer_from env net req w)) evs
    /\ pipeline req evs.
Proof.
  destruct (run_cases JSON_parse Buffer_from env net req w)
    as [[_ Hrun]|(_ & _ & [[_ Hrun]|[(uid & b & _ & _ & _ & Hrun)
          |[(uid & b & _ & _ & Hrun)|[(uid & b & e & _ & _ & _ & Hrun)
          |(uid & b & d & _ & _ & _ & Hrun)]]]])];
    rewrite Hrun; clear Hrun; cbn [snd].
  - exists []. split; [unfold added; now rewrite app_nil_r | now left].
  - exists [FindById (userId req)]. split; [reflexivity | right; now left].
  - exists [FindById (userId req)]. split; [reflexivity | right; now left].
  - exists [FindById (userId req)]. split; [reflexivity | right; now left].
  - exists ([FindById (userId req); Post (prompt req)] ++ polls JNull 0 ++ [] ++ []).
    split; [unfold added, posted; cbn; now rewrite <- app_assoc|].
    right; right. exists JNull, 0, [], [].
    split; [reflexivity|]. split; [unfold maxAttempts; lia|]. split; now left.
  - destruct (extract_image_shape JSON_parse Buffer_from net d (posted req w))
      as [Ha (url & k & fs & Hk & Ht & Hfs)].
    assert (Hposted : trace (posted req w)
                      = trace w ++ [FindById (userId req); Post (prompt req)]).
    { unfold posted. cbn. now rewrite <- app_assoc. }
    destruct (extract_image JSON_parse Buffer_from net d (posted req w))
      as [[img|e] w2]; cbn [snd] in *.
    + destruct (settle_saves JSON_parse uid b img w2) as [[_ Hs]|Hs].
      * exists ([FindById (userId req); Post (prompt req)]
                  ++ polls url k ++ fs ++ []).
        split.
        { unfold added. rewrite Hs, Ht, Hposted, app_nil_r.
          now rewrite <- !app_assoc. }
        right; right. exists url, k, fs, [].
        split; [reflexivity|]. split; [assumption|]. split; [assumption|now left].
      * exists ([FindById (userId req); Post (prompt req)]
                  ++ polls url k ++ fs ++ [Save uid (debit b)]).
        split.
        { unfold added. rewrite Hs, Ht, Hposted. now rewrite <- !app_assoc. }
        right; right. exists url, k, fs, [Save uid (debit b)].
        split; [reflexivity|]. split; [assumption|]. split; [assumption|].
        right. now exists uid, (debit b).
    + exists ([FindById (userId req); Post (prompt req)]
                ++ polls url k ++ fs ++ []).
      split.
      { unfold added. rewrite Ht, Hposted, app_nil_r. now rewrite <- !app_assoc. }
      right; right. exists url, k, fs, [].
      split; [reflexivity|]. split; [assumption|]. split; [assumption|now left].
Qed.

(** ** Validation, the ledger and failure responses *)

Lemma valid_run_looks_up JSON_parse Buffer_from env net req w :
  truthy (userId req) = true -> truthy (prompt req) = true ->
  exists evs,
    trace (snd (generateImage JSON_parse Buffer_from env net req w))
    = trace w ++ FindById (userId req) :: evs.
Proof.
  intros Hu Hp.
  destruct (run_cases JSON_parse Buffer_from env net req w)
    as [[Hbad _]|(_ & _ & [[_ Hrun]|[(uid & b & _ & _ & _ & Hrun)
          |[(uid & b & _ & _ & Hrun)|[(uid & b & e & _ & _ & _ & Hrun)
          |(uid & b & d & _ & _ & _ & Hrun)]]]])].
  { rewrite Hu, Hp in Hbad. discriminate. }
  1-3: rewrite Hrun; now exists [].
  - rewrite Hrun. exists [Post (prompt req)].
    unfold posted. cbn. now rewrite <- app_assoc.
  - rewrite Hrun.
    destruct (extract_image_extends JSON_parse Buffer_from net d (posted req w))
      as [_ [evs [Ht _]]].
    destruct (extract_image JSON_parse Buffer_from net d (posted req w))
      as [[img|e] w2]; cbn [snd] in *.
    + destruct (settle_world JSON_parse uid b img w2) as [evs' [Hs _]].
      exists (Post (prompt req) :: evs ++ evs').
      rewrite Hs, Ht. unfold posted. cbn. now rewrite <- !app_assoc.
    + exists (Post (prompt req) :: evs).
      rewrite Ht. unfold posted. cbn. now rewrite <- !app_assoc.
Qed.

(** X2. The handler answers 400 "Missing userId or prompt." without any
    effect exactly when the user id or the prompt is missing or falsy;
    every other request gets at least as far as the account lookup. *)
Theorem validation_rejects_exactly_missing_fields
    JSON_parse Buffer_from env net req w :
  generateImage JSON_parse Buffer_from env net req w
  = (failure 400 "Missing userId or prompt.", w)
  <-> (truthy (userId req) = false \/ truthy (prompt req) = false).
Proof.
  split.
  - intros Hrun.
    destruct (truthy (userId req)) eqn:Hu; [|now left].
    destruct (truthy (prompt req)) eqn:Hp; [|now right].
    destruct (valid_run_looks_up JSON_parse Buffer_from env net req w Hu Hp)
      as [evs Ht].
    rewrite Hrun in Ht. cbn [snd] in Ht.
    destruct (app_cons_not_nil _ _ _ Ht).
  - intros H. apply run_invalid.
    destruct H as [-> | ->]; [reflexivity | apply orb_true_r].
Qed.

(** X3. A request whose user id resolves to no account is answered 404
    "User not found."; the lookup is the only effect, so nothing is sent
    upstream and no balance changes. *)
Theorem unknown_account_not_found
    JSON_parse Buffer_from env net req w :
  truthy (userId req) = true ->
  truthy (prompt req) = true ->
  (forall uid, userId req = JStr uid -> accounts w !! uid = None) ->
  let res := fst (generateImage JSON_parse Buffer_from env net req w) in
  let w' := snd (generateImage JSON_parse Buffer_from env net req w) in
  res = failure 404 "User not found."
  /\ accounts w' = accounts w
  /\ added w w' [FindById (userId req)].
Proof.
  intros Hu Hp Hnone res w'. subst res w'.
  rewrite (run_unknown JSON_parse Buffer_from env net req w Hu Hp Hnone).
  repeat split.
Qed.

Lemma unknown_account_not_found_witness :
  status (fst (Sample.run Sample.configured (Sample.replying (Buf Sample.png))
                 {| userId := JStr "u2"; prompt := JStr "a red fox" |}
                 (Sample.ledger 5))) = 404%Z.
Proof.
  assert (Hnone : forall uid, JStr "u2" = JStr uid ->
                              accounts (Sample.ledger 5) !! uid = None).
  { intros uid [= <-]. vm_compute. reflexivity. }
  exact (f_equal status
           (proj1 (unknown_account_not_found MiniJSON.parse buffer_from_value
                     Sample.configured (Sample.replying (Buf Sample.png))
                     {| userId := JStr "u2"; prompt := JStr "a red fox" |}
                     (Sample.ledger 5) eq_refl eq_refl Hnone))).
Defined.

(** X4. After any run every account holds what it held before, except
    that the caller's positive balance [b] may have been replaced by
    [Math.max(0, b - 1)]. That value is never negative, it is [b - 1]
    while [b] is at most [2 ^ 53], and it is never more than [b] when [b]
    is a double. No run touches another account. *)
Theorem ledger_changes_only_by_the_debit
    JSON_parse Buffer_from env net req w id :
  let w' := snd (generateImage JSON_parse Buffer_from env net req w) in
  accounts w' !! id = accounts w !! id
  \/ (userId req = JStr id
      /\ exists b, accounts w !! id = Some b /\ (0 < b)%Z
                   /\ accounts w' !! id = Some (debit b)
                   /\ (0 <= debit b)%Z
                   /\ ((b <= MAX_SAFE_BALANCE)%Z -> debit b = (b - 1)%Z)
                   /\ (to_double b = b -> (debit b <= b)%Z)).
Proof.
  intros w'. subst w'.
  destruct (run_inv JSON_parse Buffer_from env net req w)
    as [(_ & Hacc & _)|(uid & b & b64 & w1 & evs & Hadm & Hrun & Hacc & _)].
  - left. now rewrite Hacc.
  - rewrite Hrun. cbn [snd debited accounts]. rewrite Hacc.
    destruct Hadm as (Hid & _ & _ & Hb & Hpos).
    destruct (decide (uid = id)) as [->|Hne].
    + right. split; [assumption|]. exists b.
      split; [assumption|]. split; [assumption|].
      split; [apply lookup_insert_eq|].
      split; [apply debit_nonneg|].
      split; [intros Hsafe; now apply debit_exact | now apply debit_le].
    + left. now apply lookup_insert_ne.
Qed.

Lemma js_or_truthy a b : truthy b = true -> truthy (js_or a b) = true.
Proof. intros H. unfold js_or. now destruct (truthy a) eqn:E. Qed.

Lemma error_of_truthy errorJson errorMessage m :
  truthy errorMessage = true ->
  error_of errorJson errorMessage = Some m -> truthy m = true.
Proof.
  intros H. unfold error_of.
  destruct (get errorJson "error"); [|discriminate].
  destruct (get errorJson "message"); [|discriminate].
  intros [= <-]. now apply js_or_truthy, js_or_truthy.
Qed.

Lemma message_of_truthy v :
  truthy v = true ->
  match v with JStr s => s | _ => "Image generation failed" end <> "".
Proof. destruct v; cbn; try discriminate. now destruct s. Qed.

Lemma catch_response JSON_parse error :
  let res := generateImage_catch JSON_parse error in
  success res = false /\ message res <> ""
  /\ creditBalance res = None /\ resultImage res = None.
Proof.
  cbn zeta. split; [reflexivity|]. split; [|split; reflexivity].
  unfold generateImage_catch. cbn [message].
  apply message_of_truthy.
  assert (Hbase : truthy (js_or (JStr (err_message error))
                            (JStr "Image generation failed")) = true)
    by now apply js_or_truthy.
  destruct (err_response error) as [r|]; [|assumption].
  destruct (resp_data r) as [b|b|b|v]; try assumption.
  - destruct (JSON_parse (string_of_list_byte b)); [|assumption].
    destruct (error_of v _) eqn:E; [|assumption].
    now apply (error_of_truthy _ _ _ Hbase E).
  - destruct (JSON_parse (string_of_list_byte b)); [|assumption].
    destruct (error_of v _) eqn:E; [|assumption].
    now apply (error_of_truthy _ _ _ Hbase E).
  - destruct v; try assumption.
    + destruct (JSON_parse s).
      * destruct (error_of v _) eqn:E.
        -- now apply (error_of_truthy _ _ _ Hbase E).
        -- now apply js_or_truthy.
      * now apply js_or_truthy.
    + now apply js_or_truthy, js_or_truthy.
Qed.

(** X5. Whatever goes wrong, a failure response carries a message that is
    not empty and no image; it reports a balance only when it is the 403
    of an account without credit. *)
Theorem failure_responses_are_well_formed
    JSON_parse Buffer_from env net req w :
  let res := fst (generateImage JSON_parse Buffer_from env net req w) in
  success res = false ->
  message res <> "" /\ resultImage res = None
  /\ (creditBalance res = None \/ status res = 403%Z).
Proof.
  intros res. subst res.
  destruct (run_cases JSON_parse Buffer_from env net req w)
    as [[_ Hrun]|(_ & _ & [[_ Hrun]|[(uid & b & _ & _ & _ & Hrun)
          |[(uid & b & _ & _ & Hrun)|[(uid & b & e & _ & _ & _ & Hrun)
          |(uid & b & d & _ & _ & _ & Hrun)]]]])];
    rewrite Hrun; clear Hrun; cbn [fst]; intros Hfail.
  1-2, 4: repeat split; try discriminate; now left.
  - repeat split; try discriminate. now right.
  - destruct (catch_response JSON_parse e) as (_ & Hm & Hc & Hi).
    repeat split; auto.
  - destruct (extract_image JSON_parse Buffer_from net d (posted req w))
      as [[img|e] w2].
    + unfold settle in *.
      destruct (no_image img).
      { repeat split; try discriminate; now left. }
      destruct img; try discriminate Hfail;
        cbn [fst] in *;
        match goal with
        | |- context [generateImage_catch ?p ?x] =>
            destruct (catch_response p x) as (_ & Hm & Hc & Hi)
        end; repeat split; auto.
    + cbn [fst] in *.
      destruct (catch_response JSON_parse e) as (_ & Hm & Hc & Hi).
      repeat split; auto.
Qed.

Lemma failure_responses_are_well_formed_witness :
  message (fst (Sample.run Sample.configured
                  (Sample.replying (Val (JStr "<html>Bad Gateway</html>")))
                  (Sample.ask "a red fox") (Sample.ledger 5)))
  <> "".
Proof.
  exact (proj1 (failure_responses_are_well_formed MiniJSON.parse
                  buffer_from_value Sample.configured
                  (Sample.replying (Val (JStr "<html>Bad Gateway</html>")))
                  (Sample.ask "a red fox") (Sample.ledger 5) eq_refl)).
Defined.

(** X6. When the upstream rejects the POST with an HTTP status and a body
    that is the JSON text of an object with a non-empty [error] string,
    the caller receives that status and that string; nothing is debited. *)
Theorem upstream_status_and_error_are_passed_on
    JSON_parse Buffer_from env net req w uid b e r body fs m :
  admitted req w uid b ->
  truthy (HF_TOKEN env) = true ->
  post net (prompt req) = Rejected e ->
  err_response e = Some r ->
  resp_data r = Buf body ->
  resp_status r <> 0%Z ->
  JSON_parse (string_of_list_byte body) = Parsed (JObj fs) ->
  lookup_field "error" fs = JStr m ->
  m <> "" ->
  generateImage JSON_parse Buffer_from env net req w
  = (failure (resp_status r) m, posted req w).
Proof.
  intros Hadm Htok Hpost Hresp Hdata Hstatus Hparse Herr Hm.
  rewrite (run_rejected _ _ _ _ req w uid b e Hadm Htok Hpost).
  f_equal. unfold generateImage_catch, failure.
  rewrite Hresp, Hdata, Hparse.
  unfold error_of. cbn [get]. rewrite Herr.
  apply Z.eqb_neq in Hstatus. rewrite Hstatus.
  destruct m as [|c m]; [congruence|]. reflexivity.
Qed.

Lemma upstream_status_and_error_are_passed_on_witness :
  Sample.run Sample.configured
    {| post := fun _ => Rejected
                 {| err_message := "Request failed with status code 503";
                    err_response :=
                      Some {| resp_status := 503;
                              resp_data := Buf (Sample.bytes Sample.error_text) |} |};
       poll := fun _ _ => Rejected (Error "Network Error");
       fetch := fun _ => Rejected (Error "Network Error") |}
    (Sample.ask "a red fox") (Sample.ledger 5)
  = (failure 503 "model overloaded", posted (Sample.ask "a red fox") (Sample.ledger 5)).
Proof.
  assert (Hadm : admitted (Sample.ask "a red fox") (Sample.ledger 5) "u1" 5).
  { unfold admitted. repeat split; vm_compute; reflexivity. }
  exact (upstream_status_and_error_are_passed_on MiniJSON.parse buffer_from_value
           Sample.configured
           {| post := fun _ => Rejected
                 {| err_message := "Request failed with status code 503";
                    err_response :=
                      Some {| resp_status := 503;
                              resp_data := Buf (Sample.bytes Sample.error_text) |} |};
              poll := fun _ _ => Rejected (Error "Network Error");
              fetch := fun _ => Rejected (Error "Network Error") |}
           (Sample.ask "a red fox") (Sample.ledger 5) "u1" 5
           {| err_message := "Request failed with status code 503";
              err_response :=
                Some {| resp_status := 503;
                        resp_data := Buf (Sample.bytes Sample.error_text) |} |}
           {| resp_status := 503;
              resp_data := Buf (Sample.bytes Sample.error_text) |}
           (Sample.bytes Sample.error_text)
           [("error", JStr "model overloaded")] "model overloaded"
           Hadm eq_refl eq_refl eq_refl eq_refl ltac:(discriminate)
           eq_refl eq_refl ltac:(discriminate)).
Defined.

(** X7. When the POST fails without any HTTP response (a network error or
    a timeout), the caller receives status 500 with the error's own
    message, or "Image generation failed" when it has none; nothing is
    debited. *)
Theorem transport_error_is_reported
    JSON_parse Buffer_from env net req w uid b e :
  admitted req w uid b ->
  truthy (HF_TOKEN env) = true ->
  post net (prompt req) = Rejected e ->
  err_response e = None ->
  generateImage JSON_parse Buffer_from env net req w
  = (failure 500 (if String.eqb (err_message e) ""
                  then "Image generation failed" else err_message e),
     posted req w).
Proof.
  intros Hadm Htok Hpost Hresp.
  rewrite (run_rejected _ _ _ _ req w uid b e Hadm Htok Hpost).
  f_equal. unfold generateImage_catch, failure, js_or. rewrite Hresp.
  cbn [truthy]. now destruct (String.eqb (err_message e) "").
Qed.

Lemma transport_error_is_reported_witness :
  Sample.run Sample.configured
    {| post := fun _ => Rejected (Error "timeout of 120000ms exceeded");
       poll := fun _ _ => Rejected (Error "Network Error");
       fetch := fun _ => Rejected (Error "Network Error") |}
    (Sample.ask "a red fox") (Sample.ledger 5)
  = (failure 500 "timeout of 120000ms exceeded",
     posted (Sample.ask "a red fox") (Sample.ledger 5)).
Proof.
  assert (Hadm : admitted (Sample.ask "a red fox") (Sample.ledger 5) "u1" 5).
  { unfold admitted. repeat split; vm_compute; reflexivity. }
  exact (transport_error_is_reported MiniJSON.parse buffer_from_value
           Sample.configured
           {| post := fun _ => Rejected (Error "timeout of 120000ms exceeded");
              poll := fun _ _ => Rejected (Error "Network Error");
              fetch := fun _ => Rejected (Error "Network Error") |}
           (Sample.ask "a red fox") (Sample.ledger 5) "u1" 5
           (Error "timeout of 120000ms exceeded")
           Hadm eq_refl eq_refl eq_refl).
Defined.

(** ** Replies that carry their image *)

Lemma append_cons c r x : String c r +:+ x = String c (r +:+ x).
Proof. reflexivity. Qed.

Lemma skip_word_run r rest :
  r = "" \/ is_word_run r = true ->
  skip_word (r +:+ String ";" rest) = String ";" rest.
Proof.
  induction r as [|c r IH]; intros H; [reflexivity|].
  destruct H as [H|H]; [discriminate|].
  rewrite append_cons. cbn [skip_word].
  destruct r as [|c' r].
  - cbn [is_word_run] in H. rewrite H. reflexivity.
  - cbn [is_word_run] in H. apply andb_prop in H as [Hc Hr].
    rewrite Hc. apply IH. now right.
Qed.

Lemma strip_data_uri_any_type ty p :
  is_word_run ty = true ->
  strip_data_uri ("data:image/" +:+ ty +:+ ";base64," +:+ p) = p.
Proof.
  intros Hty. unfold strip_data_uri.
  destruct ty as [|c r]; [discriminate|].
  assert (Hc : is_word c = true).
  { destruct r; cbn [is_word_run] in Hty; [assumption|].
    now apply andb_prop in Hty as [Hc _]. }
  assert (Hr : r = "" \/ is_word_run r = true).
  { destruct r; [now left|]. right.
    cbn [is_word_run] in Hty. now apply andb_prop in Hty as [_ Hr]. }
  change ("data:image/" +:+ String c r +:+ ";base64," +:+ p)
    with ("data:image/" +:+ String c (r +:+ String ";" ("base64," +:+ p))).
  change (strip_prefix "data:image/"
            ("data:image/" +:+ String c (r +:+ String ";" ("base64," +:+ p))))
    with (Some (String c (r +:+ String ";" ("base64," +:+ p)))).
  cbv beta iota. rewrite Hc, (skip_word_run r _ Hr). reflexivity.
Qed.

Section Embedded.

Variable JSON_parse : string -> parse_result.
Variable Buffer_from : jsval -> list byte + string.
Variable env : process_env.
Variable net : upstream.

Lemma embedded_image_spec fs (other : M jsval) w :
  embedded_image (JObj fs) other w
  = match embedded fs with
    | Some v => (Ok v, w)
    | None => other w
    end.
Proof.
  unfold embedded_image, embedded, bind, lift, ret. cbn [get].
  destruct (truthy (lookup_field "images" fs)
            && is_array (lookup_field "images" fs)
            && truthy (first_item (lookup_field "images" fs))); [reflexivity|].
  now destruct (truthy (lookup_field "image" fs)).
Qed.

(** Extraction from a reply that is neither a prediction nor an error. *)
Lemma extract_image_plain d fs w :
  plain_json_reply JSON_parse d fs ->
  extract_image JSON_parse Buffer_from net d w
  = match embedded fs, d with
    | Some v, _ => (Ok v, w)
    | None, (Buf raw | ArrBuf raw | U8Arr raw) => (Ok (JStr (base64 raw)), w)
    | None, Val _ =>
        (Throw (Error "No image data found in JSON response"), w)
    end.
Proof.
  intros (Hreply & Hid & Herr & Hmsg).
  assert (Hbin : forall raw,
             looks_like_json (string_of_list_byte raw) = true
             /\ JSON_parse (string_of_list_byte raw) = Parsed (JObj fs) ->
             binary_image JSON_parse net raw w
             = match embedded fs with
               | Some v => (Ok v, w)
               | None => (Ok (JStr (base64 raw)), w)
               end).
  { intros raw [Hlook Hparse].
    unfold binary_image, try_catch, parse. cbn zeta. rewrite Hlook, Hparse.
    unfold json_image_binary.
    unfold bind at 1. unfold ret at 1.
    unfold bind at 1. unfold lift at 1.
    unfold bind at 1. unfold lift at 1.
    cbn [get]. rewrite Hid.
    unfold bind at 1. unfold lift at 1.
    unfold bind at 1. unfold lift at 1.
    cbn [get]. rewrite Herr, Hmsg. cbn [orb].
    rewrite embedded_image_spec. now destruct (embedded fs). }
  destruct d as [raw|raw|raw|v]; cbn [json_reply] in Hreply.
  1-3: rewrite extract_image_bytes with (raw := raw) by reflexivity;
    rewrite (Hbin raw Hreply); now destruct (embedded fs).
  destruct v; try contradiction.
  rewrite extract_image_text.
  unfold text_image, parse. rewrite Hreply.
  unfold bind at 1. unfold ret at 1.
  unfold bind at 1. unfold lift at 1.
  unfold bind at 1. unfold lift at 1.
  cbn [get]. rewrite Hid.
  unfold bind at 1. unfold lift at 1.
  unfold bind at 1. unfold lift at 1.
  cbn [get]. rewrite Herr, Hmsg. cbn [orb].
  rewrite embedded_image_spec. now destruct (embedded fs).
Qed.

End Embedded.

(** X8. For a JSON reply that is neither a prediction nor an error object,
    the first element of its [images] array, when it is a non-empty
    string, is the image: it wins over an [image] field, loses a leading
    data-URI prefix, and is returned as a PNG data URI, with one debit. *)
Theorem images_array_takes_priority
    JSON_parse Buffer_from env net req w uid b d fs s rest :
  admitted req w uid b ->
  truthy (HF_TOKEN env) = true ->
  post net (prompt req) = Resolved d ->
  plain_json_reply JSON_parse d fs ->
  lookup_field "images" fs = JArr (JStr s :: rest) ->
  s <> "" ->
  generateImage JSON_parse Buffer_from env net req w
  = (succeeded (debit b) ("data:image/png;base64," +:+ strip_data_uri s),
     debited uid (debit b) (posted req w)).
Proof.
  intros Hadm Htok Hpost Hplain Himages Hs.
  rewrite (run_resolved _ _ _ _ req w uid b d Hadm Htok Hpost).
  rewrite (extract_image_plain JSON_parse Buffer_from net d fs _ Hplain).
  unfold embedded. rewrite Himages.
  destruct s as [|c s]; [congruence|].
  cbn [truthy is_array first_item andb String.eqb negb].
  apply settle_text.
Qed.

Lemma images_array_takes_priority_witness :
  fst (Sample.run Sample.configured
         (Sample.replying
            (Buf (Sample.bytes (MiniJSON.text "{'images':['QUJD'],'image':'WFla'}"))))
         (Sample.ask "a red fox") (Sample.ledger 5))
  = succeeded 4 "data:image/png;base64,QUJD".
Proof.
  assert (Hadm : admitted (Sample.ask "a red fox") (Sample.ledger 5) "u1" 5).
  { unfold admitted. repeat split; vm_compute; reflexivity. }
  assert (Hplain :
            plain_json_reply MiniJSON.parse
              (Buf (Sample.bytes (MiniJSON.text "{'images':['QUJD'],'image':'WFla'}")))
              [("images", JArr [JStr "QUJD"]); ("image", JStr "WFla")]).
  { repeat split; vm_compute; reflexivity. }
  exact (f_equal fst
           (images_array_takes_priority MiniJSON.parse buffer_from_value
              Sample.configured
              (Sample.replying
                 (Buf (Sample.bytes (MiniJSON.text "{'images':['QUJD'],'image':'WFla'}"))))
              (Sample.ask "a red fox") (Sample.ledger 5) "u1" 5
              (Buf (Sample.bytes (MiniJSON.text "{'images':['QUJD'],'image':'WFla'}")))
              [("images", JArr [JStr "QUJD"]); ("image", JStr "WFla")]
              "QUJD" [] Hadm eq_refl eq_refl Hplain eq_refl ltac:(discriminate))).
Defined.

(** X9. An embedded image that is itself a data URI of any image type
    ([data:image/<type>;base64,<payload>]) is re-wrapped as PNG: the
    result is [data:image/png;base64,<payload>], with the payload
    untouched. *)
Theorem data_uri_of_any_type_is_rewrapped
    JSON_parse Buffer_from env net req w uid b d fs ty p :
  admitted req w uid b ->
  truthy (HF_TOKEN env) = true ->
  post net (prompt req) = Resolved d ->
  plain_json_reply JSON_parse d fs ->
  truthy (lookup_field "images" fs) = false ->
  lookup_field "image" fs = JStr ("data:image/" +:+ ty +:+ ";base64," +:+ p) ->
  is_word_run ty = true ->
  generateImage JSON_parse Buffer_from env net req w
  = (succeeded (debit b) ("data:image/png;base64," +:+ p),
     debited uid (debit b) (posted req w)).
Proof.
  intros Hadm Htok Hpost Hplain Himages Himage Hty.
  rewrite (run_resolved _ _ _ _ req w uid b d Hadm Htok Hpost).
  rewrite (extract_image_plain JSON_parse Buffer_from net d fs _ Hplain).
  unfold embedded. rewrite Himages, Himage.
  cbn [andb].
  change ("data:image/" +:+ ty +:+ ";base64," +:+ p)
    with (String "d" ("ata:image/" +:+ ty +:+ ";base64," +:+ p)).
  cbn [truthy String.eqb negb].
  rewrite settle_text.
  change (String "d" ("ata:image/" +:+ ty +:+ ";base64," +:+ p))
    with ("data:image/" +:+ ty +:+ ";base64," +:+ p).
  now rewrite strip_data_uri_any_type.
Qed.

Lemma data_uri_of_any_type_is_rewrapped_witness :
  fst (Sample.run Sample.configured
         (Sample.replying
            (Val (JStr (MiniJSON.text "{'image':'data:image/jpeg;base64,QUJD'}"))))
         (Sample.ask "a red fox") (Sample.ledger 5))
  = succeeded 4 "data:image/png;base64,QUJD".
Proof.
  assert (Hadm : admitted (Sample.ask "a red fox") (Sample.ledger 5) "u1" 5).
  { unfold admitted. repeat split; vm_compute; reflexivity. }
  assert (Hplain :
            plain_json_reply MiniJSON.parse
              (Val (JStr (MiniJSON.text "{'image':'data:image/jpeg;base64,QUJD'}")))
              [("image", JStr "data:image/jpeg;base64,QUJD")]).
  { repeat split; vm_compute; reflexivity. }
  exact (f_equal fst
           (data_uri_of_any_type_is_rewrapped MiniJSON.parse buffer_from_value
              Sample.configured
              (Sample.replying
                 (Val (JStr (MiniJSON.text "{'image':'data:image/jpeg;base64,QUJD'}"))))
              (Sample.ask "a red fox") (Sample.ledger 5) "u1" 5
              (Val (JStr (MiniJSON.text "{'image':'data:image/jpeg;base64,QUJD'}")))
              [("image", JStr "data:image/jpeg;base64,QUJD")]
              "jpeg" "QUJD" Hadm eq_refl eq_refl Hplain eq_refl eq_refl eq_refl)).
Defined.

(** X10. A JSON reply delivered as a string that is neither a prediction
    nor an error object and embeds no image is refused: status 500 with
    "No image data found in JSON response", and no debit. *)
Theorem json_text_without_image_is_refused
    JSON_parse Buffer_from env net req w uid b s fs :
  admitted req w uid b ->
  truthy (HF_TOKEN env) = true ->
  post net (prompt req) = Resolved (Val (JStr s)) ->
  plain_json_reply JSON_parse (Val (JStr s)) fs ->
  embedded fs = None ->
  generateImage JSON_parse Buffer_from env net req w
  = (failure 500 "No image data found in JSON response", posted req w).
Proof.
  intros Hadm Htok Hpost Hplain Hnone.
  rewrite (run_resolved _ _ _ _ req w uid b _ Hadm Htok Hpost).
  rewrite (extract_image_plain JSON_parse Buffer_from net _ fs _ Hplain).
  rewrite Hnone. reflexivity.
Qed.

Lemma json_text_without_image_is_refused_witness :
  Sample.run Sample.configured
    (Sample.replying (Val (JStr (MiniJSON.text "{'seed': 42}"))))
    (Sample.ask "a red fox") (Sample.ledger 5)
  = (failure 500 "No image data found in JSON response",
     posted (Sample.ask "a red fox") (Sample.ledger 5)).
Proof.
  assert (Hadm : admitted (Sample.ask "a red fox") (Sample.ledger 5) "u1" 5).
  { unfold admitted. repeat split; vm_compute; reflexivity. }
  assert (Hplain :
            plain_json_reply MiniJSON.parse
              (Val (JStr (MiniJSON.text "{'seed': 42}"))) [("seed", JNum 42)]).
  { repeat split; vm_compute; reflexivity. }
  exact (json_text_without_image_is_refused MiniJSON.parse buffer_from_value
           Sample.configured
           (Sample.replying (Val (JStr (MiniJSON.text "{'seed': 42}"))))
           (Sample.ask "a red fox") (Sample.ledger 5) "u1" 5
           (MiniJSON.text "{'seed': 42}") [("seed", JNum 42)]
           Hadm eq_refl eq_refl Hplain eq_refl).
Defined.

(** X11. A binary reply without any bytes yields no image: the caller gets
    status 500 "No image data returned from Hugging Face API." and nothing
    is debited. *)
Theorem empty_reply_has_no_image
    JSON_parse Buffer_from env net req w uid b d :
  admitted req w uid b ->
  truthy (HF_TOKEN env) = true ->
  post net (prompt req) = Resolved d ->
  bytes_of d = Some [] ->
  generateImage JSON_parse Buffer_from env net req w
  = (failure 500 "No image data returned from Hugging Face API.", posted req w).
Proof.
  intros Hadm Htok Hpost Hbytes.
  rewrite (run_resolved _ _ _ _ req w uid b d Hadm Htok Hpost).
  rewrite (extract_image_bytes _ _ _ d [] Hbytes).
  rewrite binary_image_blob by reflexivity.
  reflexivity.
Qed.

Lemma empty_reply_has_no_image_witness :
  Sample.run Sample.configured (Sample.replying (Buf []))
    (Sample.ask "a red fox") (Sample.ledger 5)
  = (failure 500 "No image data returned from Hugging Face API.",
     posted (Sample.ask "a red fox") (Sample.ledger 5)).
Proof.
  assert (Hadm : admitted (Sample.ask "a red fox") (Sample.ledger 5) "u1" 5).
  { unfold admitted. repeat split; vm_compute; reflexivity. }
  exact (empty_reply_has_no_image MiniJSON.parse buffer_from_value
           Sample.configured (Sample.replying (Buf []))
           (Sample.ask "a red fox") (Sample.ledger 5) "u1" 5 (Buf [])
           Hadm eq_refl eq_refl eq_refl).
Defined.

(** ** Predictions *)

Section Settled.

Variable JSON_parse : string -> parse_result.
Variable Buffer_from : jsval -> list byte + string.
Variable env : process_env.
Variable net : upstream.

(** Extraction from a prediction that is not pending: no polling. *)
Lemma binary_image_settled raw fs st w :
  looks_like_json (string_of_list_byte raw) = true ->
  JSON_parse (string_of_list_byte raw) = Parsed (JObj fs) ->
  truthy (lookup_field "id" fs) = true ->
  lookup_field "status" fs = st -> truthy st = true -> transient st = false ->
  binary_image JSON_parse net raw w
  = match prediction_image_binary net (JObj fs) w with
    | (Ok img, w2) => (Ok img, w2)
    | (Throw e, w2) =>
        if includes (err_message e) "processing"
           || includes (err_message e) "Status:"
        then (Throw e, w2)
        else (Ok (JStr (base64 raw)), w2)
    end.
Proof.
  intros Hlook Hparse Hid Hst Htruthy Hsettled.
  unfold binary_image, try_catch, parse. cbn zeta. rewrite Hlook, Hparse.
  unfold bind at 1. unfold ret at 1.
  unfold json_image_binary.
  unfold bind at 1. unfold lift at 1. unfold bind at 1. unfold lift at 1.
  cbn [get]. rewrite Hid, Hst, Htruthy. cbn [andb].
  unfold bind at 1.
  rewrite await_prediction_settled by now rewrite Hst.
  destruct (prediction_image_binary net (JObj fs) w) as [[img|e] w2];
    [reflexivity|].
  unfold throw, ret.
  now destruct (includes (err_message e) "processing"
                || includes (err_message e) "Status:").
Qed.

Lemma text_image_settled s fs st w :
  JSON_parse s = Parsed (JObj fs) ->
  truthy (lookup_field "id" fs) = true ->
  lookup_field "status" fs = st -> truthy st = true -> transient st = false ->
  text_image JSON_parse net s w = prediction_image_text net (JObj fs) w.
Proof.
  intros Hparse Hid Hst Htruthy Hsettled.
  unfold text_image, parse. rewrite Hparse.
  unfold bind at 1. unfold ret at 1.
  unfold bind at 1. unfold lift at 1. unfold bind at 1. unfold lift at 1.
  cbn [get]. rewrite Hid, Hst, Htruthy. cbn [andb].
  unfold bind at 1.
  rewrite await_prediction_settled by now rewrite Hst.
  reflexivity.
Qed.

Lemma extract_image_settled_fetches d fs st w :
  settled_prediction JSON_parse d fs st ->
  accounts (snd (extract_image JSON_parse Buffer_from net d w)) = accounts w
  /\ exists evs,
       trace (snd (extract_image JSON_parse Buffer_from net d w)) = trace w ++ evs
       /\ forallb is_fetch evs = true.
Proof.
  intros (Hreply & Hid & Hst & Htruthy & Hsettled).
  destruct d as [raw|raw|raw|v]; cbn [json_reply] in Hreply.
  1-3: destruct Hreply as [Hlook Hparse];
    rewrite extract_image_bytes with (raw := raw) by reflexivity;
    rewrite (binary_image_settled raw fs st w Hlook Hparse Hid Hst Htruthy Hsettled);
    destruct (prediction_image_binary_fetches net (JObj fs) w) as [Ha [evs [Ht Hf]]];
    destruct (prediction_image_binary net (JObj fs) w) as [[img|e] w2];
    cbn [snd] in *;
    [|destruct (includes (err_message e) "processing"
                || includes (err_message e) "Status:"); cbn [snd]];
    (split; [assumption | now exists evs]).
  destruct v; try contradiction.
  rewrite extract_image_text.
  rewrite (text_image_settled s fs st w Hreply Hid Hst Htruthy Hsettled).
  destruct (prediction_image_text_fetches net (JObj fs) w) as [Ha [evs [Ht Hf]]].
  split; [assumption | now exists evs].
Qed.

(** A succeeded prediction whose first output is a URL: one fetch. *)
Lemma extract_image_fetch d fs rest url bytes w :
  settled_prediction JSON_parse d fs (JStr "succeeded") ->
  lookup_field "output" fs = JArr (JStr url :: rest) ->
  is_http url = true ->
  fetch net url = Resolved bytes ->
  extract_image JSON_parse Buffer_from net d w
  = (Ok (JStr (base64 bytes)), fetched url w).
Proof.
  intros (Hreply & Hid & Hst & Htruthy & Hsettled) Hout Hhttp Hfetch.
  destruct url as [|c u] eqn:Eurl; [discriminate Hhttp|].
  rewrite <- Eurl in *.
  assert (Hurl : truthy (JStr url) = true) by now rewrite Eurl.
  clear Eurl.
  assert (Hbin : prediction_image_binary net (JObj fs) w
                 = (Ok (JStr (base64 bytes)), fetched url w)).
  { unfold prediction_image_binary, bind, lift. cbn [get].
    rewrite Hst, Hout.
    cbn [str_is String.eqb Ascii.eqb Bool.eqb andb is_array first_item].
    change (truthy (JArr (JStr url :: rest))) with true.
    rewrite Hurl, Hhttp. unfold fetch_base64, bind, emit. now rewrite Hfetch. }
  assert (Htxt : prediction_image_text net (JObj fs) w
                 = (Ok (JStr (base64 bytes)), fetched url w)).
  { unfold prediction_image_text, bind, lift. cbn [get].
    rewrite Hst, Hout.
    cbn [str_is String.eqb Ascii.eqb Bool.eqb andb is_array first_item].
    change (truthy (JArr (JStr url :: rest))) with true.
    rewrite Hhttp. unfold fetch_base64, bind, emit. now rewrite Hfetch. }
  destruct d as [raw|raw|raw|v]; cbn [json_reply] in Hreply.
  1-3: destruct Hreply as [Hlook Hparse];
    rewrite extract_image_bytes with (raw := raw) by reflexivity;
    now rewrite (binary_image_settled raw fs _ w Hlook Hparse Hid Hst Htruthy Hsettled),
      Hbin.
  destruct v; try contradiction.
  rewrite extract_image_text.
  now rewrite (text_image_settled s fs _ w Hreply Hid Hst Htruthy Hsettled), Htxt.
Qed.

End Settled.

(** Whatever the parser: a failed prediction that arrives in a buffer, with
    an error text that mentions neither [processing] nor [Status:], is
    answered as a success and debited. *)
Lemma failed_prediction_in_buffer_is_swallowed
    JSON_parse Buffer_from env net req w uid b d raw fs m :
  admitted req w uid b ->
  truthy (HF_TOKEN env) = true ->
  post net (prompt req) = Resolved d ->
  bytes_of d = Some raw ->
  looks_like_json (string_of_list_byte raw) = true ->
  JSON_parse (string_of_list_byte raw) = Parsed (JObj fs) ->
  truthy (lookup_field "id" fs) = true ->
  lookup_field "status" fs = JStr "failed" ->
  lookup_field "error" fs = JStr m ->
  includes m "processing" || includes m "Status:" = false ->
  generateImage JSON_parse Buffer_from env net req w
  = (succeeded (debit b) ("data:image/png;base64," +:+ base64 raw),
     debited uid (debit b) (posted req w)).
Proof.
  intros Hadm Htok Hpost Hbytes Hlook Hparse Hid Hst Herr Hinc.
  rewrite (run_resolved _ _ _ _ req w uid b d Hadm Htok Hpost).
  rewrite (extract_image_bytes _ _ _ d raw Hbytes).
  rewrite (binary_image_settled JSON_parse net raw fs (JStr "failed")
             (posted req w) Hlook Hparse Hid Hst eq_refl eq_refl).
  assert (Hthrown : exists e,
             prediction_image_binary net (JObj fs) (posted req w)
             = (Throw (Error e), posted req w)
             /\ includes e "processing" || includes e "Status:" = false).
  { unfold prediction_image_binary, bind, lift. cbn [get]. rewrite Hst.
    cbn [str_is String.eqb Ascii.eqb Bool.eqb andb].
    unfold prediction_failure, bind, lift. cbn [get str_is String.eqb Ascii.eqb Bool.eqb].
    rewrite Herr. destruct m as [|c m].
    - exists "Image generation failed". split; reflexivity.
    - exists (String c m). split; [reflexivity|assumption]. }
  destruct Hthrown as (e & -> & He).
  cbn [err_message Error]. rewrite He.
  apply settle_base64.
  intros ->. cbn in Hlook. discriminate.
Qed.

(** X12. When a prediction has succeeded and its first output is an
    http(s) URL, the image is fetched from that URL, once, without any
    polling; the payload of the result is the base64 of the fetched bytes
    and decodes to them, and the account is debited once. *)
Theorem image_is_fetched_from_output_url
    JSON_parse Buffer_from env net req w uid b d fs rest url bytes :
  admitted req w uid b ->
  truthy (HF_TOKEN env) = true ->
  post net (prompt req) = Resolved d ->
  settled_prediction JSON_parse d fs (JStr "succeeded") ->
  lookup_field "output" fs = JArr (JStr url :: rest) ->
  is_http url = true ->
  fetch net url = Resolved bytes ->
  bytes <> [] ->
  generateImage JSON_parse Buffer_from env net req w
  = (succeeded (debit b) ("data:image/png;base64," +:+ base64 bytes),
     debited uid (debit b) (fetched url (posted req w)))
  /\ base64_decode (base64 bytes) = Some bytes.
Proof.
  intros Hadm Htok Hpost Hsettled Hout Hhttp Hfetch Hbytes.
  split; [|apply base64_decode_encode].
  rewrite (run_resolved _ _ _ _ req w uid b d Hadm Htok Hpost).
  rewrite (extract_image_fetch JSON_parse Buffer_from net d fs rest url bytes _
             Hsettled Hout Hhttp Hfetch).
  apply settle_base64; assumption.
Qed.

Lemma image_is_fetched_from_output_url_witness :
  fst (Sample.run Sample.configured
         {| post := fun _ =>
              Resolved (Buf (Sample.bytes
                (MiniJSON.text
                   "{'id':'p1','status':'succeeded','output':['https://cdn.example/a.png']}")));
            poll := fun _ _ => Rejected (Error "Network Error");
            fetch := fun _ => Resolved Sample.png |}
         (Sample.ask "a red fox") (Sample.ledger 5))
  = succeeded 4 "data:image/png;base64,iVBORw0KGgo=".
Proof.
  assert (Hadm : admitted (Sample.ask "a red fox") (Sample.ledger 5) "u1" 5).
  { unfold admitted. repeat split; vm_compute; reflexivity. }
  assert (Hsettled :
            settled_prediction MiniJSON.parse
              (Buf (Sample.bytes
                (MiniJSON.text
                   "{'id':'p1','status':'succeeded','output':['https://cdn.example/a.png']}")))
              [("id", JStr "p1"); ("status", JStr "succeeded");
               ("output", JArr [JStr "https://cdn.example/a.png"])]
              (JStr "succeeded")).
  { repeat split; vm_compute; reflexivity. }
  exact (f_equal fst
           (proj1 (image_is_fetched_from_output_url MiniJSON.parse buffer_from_value
              Sample.configured
              {| post := fun _ =>
                   Resolved (Buf (Sample.bytes
                     (MiniJSON.text
                        "{'id':'p1','status':'succeeded','output':['https://cdn.example/a.png']}")));
                 poll := fun _ _ => Rejected (Error "Network Error");
                 fetch := fun _ => Resolved Sample.png |}
              (Sample.ask "a red fox") (Sample.ledger 5) "u1" 5
              (Buf (Sample.bytes
                (MiniJSON.text
                   "{'id':'p1','status':'succeeded','output':['https://cdn.example/a.png']}")))
              [("id", JStr "p1"); ("status", JStr "succeeded");
               ("output", JArr [JStr "https://cdn.example/a.png"])]
              [] "https://cdn.example/a.png" Sample.png
              Hadm eq_refl eq_refl Hsettled eq_refl eq_refl eq_refl
              ltac:(discriminate)))).
Defined.

(** X13. A reply that is a prediction with any status other than
    [starting] and [processing] is never polled. *)
Theorem settled_prediction_is_not_polled
    JSON_parse Buffer_from env net req w uid b d fs st :
  admitted req w uid b ->
  truthy (HF_TOKEN env) = true ->
  post net (prompt req) = Resolved d ->
  settled_prediction JSON_parse d fs st ->
  exists evs,
    added w (snd (generateImage JSON_parse Buffer_from env net req w)) evs
    /\ count is_poll evs = 0.
Proof.
  intros Hadm Htok Hpost Hsettled.
  rewrite (run_resolved _ _ _ _ req w uid b d Hadm Htok Hpost).
  destruct (extract_image_settled_fetches JSON_parse Buffer_from net d fs st
              (posted req w) Hsettled) as [_ [evs [Ht Hf]]].
  assert (Hc : count is_poll evs = 0)
    by exact (count_none is_poll is_fetch evs fetch_not_poll Hf).
  assert (Hposted : trace (posted req w)
                    = trace w ++ [FindById (userId req); Post (prompt req)]).
  { unfold posted. cbn. now rewrite <- app_assoc. }
  destruct (extract_image JSON_parse Buffer_from net d (posted req w))
    as [[img|e] w2]; cbn [snd] in *.
  - destruct (settle_world JSON_parse uid b img w2) as [evs' [Hs1 Hs2]].
    exists ([FindById (userId req); Post (prompt req)] ++ evs ++ evs'). split.
    + unfold added. rewrite Hs1, Ht, Hposted. now rewrite <- !app_assoc.
    + rewrite !count_app, Hc, Hs2, count_prelude by reflexivity. reflexivity.
  - exists ([FindById (userId req); Post (prompt req)] ++ evs). split.
    + unfold added. rewrite Ht, Hposted. now rewrite <- !app_assoc.
    + rewrite count_app, Hc, count_prelude by reflexivity. reflexivity.
Qed.

Lemma settled_prediction_is_not_polled_witness :
  exists evs,
    added (Sample.ledger 5)
      (snd (Sample.run Sample.configured
              (Sample.replying (Buf (Sample.bytes Sample.succeeded_text)))
              (Sample.ask "a red fox") (Sample.ledger 5))) evs
    /\ count is_poll evs = 0.
Proof.
  assert (Hadm : admitted (Sample.ask "a red fox") (Sample.ledger 5) "u1" 5).
  { unfold admitted. repeat split; vm_compute; reflexivity. }
  assert (Hsettled :
            settled_prediction MiniJSON.parse
              (Buf (Sample.bytes Sample.succeeded_text))
              [("id", JStr "p1"); ("status", JStr "succeeded");
               ("output", JArr [JStr "data:image/png;base64,QUJD"])]
              (JStr "succeeded")).
  { repeat split; vm_compute; reflexivity. }
  exact (settled_prediction_is_not_polled MiniJSON.parse buffer_from_value
           Sample.configured
           (Sample.replying (Buf (Sample.bytes Sample.succeeded_text)))
           (Sample.ask "a red fox") (Sample.ledger 5) "u1" 5
           (Buf (Sample.bytes Sample.succeeded_text))
           [("id", JStr "p1"); ("status", JStr "succeeded");
            ("output", JArr [JStr "data:image/png;base64,QUJD"])]
           (JStr "succeeded") Hadm eq_refl eq_refl Hsettled).
Defined.

(** X14. A prediction that the upstream reports as [failed] in a reply
    delivered as a string ends the request with status 500 and the
    upstream's error text, or "Image generation failed" when that text is
    empty; nothing is polled, fetched or debited. *)
Theorem failed_prediction_is_reported
    JSON_parse Buffer_from env net req w uid b s fs m :
  admitted req w uid b ->
  truthy (HF_TOKEN env) = true ->
  post net (prompt req) = Resolved (Val (JStr s)) ->
  settled_prediction JSON_parse (Val (JStr s)) fs (JStr "failed") ->
  lookup_field "error" fs = JStr m ->
  generateImage JSON_parse Buffer_from env net req w
  = (failure 500 (if String.eqb m "" then "Image generation failed" else m),
     posted req w).
Proof.
  intros Hadm Htok Hpost (Hreply & Hid & Hst & Htruthy & Hsettled) Herr.
  rewrite (run_resolved _ _ _ _ req w uid b _ Hadm Htok Hpost).
  rewrite extract_image_text.
  rewrite (text_image_settled JSON_parse net s fs _ _ Hreply Hid Hst Htruthy Hsettled).
  unfold prediction_image_text, bind, lift. cbn [get]. rewrite Hst.
  cbn [str_is String.eqb Ascii.eqb Bool.eqb andb].
  unfold prediction_failure, bind, lift.
  cbn [str_is String.eqb Ascii.eqb Bool.eqb get]. rewrite Herr.
  destruct m as [|c m]; reflexivity.
Qed.

Lemma failed_prediction_is_reported_witness :
  Sample.run Sample.configured
    (Sample.replying
       (Val (JStr (MiniJSON.text "{'id':'p1','status':'failed','error':'NSFW content detected'}"))))
    (Sample.ask "a red fox") (Sample.ledger 5)
  = (failure 500 "NSFW content detected",
     posted (Sample.ask "a red fox") (Sample.ledger 5)).
Proof.
  assert (Hadm : admitted (Sample.ask "a red fox") (Sample.ledger 5) "u1" 5).
  { unfold admitted. repeat split; vm_compute; reflexivity. }
  assert (Hsettled :
            settled_prediction MiniJSON.parse
              (Val (JStr (MiniJSON.text "{'id':'p1','status':'failed','error':'NSFW content detected'}")))
              [("id", JStr "p1"); ("status", JStr "failed");
               ("error", JStr "NSFW content detected")]
              (JStr "failed")).
  { repeat split; vm_compute; reflexivity. }
  exact (failed_prediction_is_reported MiniJSON.parse buffer_from_value
           Sample.configured
           (Sample.replying
              (Val (JStr (MiniJSON.text "{'id':'p1','status':'failed','error':'NSFW content detected'}"))))
           (Sample.ask "a red fox") (Sample.ledger 5) "u1" 5
           (MiniJSON.text "{'id':'p1','status':'failed','error':'NSFW content detected'}")
           [("id", JStr "p1"); ("status", JStr "failed");
            ("error", JStr "NSFW content detected")]
           "NSFW content detected" Hadm eq_refl eq_refl Hsettled eq_refl).
Defined.

(** ** Pending predictions *)

(** The URL the handler computes at lines 119-120 and 307-308 is the
    status URL. *)
Lemma status_url_predictionUrl fs :
  predictionUrl (JObj fs)
  = match status_url fs with
    | Some url => Ok url
    | None => Throw (Error "Cannot convert object to primitive value")
    end.
Proof.
  unfold predictionUrl, status_url. cbn [get].
  destruct (lookup_field "urls" fs) as [| |?|?|s|items|us]; cbn [get truthy];
    try (destruct (to_string (lookup_field "id" fs)); reflexivity).
  destruct (truthy (lookup_field "get" us)); [reflexivity|].
  destruct (to_string (lookup_field "id" fs)); reflexivity.
Qed.

Section Pending.

Variable JSON_parse : string -> parse_result.
Variable Buffer_from : jsval -> list byte + string.
Variable env : process_env.
Variable net : upstream.

(** A pending prediction is polled at least once. *)
Lemma poll_loop_first r url attempts fp st w :
  get fp "status" = Ok st -> transient st = true ->
  exists k,
    1 <= k <= S r
    /\ accounts (snd (poll_loop net (S r) url attempts fp w)) = accounts w
    /\ trace (snd (poll_loop net (S r) url attempts fp w))
       = trace w ++ map (Poll url) (seq (S attempts) k).
Proof.
  intros Hst Htr. cbn [poll_loop]. unfold bind, lift, emit.
  rewrite Hst, Htr.
  set (w1 := {| accounts := accounts w;
                trace := trace w ++ [Poll url (S attempts)] |}).
  assert (Hstep : forall fp',
             exists k,
               1 <= k <= S r
               /\ accounts (snd (poll_loop net r url (S attempts) fp' w1)) = accounts w
               /\ trace (snd (poll_loop net r url (S attempts) fp' w1))
                  = trace w ++ map (Poll url) (seq (S attempts) k)).
  { intros fp'.
    destruct (poll_loop_consecutive net r url (S attempts) fp' w1)
      as (k & Hk & Ha & Ht).
    exists (S k). split; [lia|]. split; [exact Ha|].
    rewrite Ht. unfold w1. cbn. now rewrite <- app_assoc. }
  destruct (poll net url (S attempts)) as [data|e]; [|apply Hstep].
  destruct (get data "status") as [st'|e]; [|apply Hstep].
  destruct (terminal st'); [|apply Hstep].
  exists 1. cbn. split; [lia|]. split; reflexivity.
Qed.

Lemma await_prediction_pending fs url w :
  transient (lookup_field "status" fs) = true ->
  predictionUrl (JObj fs) = Ok url ->
  accounts (snd (await_prediction net (JObj fs) w)) = accounts w
  /\ exists k,
       1 <= k <= maxAttempts
       /\ trace (snd (await_prediction net (JObj fs) w)) = trace w ++ polls url k.
Proof.
  intros Htr Hurl.
  unfold await_prediction, bind, lift. cbn [get]. rewrite Htr, Hurl.
  destruct (poll_loop_first 29 url 0 (JObj fs) _ w eq_refl Htr)
    as (k & Hk & Ha & Ht).
  change (S 29) with maxAttempts in *.
  destruct (poll_loop net maxAttempts url 0 (JObj fs) w) as [[fp|e] w1];
    cbn [snd] in Ha, Ht.
  - assert (Hrest : forall r : result jsval,
               accounts (snd (r, w1)) = accounts w
               /\ exists k, 1 <= k <= maxAttempts
                            /\ trace (snd (r, w1)) = trace w ++ polls url k).
    { intros r. split; [assumption|]. now exists k. }
    destruct (get fp "status"); [|apply Hrest].
    destruct (get fp "output"); [|apply Hrest].
    destruct (get fp "error"); apply Hrest.
  - cbn [snd]. split; [assumption|]. now exists k.
Qed.

Lemma extract_image_pending d fs url w :
  json_reply JSON_parse d (JObj fs) ->
  truthy (lookup_field "id" fs) = true ->
  transient (lookup_field "status" fs) = true ->
  predictionUrl (JObj fs) = Ok url ->
  exists k fetches,
    1 <= k <= maxAttempts
    /\ trace (snd (extract_image JSON_parse Buffer_from net d w))
       = trace w ++ polls url k ++ fetches
    /\ (fetches = [] \/ exists u, fetches = [Fetch u]).
Proof.
  intros Hreply Hid Htr Hurl.
  destruct (await_prediction_pending fs url w Htr Hurl) as [_ (k & Hk & Ht)].
  assert (Hafter : forall (image : jsval -> M jsval) j w1,
             fetches_once (image j) ->
             trace w1 = trace w ++ polls url k ->
             exists fetches,
               trace (snd (image j w1)) = trace w ++ polls url k ++ fetches
               /\ (fetches = [] \/ exists u, fetches = [Fetch u])).
  { intros image j w1 Himage Hw1.
    destruct (Himage w1) as [_ [fs' [Ht' Hfs]]].
    exists fs'. split; [|assumption]. rewrite Ht', Hw1. now rewrite <- app_assoc. }
  assert (Hnone : forall w1, trace w1 = trace w ++ polls url k ->
             exists fetches,
               trace w1 = trace w ++ polls url k ++ fetches
               /\ (fetches = [] \/ exists u, fetches = [Fetch u])).
  { intros w1 Hw1. exists []. split; [now rewrite app_nil_r | now left]. }
  exists k.
  destruct d as [raw|raw|raw|v]; cbn [json_reply] in Hreply.
  1-3: destruct Hreply as [Hlook Hparse];
    rewrite extract_image_bytes with (raw := raw) by reflexivity;
    rewrite (binary_image_prediction JSON_parse net raw fs w Hlook Hparse Hid Htr);
    destruct (await_prediction net (JObj fs) w) as [[j|e] w1]; cbn [snd] in Ht;
    [ destruct (Hafter (prediction_image_binary net) j w1
                  (prediction_image_binary_once net j) Ht) as (fetches & Hf1 & Hf2);
      exists fetches; split; [assumption|]; split; [|assumption];
      destruct (prediction_image_binary net j w1) as [[img|e] w2];
      cbn [snd] in *; [assumption|];
      destruct (includes (err_message e) "processing"
                || includes (err_message e) "Status:"); assumption
    | destruct (Hnone w1 Ht) as (fetches & Hf1 & Hf2);
      exists fetches; split; [assumption|]; split; [|assumption];
      destruct (includes (err_message e) "processing"
                || includes (err_message e) "Status:"); assumption ].
  destruct v; try contradiction.
  rewrite extract_image_text.
  rewrite (text_image_prediction JSON_parse net s fs w Hreply Hid Htr).
  destruct (await_prediction net (JObj fs) w) as [[j|e] w1]; cbn [snd] in Ht.
  - destruct (Hafter (prediction_image_text net) j w1
                (prediction_image_text_once net j) Ht) as (fetches & Hf1 & Hf2).
    exists fetches. auto.
  - destruct (Hnone w1 Ht) as (fetches & Hf1 & Hf2).
    exists fetches. auto.
Qed.

End Pending.

(** X15. A reply that is a pending prediction is polled at least once and
    at most 30 times, always under the same URL: the [get] entry of the
    [urls] of the reply when there is a truthy one, else the endpoint
    followed by the prediction id written as text, whatever the [urls]
    and whatever the type of the id. The polls come right after the POST;
    at most one fetch and one save follow them. *)
Theorem pending_prediction_is_polled_at_its_status_url
    JSON_parse Buffer_from env net req w uid b d fs url :
  admitted req w uid b ->
  truthy (HF_TOKEN env) = true ->
  post net (prompt req) = Resolved d ->
  json_reply JSON_parse d (JObj fs) ->
  truthy (lookup_field "id" fs) = true ->
  transient (lookup_field "status" fs) = true ->
  status_url fs = Some url ->
  exists k fetches saves,
    1 <= k <= maxAttempts
    /\ added w (snd (generateImage JSON_parse Buffer_from env net req w))
         ([FindById (userId req); Post (prompt req)]
          ++ polls url k ++ fetches ++ saves)
    /\ (fetches = [] \/ exists u, fetches = [Fetch u])
    /\ (saves = [] \/ exists id bal, saves = [Save id bal]).
Proof.
  intros Hadm Htok Hpost Hreply Hid Htr Hstatus.
  assert (Hurl : predictionUrl (JObj fs) = Ok url).
  { now rewrite status_url_predictionUrl, Hstatus. }
  rewrite (run_resolved _ _ _ _ req w uid b d Hadm Htok Hpost).
  destruct (extract_image_pending JSON_parse Buffer_from net d fs url
              (posted req w) Hreply Hid Htr Hurl) as (k & fetches & Hk & Ht & Hf).
  assert (Hposted : trace (posted req w)
                    = trace w ++ [FindById (userId req); Post (prompt req)]).
  { unfold posted. cbn. now rewrite <- app_assoc. }
  exists k, fetches.
  destruct (extract_image JSON_parse Buffer_from net d (posted req w))
    as [[img|e] w2]; cbn [snd] in *.
  - destruct (settle_saves JSON_parse uid b img w2) as [[_ Hs]|Hs].
    + exists []. split; [assumption|]. split; [|split; [assumption|now left]].
      unfold added. rewrite Hs, Ht, Hposted, app_nil_r. now rewrite <- !app_assoc.
    + exists [Save uid (debit b)].
      split; [assumption|]. split; [|split; [assumption|right; eauto]].
      unfold added. rewrite Hs, Ht, Hposted. now rewrite <- !app_assoc.
  - exists []. split; [assumption|]. split; [|split; [assumption|now left]].
    unfold added. rewrite Ht, Hposted, app_nil_r. now rewrite <- !app_assoc.
Qed.

(** A reply with an empty [urls] and a numeric id is polled under the
    endpoint followed by that number. *)
Lemma pending_prediction_is_polled_at_its_status_url_witness :
  status_url [("id", JNum 7); ("status", JStr "starting"); ("urls", JObj [])]
  = Some (JStr (REPLICATE_ENDPOINT +:+ "/7"))
  /\ exists k fetches saves,
       1 <= k <= maxAttempts
       /\ added (Sample.ledger 5)
            (snd (Sample.run Sample.configured
                    (Sample.upstream_of
                       (Buf (Sample.bytes
                          (MiniJSON.text "{'id':7,'status':'starting','urls':{}}")))
                       Sample.third_time)
                    (Sample.ask "a red fox") (Sample.ledger 5)))
            ([FindById (JStr "u1"); Post (JStr "a red fox")]
             ++ polls (JStr (REPLICATE_ENDPOINT +:+ "/7")) k ++ fetches ++ saves)
       /\ (fetches = [] \/ exists u, fetches = [Fetch u])
       /\ (saves = [] \/ exists id bal, saves = [Save id bal]).
Proof.
  assert (Hadm : admitted (Sample.ask "a red fox") (Sample.ledger 5) "u1" 5).
  { unfold admitted. repeat split; vm_compute; reflexivity. }
  assert (Hreply :
            json_reply MiniJSON.parse
              (Buf (Sample.bytes
                 (MiniJSON.text "{'id':7,'status':'starting','urls':{}}")))
              (JObj [("id", JNum 7); ("status", JStr "starting");
                     ("urls", JObj [])])).
  { split; vm_compute; reflexivity. }
  assert (Hurl :
            status_url [("id", JNum 7); ("status", JStr "starting");
                        ("urls", JObj [])]
            = Some (JStr (REPLICATE_ENDPOINT +:+ "/7"))).
  { vm_compute. reflexivity. }
  split; [exact Hurl|].
  exact (pending_prediction_is_polled_at_its_status_url MiniJSON.parse
           buffer_from_value Sample.configured
           (Sample.upstream_of
              (Buf (Sample.bytes
                 (MiniJSON.text "{'id':7,'status':'starting','urls':{}}")))
              Sample.third_time)
           (Sample.ask "a red fox") (Sample.ledger 5) "u1" 5
           (Buf (Sample.bytes
              (MiniJSON.text "{'id':7,'status':'starting','urls':{}}")))
           [("id", JNum 7); ("status", JStr "starting"); ("urls", JObj [])]
           (JStr (REPLICATE_ENDPOINT +:+ "/7"))
           Hadm eq_refl eq_refl Hreply eq_refl eq_refl Hurl).
Defined.

(** X16. An upstream error object inside a buffer whose text mentions
    [processing] or [Status:] passes the filter of the binary branch and
    reaches the caller: status 500 with the upstream's text, no debit. *)
Theorem buffer_error_mentioning_processing_is_reported
    JSON_parse Buffer_from env net req w uid b d raw fs m :
  admitted req w uid b ->
  truthy (HF_TOKEN env) = true ->
  post net (prompt req) = Resolved d ->
  bytes_of d = Some raw ->
  looks_like_json (string_of_list_byte raw) = true ->
  JSON_parse (string_of_list_byte raw) = Parsed (JObj fs) ->
  truthy (lookup_field "id" fs) && truthy (lookup_field "status" fs) = false ->
  lookup_field "error" fs = JStr m ->
  includes m "processing" || includes m "Status:" = true ->
  generateImage JSON_parse Buffer_from env net req w
  = (failure 500 m, posted req w).
Proof.
  intros Hadm Htok Hpost Hbytes Hlook Hparse Hid Herr Hinc.
  rewrite (run_resolved _ _ _ _ req w uid b d Hadm Htok Hpost).
  rewrite (extract_image_bytes _ _ _ d raw Hbytes).
  unfold binary_image, try_catch, parse. cbn zeta. rewrite Hlook, Hparse.
  unfold json_image_binary, bind, lift, ret, throw. cbn [get].
  rewrite Hid, Herr.
  destruct m as [|c m]; [discriminate Hinc|].
  cbn [truthy String.eqb negb orb js_or new_Error to_string err_message Error].
  rewrite Hinc. reflexivity.
Qed.

Lemma buffer_error_mentioning_processing_is_reported_witness :
  Sample.run Sample.configured
    (Sample.replying
       (Buf (Sample.bytes (MiniJSON.text "{'error':'queue full, still processing'}"))))
    (Sample.ask "a red fox") (Sample.ledger 5)
  = (failure 500 "queue full, still processing",
     posted (Sample.ask "a red fox") (Sample.ledger 5)).
Proof.
  assert (Hadm : admitted (Sample.ask "a red fox") (Sample.ledger 5) "u1" 5).
  { unfold admitted. repeat split; vm_compute; reflexivity. }
  exact (buffer_error_mentioning_processing_is_reported MiniJSON.parse
           buffer_from_value Sample.configured
           (Sample.replying
              (Buf (Sample.bytes (MiniJSON.text "{'error':'queue full, still processing'}"))))
           (Sample.ask "a red fox") (Sample.ledger 5) "u1" 5
           (Buf (Sample.bytes (MiniJSON.text "{'error':'queue full, still processing'}")))
           (Sample.bytes (MiniJSON.text "{'error':'queue full, still processing'}"))
           [("error", JStr "queue full, still processing")]
           "queue full, still processing"
           Hadm eq_refl eq_refl eq_refl eq_refl eq_refl eq_refl eq_refl eq_refl).
Defined.

(** * The client *)

Lemma eqb_empty_false s : String.eqb s "" = false <-> s <> "".
Proof. apply String.eqb_neq. Qed.

(** X17. The client sends a request exactly when it holds a token and the
    prompt is a string with something other than white space in it: a
    blank prompt, a missing one or a missing token never leaves the
    browser. *)
Theorem client_sends_only_real_prompts api st prompt :
  snd (fst (Client.generateImage api st prompt)) <> []
  <-> (truthy (Client.token st) = true
       /\ exists s, prompt = JStr s /\ trim s <> "").
Proof.
  unfold Client.generateImage. split.
  - destruct (truthy (Client.token st)); cbn [negb]; [|now intros H].
    destruct (truthy prompt) eqn:Hp; cbn [negb]; [|now intros H].
    destruct prompt as [| |?|?|s|?|?]; cbn [Client.is_blank]; try now intros H.
    destruct (String.eqb (trim s) "") eqn:Hblank; [now intros H|].
    intros _. split; [reflexivity|]. exists s. split; [reflexivity|].
    now apply eqb_empty_false.
  - intros [Htok (s & -> & Hs)]. rewrite Htok. cbn [negb].
    assert (Hp : truthy (JStr s) = true).
    { destruct s; [now destruct Hs | reflexivity]. }
    rewrite Hp. cbn [negb Client.is_blank].
    apply eqb_empty_false in Hs. rewrite Hs.
    destruct (Client.generate api (JStr s) (Client.token st)) as [data|e];
      [|discriminate].
    destruct (get data "success") as [ok|e]; [|discriminate].
    destruct (truthy ok); [|discriminate].
    destruct (get data "resultImage") as [image|e]; [|discriminate].
    destruct (truthy image); discriminate.
Qed.

(** X18. The client hands out an image only when the backend answered the
    generation with a truthy [success] and a truthy [resultImage]; it then
    returns exactly that [resultImage] and reloads the credits. In every
    other case it returns [null], reloads nothing and keeps its state. *)
Theorem client_returns_the_backend_image api st prompt :
  let r := fst (fst (Client.generateImage api st prompt)) in
  let evs := snd (fst (Client.generateImage api st prompt)) in
  let st' := snd (Client.generateImage api st prompt) in
  (r = JNull /\ st' = st
   /\ filter (fun e => Client.is_get_credits e = true) evs = [])
  \/ (truthy r = true
      /\ (exists data ok,
             Client.generate api prompt (Client.token st) = Resolved data
             /\ get data "success" = Ok ok /\ truthy ok = true
             /\ get data "resultImage" = Ok r)
      /\ evs = [Client.PostGenerate prompt (Client.token st);
                Client.GetCredits (Client.token st)]
      /\ st' = Client.loadCreditsData api st).
Proof.
  unfold Client.generateImage.
  destruct (negb (truthy (Client.token st))); [left; now repeat split|].
  destruct (negb (truthy prompt)); [left; now repeat split|].
  destruct (Client.is_blank prompt) as [[|]|]; try (left; now repeat split).
  destruct (Client.generate api prompt (Client.token st)) as [data|e] eqn:Hgen;
    [|left; now repeat split].
  destruct (get data "success") as [ok|e] eqn:Hok; [|left; now repeat split].
  destruct (truthy ok) eqn:Htruthy; [|left; now repeat split].
  destruct (get data "resultImage") as [image|e] eqn:Himage;
    [|left; now repeat split].
  destruct (truthy image) eqn:Hr; [|left; now repeat split].
  right. cbn [fst snd]. split; [assumption|].
  split; [now exists data, ok|]. split; reflexivity.
Qed.

(** X19. After [logout] the token is gone from the state and from local
    storage, the user is cleared, and [generateImage] sends nothing,
    whatever the prompt. *)
Theorem nothing_is_sent_after_logout api st prompt :
  Client.generateImage api (Client.logout st) prompt
  = (JNull, [], Client.logout st)
  /\ truthy (Client.token (Client.logout st)) = false
  /\ Client.stored_token (Client.logout st) = JNull
  /\ Client.user (Client.logout st) = JNull.
Proof. repeat split. Qed.

Example client_round_trip :
  Client.generateImage
    (Client.answering
       (JObj [("success", JBool true);
              ("resultImage", JStr "data:image/png;base64,QUJD")]))
    Client.signed_in (JStr "a red fox")
  = (JStr "data:image/png;base64,QUJD",
     [Client.PostGenerate (JStr "a red fox") (JStr "jwt");
      Client.GetCredits (JStr "jwt")],
     {| Client.user := JObj [("name", JStr "Ada")];
        Client.showLogin := false;
        Client.token := JStr "jwt";
        Client.credit := JNum 4;
        Client.stored_token := JStr "jwt" |}).
Proof. reflexivity. Qed.

Example client_blank_prompt :
  Client.generateImage (Client.answering JNull) Client.signed_in (JStr "   ")
  = (JNull, [], Client.signed_in).
Proof. reflexivity. Qed.
